(** * A shallow embedding of facette/logger

    The Go package [logger] (files [backend.go], [file.go], [logger.go]) is
    embedded as executable Rocq definitions over an explicit program state:
    the package-level variable [fileLabels], a heap of [Logger] structs, a
    store of slice backing arrays, and the history of calls made to the
    operating system.  What the package does not define itself enters as a
    parameter: the [os], [fmt], [time] and [ansi] functions it calls, and
    the system-log backend, whose file is not part of the sources at hand.
    The part of package [log] it uses is written out.  Calls run on one
    thread of control; the goroutines of [Logger.write] are studied under
    every schedule in module [Fanout]. *)

From stdpp Require Import gmap strings list fin_maps.
From Stdlib Require Import ZArith Ascii String Lia.

Local Open Scope string_scope.
Local Open Scope Z_scope.
Local Open Scope list_scope.

(** ** Go strings *)

(** [strings.ToUpper] on the ASCII range: the bytes 'a'..'z' (97..122) are
    moved down by 32, every other byte is kept. *)
Definition upper_ascii (c : ascii) : ascii :=
  let n := nat_of_ascii c in
  if (andb (97 <=? n) (n <=? 122))%nat then ascii_of_nat (n - 32) else c.

Fixpoint ToUpper (s : string) : string :=
  match s with
  | EmptyString => EmptyString
  | String c r => String (upper_ascii c) (ToUpper r)
  end.

(** [strings.LastIndex(s, "/")], shifted by one: the length of the shortest
    prefix of [s] that contains every slash of [s] (0 when there is none). *)
Fixpoint after_last_slash (s : string) : nat :=
  match s with
  | EmptyString => 0%nat
  | String c r =>
      match after_last_slash r with
      | O => if Ascii.eqb c "/" then 1%nat else 0%nat
      | S k => S (S k)
      end
  end.

Fixpoint take_string (n : nat) (s : string) : string :=
  match n, s with
  | S k, String c r => String c (take_string k r)
  | _, _ => EmptyString
  end.

Fixpoint drop_string (n : nat) (s : string) : string :=
  match n, s with
  | S k, String _ r => drop_string k r
  | _, _ => s
  end.

(** [path.Split]: [i := strings.LastIndex(path, "/"); return path[:i+1], path[i+1:]]. *)
Definition path_Split (p : string) : string * string :=
  let i := after_last_slash p in (take_string i p, drop_string i p).

Definition ends_with_newline (s : string) : bool :=
  match get (String.length s - 1) s with
  | Some c => Ascii.eqb c "010"
  | None => false
  end.

(** ** Levels ([logger.go]) *)

(** [const ( _ = iota; LevelError; LevelWarning; LevelNotice; LevelInfo; LevelDebug )] *)
Definition LevelError : Z := 1.
Definition LevelWarning : Z := 2.
Definition LevelNotice : Z := 3.
Definition LevelInfo : Z := 4.
Definition LevelDebug : Z := 5.

(** [file.go] spells the same constants with a lower-case initial; the
    earlier revisions of [logger.go] declare them with the same [iota]. *)
Definition levelError : Z := 1.
Definition levelWarning : Z := 2.
Definition levelNotice : Z := 3.
Definition levelInfo : Z := 4.
Definition levelDebug : Z := 5.

Definition defaultLevel : string := "info".

(** [var levelMap = map[string]int{...}] *)
Definition levelMap : gmap string Z :=
  <["error" := LevelError]> (<["warning" := LevelWarning]> (<["notice" := LevelNotice]>
  (<["info" := LevelInfo]> (<["debug" := LevelDebug]> ∅)))).

(** [fileColors = map[int]string{...}] ([file.go]) *)
Definition fileColors : gmap Z string :=
  <[levelError := "red"]> (<[levelWarning := "yellow"]> (<[levelNotice := "magenta"]>
  (<[levelInfo := "blue"]> (<[levelDebug := "cyan"]> ∅)))).

(** Indexing a Go map yields the zero value of the element type for a
    missing key. *)
Definition index_string {K} `{Countable K} (m : gmap K string) (k : K) : string :=
  default "" (m !! k).

(** ** Values, configurations and errors *)

(** An error value produced by the [os] package, by its message. *)
Record oserror := { os_msg : string }.

(** Modelled from the spec: [ErrUnsupportedBackend], used by [NewLogger];
    its declaration is not part of the sources at hand ("UnsupportedBackend:
    an unrecognized configuration type was supplied").  The package declares
    [ErrInvalidLevel = errors.New("invalid logging level")]; [OSError] wraps
    an error of the [os] package and [Errorf] is the result of [fmt.Errorf]. *)
Inductive error :=
| ErrInvalidLevel
| ErrUnsupportedBackend
| OSError (e : oserror)
| Errorf (msg : string).

(** Modelled from the spec: the declaration of [FileConfig] is not part of
    the sources at hand.  [file.go] reads its field [Path]; the field [Level]
    follows the spec ("File/console config: { path: string (empty or sentinel
    = use stderr), level: string (one of the five level names) }"). *)
Record FileConfig := { Path : string; Level : string }.

(** Modelled from the spec: the declaration of [SyslogConfig] is not part of
    the sources at hand ("System-log config: { facility/tag: string, level:
    string }"). *)
Record SyslogConfig := { Tag : string; SyslogLevel : string }.

(** A value of type [interface{}], by dynamic type. *)
Inductive any :=
| FileConfigV (c : FileConfig)
| SyslogConfigV (c : SyslogConfig)
| StringV (s : string)
| IntV (z : Z)
| NilV.

(** ** The operating system, as seen by the package *)

(** [*os.File]: the process-wide [os.Stderr], or the handle returned by the
    [id]-th call made to the operating system. *)
Inductive osFile :=
| Stderr
| Opened (path : string) (id : nat).

#[global] Instance osFile_eq_dec : EqDecision osFile.
Proof. solve_decision. Defined.

(** [time.Time], by the components [log] prints. *)
Record Time := { year : Z; month : Z; day : Z;
                 hour : Z; minute : Z; second : Z; nanosecond : Z }.

(** The calls made so far, oldest first, each with its result. *)
Inductive event :=
| EvMkdirAll (dir : string) (perm : Z) (r : option oserror)
| EvOpenFile (path : string) (flag perm : Z) (r : option oserror)
| EvNow (t : Time)
| EvWrite (f : osFile) (data : string) (r : option oserror)
| EvClose (f : osFile) (r : option oserror).

(** [os.O_WRONLY], [os.O_CREATE], [os.O_APPEND] (the Linux values). *)
Definition O_WRONLY : Z := 1.
Definition O_CREATE : Z := 64.
Definition O_APPEND : Z := 1024.

(** ** Package [log] *)

Definition Ldate : Z := 1.
Definition Ltime : Z := 2.
Definition Lmicroseconds : Z := 4.
Definition LstdFlags : Z := Z.lor Ldate Ltime.

(** [*log.Logger] as built by [log.New(out, prefix, flag)]. *)
Record log_Logger := { lg_out : osFile; lg_prefix : string; lg_flag : Z }.

Definition log_New (out : osFile) (prefix : string) (flag : Z) : log_Logger :=
  {| lg_out := out; lg_prefix := prefix; lg_flag := flag |}.

(** [byte('0' + d)] *)
Definition digit (d : Z) : ascii := ascii_of_N (Z.to_N ((48 + d) mod 256)).

(** [log.itoa]: decimal, zero-padded to [wid] digits; the fuel is the size
    of its 20-byte buffer, which no [int] exhausts. *)
Fixpoint itoa_loop (fuel : nat) (i wid : Z) (acc : string) : string :=
  match fuel with
  | O => String (digit i) acc
  | S f =>
      if (10 <=? i) || (1 <? wid)
      then let q := Z.quot i 10 in
           itoa_loop f q (wid - 1) (String (digit (i - q * 10)) acc)
      else String (digit i) acc
  end.

Definition itoa (i wid : Z) : string := itoa_loop 20 i wid "".

Definition flag_set (flag bits : Z) : bool := negb (Z.land flag bits =? 0).

(** [log.Logger.formatHeader] for the flags [Ldate], [Ltime] and
    [Lmicroseconds]; the file-name, UTC and message-prefix flags are never
    set by this package. *)
Definition formatHeader (l : log_Logger) (t : Time) : string :=
  lg_prefix l +:+
  (if flag_set (lg_flag l) (Z.lor Ldate (Z.lor Ltime Lmicroseconds)) then
     (if flag_set (lg_flag l) Ldate
      then itoa (year t) 4 +:+ "/" +:+ itoa (month t) 2 +:+ "/" +:+ itoa (day t) 2 +:+ " "
      else "") +:+
     (if flag_set (lg_flag l) (Z.lor Ltime Lmicroseconds)
      then itoa (hour t) 2 +:+ ":" +:+ itoa (minute t) 2 +:+ ":" +:+ itoa (second t) 2 +:+
           (if flag_set (lg_flag l) Lmicroseconds
            then "." +:+ itoa (Z.quot (nanosecond t) 1000) 6 else "") +:+ " "
      else "")
   else "").

(** The bytes [log.Logger.Output] hands to the writer: header, message,
    and a newline unless the message already ends in one. *)
Definition output_line (l : log_Logger) (t : Time) (s : string) : string :=
  formatHeader l t +:+ s +:+ (if ends_with_newline s then "" else String "010" "").

Definition sample_time : Time :=
  {| year := 2016; month := 3; day := 7; hour := 9; minute := 5; second := 42;
     nanosecond := 1234567 |}.

(** The files closed in a history, in the order of the calls, and the data
    handed to one file. *)
Definition closed_files (h : list event) : list osFile :=
  omap (fun e => match e with EvClose f _ => Some f | _ => None end) h.

Definition written_to (f : osFile) (h : list event) : list string :=
  omap (fun e => match e with
                 | EvWrite g data _ => if decide (g = f) then Some data else None
                 | _ => None
                 end) h.

(** The text of a line after its time stamp: the label, the context and a
    colon when there is a context, the message. *)
Definition line_text (label ctx msg : string) : string :=
  if negb (ctx =? "")%string
  then label +:+ " " +:+ ctx +:+ ": " +:+ msg
  else label +:+ " " +:+ msg.

(** ** What the package calls outside itself *)

(** The [ansi], [fmt], [os] and [time] functions the package uses.  The
    operating system answers each call from the history of the calls made
    before it, so every deterministic environment is an instance: a disk
    that fills up, a directory that cannot be created, a closed pipe. *)
Class Externals := {
  ansi_Color : string -> string -> string;
  fmt_Sprintf : string -> list any -> string;
  os_MkdirAll : list event -> string -> Z -> option oserror;
  os_OpenFile : list event -> string -> Z -> Z -> option oserror;
  file_Write : list event -> osFile -> string -> option oserror;
  file_Close : list event -> osFile -> option oserror;
  time_Now : list event -> Time
}.

(** Modelled from the spec: the system-log backend ([newSyslogBackend] and
    the methods of its backend type), whose file is not part of the sources
    at hand.  It "forwards the formatted message to the platform system-log
    facility" and is closed on shutdown; it keeps a state of its own, and
    its constructor yields a backend or an error. *)
Class SyslogImpl := {
  syslogBackend : Type;
  syslogState : Type;
  newSyslogBackend : SyslogConfig -> nat -> syslogState -> (syslogBackend + error) * syslogState;
  syslogBackend_Close : syslogBackend -> syslogState -> syslogState;
  syslogBackend_Write :
    syslogBackend -> Z -> string -> string -> list any -> syslogState -> syslogState
}.

(** A call returns, panics, or blocks for ever. *)
Inductive outcome (A : Type) :=
| Done (a : A)
| Panic (msg : string)
| Blocked.
Arguments Done {A} a.
Arguments Panic {A} msg.
Arguments Blocked {A}.

Section Package.
Context `{EX : Externals} `{SL : SyslogImpl}.

(** ** Data model *)

(** [type fileBackend struct { logger *Logger; output *os.File; writer *log.Logger }] *)
Record fileBackend := {
  fb_logger : nat;
  fb_output : osFile;
  fb_writer : log_Logger
}.

(** The two implementations of [type backend interface { Close(); Write(...) }]. *)
Inductive backend :=
| FileB (b : fileBackend)
| SyslogB (b : syslogBackend).

(** A slice header: backing array, length, capacity. *)
Record slice := { s_arr : nat; s_len : nat; s_cap : nat }.

(** [type Logger struct { backends []backend; context string; wg sync.WaitGroup; sync.Mutex }];
    the wait group by its counter, the mutex by whether it is held. *)
Record Logger := {
  backends : slice;
  context : string;
  wg : Z;
  Mutex : bool
}.

(** The program state.  [fileLabels] is the package-level variable of
    [file.go] (the nil map and the empty map read alike); [loggers] holds
    the [Logger] structs by address; [arrays] holds the backing arrays of
    [[]backend] slices, a cell being [None] for a nil interface value. *)
Record State := {
  fileLabels : gmap Z string;
  loggers : gmap nat Logger;
  arrays : gmap nat (list (option backend));
  history : list event;
  syslog : syslogState
}.

Definition set_fileLabels (m : gmap Z string) (st : State) : State :=
  {| fileLabels := m; loggers := loggers st; arrays := arrays st;
     history := history st; syslog := syslog st |}.
Definition set_loggers (m : gmap nat Logger) (st : State) : State :=
  {| fileLabels := fileLabels st; loggers := m; arrays := arrays st;
     history := history st; syslog := syslog st |}.
Definition set_arrays (m : gmap nat (list (option backend))) (st : State) : State :=
  {| fileLabels := fileLabels st; loggers := loggers st; arrays := m;
     history := history st; syslog := syslog st |}.
Definition add_event (e : event) (st : State) : State :=
  {| fileLabels := fileLabels st; loggers := loggers st; arrays := arrays st;
     history := history st ++ [e]; syslog := syslog st |}.
Definition set_syslog (s : syslogState) (st : State) : State :=
  {| fileLabels := fileLabels st; loggers := loggers st; arrays := arrays st;
     history := history st; syslog := s |}.

Definition set_backends (s : slice) (l : Logger) : Logger :=
  {| backends := s; context := context l; wg := wg l; Mutex := Mutex l |}.
Definition set_wg (n : Z) (l : Logger) : Logger :=
  {| backends := backends l; context := context l; wg := n; Mutex := Mutex l |}.
Definition set_Mutex (b : bool) (l : Logger) : Logger :=
  {| backends := backends l; context := context l; wg := wg l; Mutex := b |}.

(** ** Computations *)

Definition M (A : Type) : Type := State -> outcome (A * State).

Definition ret {A} (a : A) : M A := fun st => Done (a, st).

Definition bind {A B} (m : M A) (k : A -> M B) : M B :=
  fun st =>
    match m st with
    | Done (a, st') => k a st'
    | Panic msg => Panic msg
    | Blocked => Blocked
    end.

Notation "'do' x <- m ; k" := (bind m (fun x => k))
  (at level 10, x name, m at level 100, k at level 200).
Notation "'do' ' p <- m ; k" := (bind m (fun x => match x with p => k end))
  (at level 10, p pattern, m at level 100, k at level 200).
Notation "m ;; k" := (bind m (fun _ => k))
  (at level 100, k at level 200, right associativity).

Definition get_state : M State := fun st => Done (st, st).
Definition modify (f : State -> State) : M unit := fun st => Done (tt, f st).
Definition panic {A} (msg : string) : M A := fun _ => Panic msg.
Definition block {A} : M A := fun _ => Blocked.

(** [for _, x := range xs { body(x) }] *)
Fixpoint for_each {A} (xs : list A) (body : A -> M unit) : M unit :=
  match xs with
  | [] => ret tt
  | x :: r => body x ;; for_each r body
  end.

(** *** The operating system *)

Definition call_MkdirAll (dir : string) (perm : Z) : M (option oserror) :=
  fun st =>
    let r := os_MkdirAll (history st) dir perm in
    Done (r, add_event (EvMkdirAll dir perm r) st).

Definition call_OpenFile (name : string) (flag perm : Z) : M (osFile + oserror) :=
  fun st =>
    let r := os_OpenFile (history st) name flag perm in
    Done (match r with
          | None => inl (Opened name (List.length (history st)))
          | Some e => inr e
          end,
          add_event (EvOpenFile name flag perm r) st).

Definition osFile_Write (f : osFile) (data : string) : M (option oserror) :=
  fun st =>
    let r := file_Write (history st) f data in
    Done (r, add_event (EvWrite f data r) st).

Definition osFile_Close (f : osFile) : M (option oserror) :=
  fun st =>
    let r := file_Close (history st) f in
    Done (r, add_event (EvClose f r) st).

Definition call_Now : M Time :=
  fun st =>
    let t := time_Now (history st) in
    Done (t, add_event (EvNow t) st).

(** [log.Logger.Output]: [now := time.Now(); ...; _, err := l.out.Write(l.buf); return err] *)
Definition log_Output (l : log_Logger) (s : string) : M (option oserror) :=
  do now <- call_Now;
  osFile_Write (lg_out l) (output_line l now s).

(** [log.Logger.Printf]: [l.Output(2, fmt.Sprintf(format, v...))], the error
    dropped; [s] is the formatted text. *)
Definition log_Printf (l : log_Logger) (s : string) : M unit :=
  log_Output l s ;; ret tt.

(** *** Memory *)

(** Reading through a [*Logger]; an address that holds no [Logger] stands
    for the nil pointer. *)
Definition deref (l : nat) : M Logger :=
  fun st =>
    match loggers st !! l with
    | Some lg => Done (lg, st)
    | None => Panic "invalid memory address or nil pointer dereference"
    end.

Definition store (l : nat) (lg : Logger) : M unit :=
  modify (fun st => set_loggers (<[l := lg]> (loggers st)) st).

(** [&Logger{...}]: a fresh address. *)
Definition new_Logger (lg : Logger) : M nat :=
  fun st =>
    let l := fresh (dom (loggers st)) in
    Done (l, set_loggers (<[l := lg]> (loggers st)) st).

(** [[]backend{}]: length and capacity 0. *)
Definition empty_slice : M slice :=
  fun st =>
    let a := fresh (dom (arrays st)) in
    Done ({| s_arr := a; s_len := 0; s_cap := 0 |}, set_arrays (<[a := []]> (arrays st)) st).

(** The elements [s[0], ..., s[len(s)-1]]. *)
Definition slice_elems (s : slice) (st : State) : list (option backend) :=
  take (s_len s) (default [] (arrays st !! s_arr s)).

(** The capacity the runtime picks when a full slice grows: doubling, as
    it does for small slices. *)
Definition growcap (old : nat) : nat := if (old =? 0)%nat then 1%nat else (2 * old)%nat.

(** [append(s, b)]: in place when the backing array has room, else into a
    new array that receives a copy of the elements. *)
Definition append (s : slice) (b : option backend) : M slice :=
  fun st =>
    if (s_len s <? s_cap s)%nat then
      Done ({| s_arr := s_arr s; s_len := S (s_len s); s_cap := s_cap s |},
            set_arrays (alter (fun xs => <[s_len s := b]> xs) (s_arr s) (arrays st)) st)
    else
      let a := fresh (dom (arrays st)) in
      let c := growcap (s_cap s) in
      Done ({| s_arr := a; s_len := S (s_len s); s_cap := c |},
            set_arrays (<[a := (slice_elems s st ++ b :: replicate (c - S (s_len s)) None)%list]>
                          (arrays st)) st).

(** *** [sync.Mutex] and [sync.WaitGroup], on one thread of control *)

Definition Lock (l : nat) : M unit :=
  do lg <- deref l;
  if Mutex lg then block else store l (set_Mutex true lg).

Definition Unlock (l : nat) : M unit :=
  do lg <- deref l;
  if Mutex lg then store l (set_Mutex false lg)
  else panic "sync: unlock of unlocked mutex".

Definition wg_Add (l : nat) (delta : Z) : M unit :=
  do lg <- deref l;
  if wg lg + delta <? 0 then panic "sync: negative WaitGroup counter"
  else store l (set_wg (wg lg + delta) lg).

Definition wg_Done (l : nat) : M unit := wg_Add l (-1).

Definition wg_Wait (l : nat) : M unit :=
  do lg <- deref l;
  if wg lg =? 0 then ret tt else block.

(** ** [file.go] *)

(** The label [newFileBackend] stores for one entry of [levelMap]. *)
Definition file_label (useColors : bool) (name : string) (level : Z) : string :=
  if useColors then ansi_Color (ToUpper name) (index_string fileColors level)
  else ToUpper name +:+ ":".

(** [fileLabels = map[int]string{}; for name, level := range levelMap { fileLabels[level] = ... }],
    the entries visited in the order [entries]. *)
Definition init_labels (useColors : bool) (entries : list (string * Z)) : gmap Z string :=
  foldl (fun m e => <[e.2 := file_label useColors e.1 e.2]> m) ∅ entries.

Definition fileBackend_of (logger : nat) (output : osFile) : fileBackend :=
  {| fb_logger := logger; fb_output := output;
     fb_writer := log_New output "" (Z.lor LstdFlags Lmicroseconds) |}.

(** The tail of [newFileBackend], from [writer := log.New(...)] on. *)
Definition finish_fileBackend (logger : nat) (output : osFile) (useColors : bool)
  : M (option backend * option error) :=
  modify (set_fileLabels (init_labels useColors (map_to_list levelMap))) ;;
  ret (Some (FileB (fileBackend_of logger output)), None).

Definition newFileBackend (config : FileConfig) (logger : nat)
  : M (option backend * option error) :=
  if negb (Path config =? "")%string && negb (Path config =? "-")%string then
    let dirPath := (path_Split (Path config)).1 in
    do err <- call_MkdirAll dirPath 493;
    match err with
    | Some e => ret (None, Some (OSError e))
    | None =>
        do r <- call_OpenFile (Path config) (Z.lor (Z.lor O_APPEND O_CREATE) O_WRONLY) 420;
        match r with
        | inr e => ret (None, Some (Errorf ("failed to open logging file: " +:+ os_msg e)))
        | inl output => finish_fileBackend logger output false
        end
    end
  else
    finish_fileBackend logger Stderr true.

(** [func (b fileBackend) Close() { b.output.Close() }] *)
Definition fileBackend_Close (b : fileBackend) : M unit :=
  osFile_Close (fb_output b) ;; ret tt.

(** [func (b fileBackend) Write(level int, context, format string, v ...interface{})];
    the verb [%s] of the outer format substitutes its string argument as it is. *)
Definition fileBackend_Write (b : fileBackend) (level : Z) (context format : string)
    (v : list any) : M unit :=
  do st <- get_state;
  if negb (context =? "")%string then
    log_Printf (fb_writer b)
      (index_string (fileLabels st) level +:+ " " +:+ context +:+ ": " +:+ fmt_Sprintf format v)
  else
    log_Printf (fb_writer b)
      (index_string (fileLabels st) level +:+ " " +:+ fmt_Sprintf format v).


(** ** [backend.go]: dispatch through the interface *)

(** [b.Close()]; a method call on a nil interface value panics. *)
Definition backend_Close (b : option backend) : M unit :=
  match b with
  | None => panic "invalid memory address or nil pointer dereference"
  | Some (FileB fb) => fileBackend_Close fb
  | Some (SyslogB sb) => modify (fun st => set_syslog (syslogBackend_Close sb (syslog st)) st)
  end.

(** [b.Write(level, context, format, v...)] *)
Definition backend_Write (b : option backend) (level : Z) (context format : string)
    (v : list any) : M unit :=
  match b with
  | None => panic "invalid memory address or nil pointer dereference"
  | Some (FileB fb) => fileBackend_Write fb level context format v
  | Some (SyslogB sb) =>
      modify (fun st =>
        set_syslog (syslogBackend_Write sb level context format v (syslog st)) st)
  end.

Definition call_newSyslogBackend (config : SyslogConfig) (logger : nat)
  : M (option backend * option error) :=
  fun st =>
    let r := newSyslogBackend config logger (syslog st) in
    Done (match r.1 with
          | inl b => (Some (SyslogB b), None)
          | inr e => (None, Some e)
          end, set_syslog r.2 st).

(** ** [logger.go] *)

(** The [switch config.(type)] of [NewLogger]. *)
Definition new_backend (config : any) (logger : nat) : M (option backend * option error) :=
  match config with
  | FileConfigV c => newFileBackend c logger
  | SyslogConfigV c => call_newSyslogBackend c logger
  | _ => ret (None, Some ErrUnsupportedBackend)
  end.

(** The loop [for _, config := range configs] of [NewLogger], followed by
    its [return logger, nil]. *)
Fixpoint NewLogger_loop (logger : nat) (configs : list any) : M (option nat * option error) :=
  match configs with
  | [] => ret (Some logger, None)
  | config :: rest =>
      do r <- new_backend config logger;
      match r.2 with
      | Some err => ret (None, Some err)
      | None =>
          do lg <- deref logger;
          do s <- append (backends lg) r.1;
          store logger (set_backends s lg) ;;
          NewLogger_loop logger rest
      end
  end.

Definition NewLogger (configs : list any) : M (option nat * option error) :=
  do s <- empty_slice;
  do logger <- new_Logger {| backends := s; context := ""; wg := 0; Mutex := false |};
  NewLogger_loop logger configs.

(** [func (l *Logger) Context(context string) *Logger] *)
Definition Logger_Context (l : nat) (ctx : string) : M nat :=
  do lg <- deref l;
  new_Logger {| backends := backends lg; context := ctx; wg := 0; Mutex := false |}.

(** [func (l *Logger) write(level int, format string, v ...interface{})],
    under the schedule that runs every goroutine to its end at the [go]
    statement that starts it.  The other schedules are the subject of
    module [Fanout] and of [writes_run] below. *)
Definition Logger_write (l : nat) (level : Z) (format : string) (v : list any) : M unit :=
  Lock l ;;
  do lg <- deref l;
  wg_Add l (Z.of_nat (s_len (backends lg))) ;;
  do st <- get_state;
  for_each (slice_elems (backends lg) st)
    (fun b =>
       do lg' <- deref l;
       backend_Write b level (context lg') format v ;;
       wg_Done l) ;;
  wg_Wait l ;;
  Unlock l.

Definition Logger_Error (l : nat) (format : string) (v : list any) : M nat :=
  Logger_write l LevelError format v ;; ret l.
Definition Logger_Warning (l : nat) (format : string) (v : list any) : M nat :=
  Logger_write l LevelWarning format v ;; ret l.
Definition Logger_Notice (l : nat) (format : string) (v : list any) : M nat :=
  Logger_write l LevelNotice format v ;; ret l.
Definition Logger_Info (l : nat) (format : string) (v : list any) : M nat :=
  Logger_write l LevelInfo format v ;; ret l.
Definition Logger_Debug (l : nat) (format : string) (v : list any) : M nat :=
  Logger_write l LevelDebug format v ;; ret l.

(** [func (l *Logger) Close() { for _, b := range l.backends { b.Close() } }] *)
Definition Logger_Close (l : nat) : M unit :=
  do lg <- deref l;
  do st <- get_state;
  for_each (slice_elems (backends lg) st) backend_Close.

(** The state of a program that has not yet called the package. *)
Definition initial_state (s : syslogState) : State :=
  {| fileLabels := ∅; loggers := ∅; arrays := ∅; history := []; syslog := s |}.


(** ** Vocabulary for the properties *)

(** What one backend does to the state when it is asked to write: a file
    backend reads the clock and hands one line to its output, whatever the
    level; the system-log backend moves its own state. *)
Definition written_by (level : Z) (ctx format : string) (v : list any)
    (st : State) (b : backend) : State :=
  match b with
  | FileB fb =>
      let t := time_Now (history st) in
      let st1 := add_event (EvNow t) st in
      let text := line_text (index_string (fileLabels st) level) ctx (fmt_Sprintf format v) in
      let line := output_line (fb_writer fb) t text in
      add_event (EvWrite (lg_out (fb_writer fb)) line
                   (file_Write (history st1) (lg_out (fb_writer fb)) line)) st1
  | SyslogB sb => set_syslog (syslogBackend_Write sb level ctx format v (syslog st)) st
  end.

(** What one backend does to the state when it is closed. *)
Definition closed_by (st : State) (b : backend) : State :=
  match b with
  | FileB fb => add_event (EvClose (fb_output fb) (file_Close (history st) (fb_output fb))) st
  | SyslogB sb => set_syslog (syslogBackend_Close sb (syslog st)) st
  end.

(** The slice [s] holds exactly the backends [bs], none of them nil. *)
Definition holds (st : State) (s : slice) (bs : list backend) : Prop :=
  exists xs, arrays st !! s_arr s = Some xs
             /\ take (s_len s) xs = Some <$> bs
             /\ s_len s = List.length bs
             /\ List.length xs = s_cap s.

(** [l] is a logger with the backends [bs] and the context [ctx] that no
    call to [write] is using: its mutex is free and its wait group at zero. *)
Definition idle (st : State) (l : nat) (ctx : string) (bs : list backend) : Prop :=
  exists lg, loggers st !! l = Some lg
             /\ context lg = ctx /\ Mutex lg = false /\ wg lg = 0
             /\ holds st (backends lg) bs.

(** The output file of a file backend. *)
Definition output_of (b : backend) : option osFile :=
  match b with
  | FileB fb => Some (fb_output fb)
  | SyslogB _ => None
  end.

(** The configurations [NewLogger] has a case for. *)
Definition supported (config : any) : bool :=
  match config with
  | FileConfigV _ | SyslogConfigV _ => true
  | _ => false
  end.

End Package.

(** ** A concrete environment, for running the definitions *)

(** [ansi.Color] with the escape codes of the [ansi] package for the five
    colours of [fileColors]: start code, text, reset code. *)
Definition esc : string := String "027" "[".

Definition sample_Color (s style : string) : string :=
  esc +:+ (if (style =? "red")%string then "31"
           else if (style =? "yellow")%string then "33"
           else if (style =? "magenta")%string then "35"
           else if (style =? "blue")%string then "34"
           else if (style =? "cyan")%string then "36" else "39") +:+ "m" +:+ s +:+ esc +:+ "0m".

(** [fmt.Sprintf] on formats without verbs: the format itself. *)
Definition sample_Sprintf (format : string) (v : list any) : string := format.

(** An operating system on which nothing can be created under [/proc] and
    every other call succeeds; the clock stands still. *)
Definition sample_EX : Externals :=
  {| ansi_Color := sample_Color;
     fmt_Sprintf := sample_Sprintf;
     os_MkdirAll := fun _ dir _ =>
       if String.prefix "/proc/" dir then Some {| os_msg := "mkdir " +:+ dir +:+ ": no such file or directory" |}
       else None;
     os_OpenFile := fun _ _ _ _ => None;
     file_Write := fun _ _ _ => None;
     file_Close := fun _ _ => None;
     time_Now := fun _ => sample_time |}.

(** A system-log backend that counts what it is asked to do. *)
Definition sample_SL : SyslogImpl :=
  {| syslogBackend := unit;
     syslogState := nat;
     newSyslogBackend := fun _ _ n => (inl tt, n);
     syslogBackend_Close := fun _ n => S n;
     syslogBackend_Write := fun _ _ _ _ _ n => S n |}.

Definition sample_initial : @State sample_SL := initial_state (SL := sample_SL) 0%nat.

Definition run {A} (m : @M sample_SL A) : outcome (A * @State sample_SL) :=
  m sample_initial.


(** The same operating system with a full disk: every write fails. *)
Definition full_disk_EX : Externals :=
  {| ansi_Color := sample_Color;
     fmt_Sprintf := sample_Sprintf;
     os_MkdirAll := fun _ _ _ => None;
     os_OpenFile := fun _ _ _ _ => None;
     file_Write := fun _ _ _ => Some {| os_msg := "no space left on device" |};
     file_Close := fun _ _ => None;
     time_Now := fun _ => sample_time |}.

(** [logger, err := NewLogger(configs...)] followed by a call on the logger. *)
Definition with_NewLogger {EX : Externals} {A} (configs : list any)
    (call : nat -> @M sample_SL A) : @M sample_SL A :=
  bind (NewLogger configs)
    (fun r => match r.1 with
              | Some l => call l
              | None => panic "no logger"
              end).

Definition state_of {A} (o : outcome (A * @State sample_SL)) : @State sample_SL :=
  match o with
  | Done (_, st) => st
  | _ => sample_initial
  end.

Definition console_config (level : string) : any :=
  FileConfigV {| Path := "-"; Level := level |}.
Definition file_config (path level : string) : any :=
  FileConfigV {| Path := path; Level := level |}.

(** The state after [NewLogger(FileConfig{Path: "-"}, FileConfig{Path: "/var/log/app.log"})]
    and the logger, at address 0, it returns. *)
Definition two_backends {EX : Externals} : @State sample_SL :=
  state_of (run (NewLogger [console_config "info"; file_config "/var/log/app.log" "info"])).

Definition console_backend : @backend sample_SL := FileB (fileBackend_of 0 Stderr).
Definition app_log : osFile := Opened "/var/log/app.log" 1.
Definition app_log_backend : @backend sample_SL := FileB (fileBackend_of 0 app_log).

Definition newline : string := String "010" "".

(** The [Logger] struct at address 0 in [two_backends]. *)
Definition two_backends_logger : Logger :=
  {| backends := {| s_arr := 2; s_len := 2; s_cap := 2 |};
     context := ""; wg := 0; Mutex := false |}.

(** ** The goroutines of [Logger.write], under every schedule *)

(** [write] locks the logger, adds [len(l.backends)] to the wait group,
    starts one goroutine per backend ([b.Write(...); l.wg.Done()]), waits
    for the counter to reach zero and unlocks on return.  Any number of
    callers run [write] on one [Logger] with [n] backends; a schedule picks
    the thread that moves next.  A caller stands for one call: a goroutine
    that logs twice is two callers, and the schedules in which the second
    starts before the first has returned are more than it can produce.  The
    mutex and the wait group are fields of the [Logger] struct: a logger
    made by [Context] has its own. *)
Module Fanout.

(** Where a caller of [write] stands. *)
Inductive pc :=
| AtLock
| AtAdd
| AtGo (i : nat)
| AtWait
| AtUnlock
| Returned.

(** Where the goroutine started for one backend stands. *)
Inductive wpc :=
| NotStarted
| Ready
| Writing
| AtDone
| Exited.

(** [b.Write] of call [c] on backend [i] begins, and returns. *)
Inductive event :=
| Begin (c i : nat)
| End (c i : nat).

Definition call_of (e : event) : nat :=
  match e with Begin c _ | End c _ => c end.

Record state := {
  mutex : bool;
  counter : Z;
  panicked : bool;
  caller : nat -> pc;
  worker : nat -> nat -> wpc;
  events : list event
}.

Inductive thread :=
| Caller (c : nat)
| Worker (c i : nat).

Definition upd {A} (f : nat -> A) (k : nat) (a : A) : nat -> A :=
  fun j => if (j =? k)%nat then a else f j.

Definition init : state :=
  {| mutex := false; counter := 0; panicked := false;
     caller := fun _ => AtLock; worker := fun _ _ => NotStarted; events := [] |}.

Definition set_caller (c : nat) (p : pc) (s : state) : state :=
  {| mutex := mutex s; counter := counter s; panicked := panicked s;
     caller := upd (caller s) c p; worker := worker s; events := events s |}.
Definition set_worker (c i : nat) (p : wpc) (s : state) : state :=
  {| mutex := mutex s; counter := counter s; panicked := panicked s;
     caller := caller s; worker := upd (worker s) c (upd (worker s c) i p);
     events := events s |}.
Definition set_mutex (b : bool) (s : state) : state :=
  {| mutex := b; counter := counter s; panicked := panicked s;
     caller := caller s; worker := worker s; events := events s |}.
Definition set_counter (k : Z) (s : state) : state :=
  {| mutex := mutex s; counter := k; panicked := panicked s;
     caller := caller s; worker := worker s; events := events s |}.
Definition log_event (e : event) (s : state) : state :=
  {| mutex := mutex s; counter := counter s; panicked := panicked s;
     caller := caller s; worker := worker s; events := e :: events s |}.
Definition crash (s : state) : state :=
  {| mutex := mutex s; counter := counter s; panicked := true;
     caller := caller s; worker := worker s; events := events s |}.

(** [wg.Add(delta)]: a counter that would go negative panics. *)
Definition wg_add (delta : Z) (s : state) : state :=
  if counter s + delta <? 0 then crash s else set_counter (counter s + delta) s.

(** One move of thread [t]; [None] when it cannot move: blocked on the
    mutex or on the wait group, not started, or finished.  [events] grows at
    its head. *)
Definition step (n : nat) (t : thread) (s : state) : option state :=
  if panicked s then None
  else match t with
       | Caller c =>
           match caller s c with
           | AtLock =>
               if mutex s then None else Some (set_caller c AtAdd (set_mutex true s))
           | AtAdd => Some (set_caller c (AtGo 0) (wg_add (Z.of_nat n) s))
           | AtGo i =>
               if (i <? n)%nat then Some (set_caller c (AtGo (S i)) (set_worker c i Ready s))
               else Some (set_caller c AtWait s)
           | AtWait => if counter s =? 0 then Some (set_caller c AtUnlock s) else None
           | AtUnlock =>
               if mutex s then Some (set_caller c Returned (set_mutex false s))
               else Some (crash s)
           | Returned => None
           end
       | Worker c i =>
           match worker s c i with
           | Ready => Some (set_worker c i Writing (log_event (Begin c i) s))
           | Writing => Some (set_worker c i AtDone (log_event (End c i) s))
           | AtDone => Some (set_worker c i Exited (wg_add (-1) s))
           | NotStarted | Exited => None
           end
       end.

(** The state a schedule leads to, when each of its moves is possible. *)
Fixpoint run (n : nat) (sched : list thread) (s : state) : option state :=
  match sched with
  | [] => Some s
  | t :: r => match step n t s with
              | Some s' => run n r s'
              | None => None
              end
  end.

Definition reachable (n : nat) (s : state) : Prop :=
  exists sched, run n sched init = Some s.

(** The state a schedule leads to from [init]; [init] itself when the
    schedule asks a thread for a move it cannot make. *)
Definition state_after (n : nat) (sched : list thread) : state :=
  match run n sched init with
  | Some s => s
  | None => init
  end.

(** The writes of a call are not interleaved with those of another: a call
    that occurs again further on is the very next one.  The list is read
    from its head. *)
Fixpoint serial (calls : list nat) : Prop :=
  match calls with
  | [] => True
  | c :: r => (In c r -> head r = Some c) /\ serial r
  end.

(** A caller between its [Lock] and its [Unlock]. *)
Definition in_cs (p : pc) : bool :=
  match p with
  | AtAdd | AtGo _ | AtWait | AtUnlock => true
  | AtLock | Returned => false
  end.

Definition live (p : wpc) : Z :=
  match p with
  | Exited => 0
  | _ => 1
  end.

(** Among the first [n] goroutines of a call, those that have not yet
    executed [wg.Done()]. *)
Fixpoint pending (f : nat -> wpc) (n : nat) : Z :=
  match n with
  | O => 0
  | S k => pending f k + live (f k)
  end.

Definition calls (s : state) : list nat := map call_of (events s).

(** What a caller at [p] knows of its goroutines [w] and of the counter [k]
    of the wait group. *)
Definition caller_ok (n : nat) (p : pc) (w : nat -> wpc) (k : Z) : Prop :=
  match p with
  | AtLock => forall i, w i = NotStarted
  | AtAdd => (forall i, w i = NotStarted) /\ k = 0
  | AtGo j =>
      (j <= n)%nat
      /\ (forall i, (j <= i)%nat -> w i = NotStarted)
      /\ (forall i, (i < j)%nat -> w i <> NotStarted)
      /\ k = pending w n
  | AtWait =>
      (forall i, (n <= i)%nat -> w i = NotStarted)
      /\ (forall i, (i < n)%nat -> w i <> NotStarted)
      /\ k = pending w n
  | AtUnlock =>
      (forall i, (n <= i)%nat -> w i = NotStarted)
      /\ (forall i, (i < n)%nat -> w i = Exited)
      /\ k = 0
  | Returned =>
      (forall i, (n <= i)%nat -> w i = NotStarted)
      /\ (forall i, (i < n)%nat -> w i = Exited)
  end.

(** What holds in every state a schedule can lead to. *)
Record inv (n : nat) (s : state) : Prop := {
  inv_alive : panicked s = false;
  inv_mutex : mutex s = true <-> exists c, in_cs (caller s c) = true;
  inv_unique : forall c c',
      in_cs (caller s c) = true -> in_cs (caller s c') = true -> c = c';
  inv_free : mutex s = false -> counter s = 0;
  inv_caller : forall c, caller_ok n (caller s c) (worker s c) (counter s);
  inv_begin : forall c i,
      In (Begin c i) (events s) ->
      worker s c i = Writing \/ worker s c i = AtDone \/ worker s c i = Exited;
  inv_end : forall c i,
      In (End c i) (events s) <-> worker s c i = AtDone \/ worker s c i = Exited;
  inv_serial : serial (calls s);
  inv_head : forall c,
      in_cs (caller s c) = true -> In c (calls s) -> head (calls s) = Some c
}.

(** The schedule on which the first caller locks, adds, starts its [n]
    goroutines, and each goroutine enters [b.Write]. *)
Definition all_writing (n : nat) : list thread :=
  repeat (Caller 0) (2 + n) ++ map (Worker 0) (seq 0 n).

(** Two callers and two backends: the second caller runs once the first
    has returned. *)
Definition two_calls : list thread :=
  [Caller 0; Caller 0; Caller 0; Caller 0; Worker 0 1; Worker 0 0; Worker 0 0;
   Worker 0 1; Worker 0 0; Worker 0 1; Caller 0; Caller 0; Caller 0;
   Caller 1; Caller 1; Caller 1; Caller 1; Worker 1 0; Worker 1 0].

End Fanout.

(** ** More vocabulary for the properties *)

(** Whether a string contains a slash. *)
Fixpoint has_slash (s : string) : bool :=
  match s with
  | EmptyString => false
  | String c r => Ascii.eqb c "/" || has_slash r
  end.

(** The last byte of a string. *)
Definition last_byte (s : string) : option ascii := get (String.length s - 1) s.

(** The files written to in a history, in the order of the calls. *)
Definition written_files (h : list event) : list osFile :=
  omap (fun e => match e with EvWrite f _ _ => Some f | _ => None end) h.

Section MoreVocabulary.
Context `{SL : SyslogImpl}.

(** A configuration that selects the standard error stream. *)
Definition on_console (c : FileConfig) : bool :=
  (Path c =? "")%string || (Path c =? "-")%string.

(** [b] is what [NewLogger] constructs for [config] on behalf of the logger
    at [l]: a file backend that points back to [l] and writes to the
    standard error stream or to a file opened under the configured path, or
    a system-log backend made by [newSyslogBackend]. *)
Definition built_from (l : nat) (config : any) (b : backend) : Prop :=
  match config, b with
  | FileConfigV c, FileB fb =>
      fb_logger fb = l
      /\ fb_writer fb = log_New (fb_output fb) "" (Z.lor LstdFlags Lmicroseconds)
      /\ (if on_console c then fb_output fb = Stderr
          else exists id, fb_output fb = Opened (Path c) id)
  | SyslogConfigV c, SyslogB sb => exists s, (newSyslogBackend c l s).1 = inl sb
  | _, _ => False
  end.

End MoreVocabulary.

(** ** The goroutines of one call of [write], move by move *)

Section WriteGoroutines.
Context `{EX : Externals} `{SL : SyslogImpl}.

(** Where the goroutine [b.Write(level, l.context, format, v...)] of one
    backend stands.  For a file backend: it has not begun; it has evaluated
    the arguments of [Printf], the label read from [fileLabels] among them;
    it has read the clock in [log.Output]; it has handed the line to its
    output.  The system-log backend is done in one move. *)
Inductive progress :=
| NotBegun
| Labelled (label : string)
| Stamped (label : string) (t : Time)
| Finished.

(** One move of the goroutine of the backend [b]; [None] when it has none
    left. *)
Definition write_move (level : Z) (ctx format : string) (v : list any)
    (b : backend) (p : progress) (st : State) : option (progress * State) :=
  match b, p with
  | FileB fb, NotBegun => Some (Labelled (index_string (fileLabels st) level), st)
  | FileB fb, Labelled label =>
      let t := time_Now (history st) in
      Some (Stamped label t, add_event (EvNow t) st)
  | FileB fb, Stamped label t =>
      let line := output_line (fb_writer fb) t
                    (line_text label ctx (fmt_Sprintf format v)) in
      Some (Finished,
            add_event (EvWrite (lg_out (fb_writer fb)) line
                         (file_Write (history st) (lg_out (fb_writer fb)) line)) st)
  | SyslogB sb, NotBegun =>
      Some (Finished, set_syslog (syslogBackend_Write sb level ctx format v (syslog st)) st)
  | _, _ => None
  end.

(** The goroutines of the backends [bs] under a schedule: each entry names
    the backend whose goroutine moves next.  [None] when the schedule asks
    for a move that cannot be made. *)
Fixpoint writes_run (level : Z) (ctx format : string) (v : list any)
    (bs : list backend) (sched : list nat) (ps : list progress) (st : State)
  : option (list progress * State) :=
  match sched with
  | [] => Some (ps, st)
  | i :: r =>
      match bs !! i, ps !! i with
      | Some b, Some p =>
          match write_move level ctx format v b p st with
          | Some (p', st') => writes_run level ctx format v bs r (<[i := p']> ps) st'
          | None => None
          end
      | _, _ => None
      end
  end.

(** The number of moves of the goroutine of a backend. *)
Definition moves_of (b : backend) : nat :=
  match b with
  | FileB _ => 3
  | SyslogB _ => 1
  end.

(** The schedule that runs the goroutines to their end one after the
    other, in the order of the list: the one [Logger_write] follows. *)
Fixpoint list_order_from (i : nat) (bs : list backend) : list nat :=
  match bs with
  | [] => []
  | b :: r => replicate (moves_of b) i ++ list_order_from (S i) r
  end.

(** The output a goroutine has written to. *)
Definition written_output (x : backend * progress) : option osFile :=
  match x.2 with
  | Finished => output_of x.1
  | _ => None
  end.

(** A clock read, or a write of a line that ends in a newline. *)
Definition line_event (e : event) : Prop :=
  match e with
  | EvNow _ => True
  | EvWrite _ line _ => ends_with_newline line = true
  | _ => False
  end.

End WriteGoroutines.

(** ** More of the concrete environment *)

(** The sample operating system with files that cannot be opened for writing. *)
Definition read_only_EX : Externals :=
  {| ansi_Color := sample_Color;
     fmt_Sprintf := sample_Sprintf;
     os_MkdirAll := fun _ _ _ => None;
     os_OpenFile := fun _ name _ _ =>
       Some {| os_msg := "open " +:+ name +:+ ": permission denied" |};
     file_Write := fun _ _ _ => None;
     file_Close := fun _ _ => None;
     time_Now := fun _ => sample_time |}.

(** The sample operating system with an [os.MkdirAll] that refuses the
    empty path, as the one of package [os] does. *)
Definition no_empty_dir_EX : Externals :=
  {| ansi_Color := sample_Color;
     fmt_Sprintf := sample_Sprintf;
     os_MkdirAll := fun _ dir _ =>
       if (dir =? "")%string then Some {| os_msg := "mkdir : no such file or directory" |}
       else None;
     os_OpenFile := fun _ _ _ _ => None;
     file_Write := fun _ _ _ => None;
     file_Close := fun _ _ => None;
     time_Now := fun _ => sample_time |}.

(** [two_backends] while a call of [write] holds the mutex of the logger. *)
Definition two_backends_locked {EX : Externals} : @State sample_SL :=
  set_loggers (<[0%nat := set_Mutex true two_backends_logger]> (loggers two_backends))
    two_backends.

(** ** More vocabulary for the goroutines of [write] *)

Module FanoutMore.
Import Fanout.

(** A goroutine that has entered [b.Write]. *)
Definition entered (p : wpc) : bool :=
  match p with
  | Writing | AtDone | Exited => true
  | NotStarted | Ready => false
  end.

(** [events] grows at its head: an [End] was recorded after its [Begin]
    when the [Begin] stands further on in the list. *)
Fixpoint begun_before_end (es : list event) : Prop :=
  match es with
  | [] => True
  | Begin _ _ :: r => begun_before_end r
  | End c i :: r => In (Begin c i) r /\ begun_before_end r
  end.

(** The events tell what the goroutines have done, each move once. *)
Record once (s : state) : Prop := {
  once_nodup : NoDup (events s);
  once_entered : forall c i, entered (worker s c i) = true -> In (Begin c i) (events s);
  once_order : begun_before_end (events s)
}.

(** The moves a goroutine at [p] has left. *)
Definition moves_left (p : wpc) : nat :=
  match p with
  | NotStarted | Ready => 3
  | Writing => 2
  | AtDone => 1
  | Exited => 0
  end.

(** The moves the first [n] goroutines of a call have left. *)
Fixpoint todo (f : nat -> wpc) (n : nat) : nat :=
  match n with
  | O => 0
  | S k => todo f k + moves_left (f k)
  end.

(** The moves of its own a caller at [p] has left. *)
Definition own_moves (n : nat) (p : pc) : nat :=
  match p with
  | AtLock => n + 5
  | AtAdd => n + 4
  | AtGo j => (n - j) + 3
  | AtWait => 2
  | AtUnlock => 1
  | Returned => 0
  end.

(** The moves a call and its goroutines have left before the call returns. *)
Definition distance (n : nat) (s : state) (c : nat) : nat :=
  own_moves n (caller s c) + todo (worker s c) n.

(** One caller on three backends, stopped while the goroutines are at work:
    the first has called [wg.Done()], the second is inside [b.Write], the
    third has not moved yet. *)
Definition half_way : list thread :=
  [Caller 0; Caller 0; Caller 0; Caller 0; Caller 0; Caller 0;
   Worker 0 0; Worker 0 1; Worker 0 0; Worker 0 0]%nat.

End FanoutMore.

(** * Earlier revisions of the package *)

(** The sources hold two earlier revisions of [logger.go]: one whose
    [Logger] owns a single output and a level, and one that logs through
    package-level variables.  Both disable the colours of [ansi] for a file:
    [ansi.Color] then answers as [ansi_Color_disabled]. *)
Class AnsiPlain := { ansi_Color_disabled : string -> string -> string }.

(** [ansi] without colours returns the text as it is. *)
Definition sample_AP : AnsiPlain := {| ansi_Color_disabled := fun s _ => s |}.

(** Indexing a [map[string]int]: zero for a missing key. *)
Definition index_int {K} `{Countable K} (m : gmap K Z) (k : K) : Z := default 0 (m !! k).

(** ** [unnamed/part_000]: a logger with one output and a level *)

Module Part000.
Section Part000.
Context `{EX : Externals} `{AP : AnsiPlain}.

(** [type Logger struct { logger *log.Logger; level int; context string; out *os.File }] *)
Record Logger := {
  logger : option log_Logger;
  level : Z;
  context : string;
  out : option osFile
}.

(** The program state: whether [ansi.DisableColors(true)] has been called,
    the package-level [levelLabels] (the nil map and the empty map read
    alike), the [Logger] structs by address, the calls made outside. *)
Record State := {
  colors_disabled : bool;
  levelLabels : gmap Z string;
  loggers : gmap nat Logger;
  history : list event
}.

Definition set_colors_disabled (b : bool) (st : State) : State :=
  {| colors_disabled := b; levelLabels := levelLabels st; loggers := loggers st;
     history := history st |}.
Definition set_levelLabels (m : gmap Z string) (st : State) : State :=
  {| colors_disabled := colors_disabled st; levelLabels := m; loggers := loggers st;
     history := history st |}.
Definition set_loggers (m : gmap nat Logger) (st : State) : State :=
  {| colors_disabled := colors_disabled st; levelLabels := levelLabels st; loggers := m;
     history := history st |}.
Definition add_event (e : event) (st : State) : State :=
  {| colors_disabled := colors_disabled st; levelLabels := levelLabels st;
     loggers := loggers st; history := history st ++ [e] |}.

Definition set_logger (w : option log_Logger) (l : Logger) : Logger :=
  {| logger := w; level := level l; context := context l; out := out l |}.
Definition set_level (k : Z) (l : Logger) : Logger :=
  {| logger := logger l; level := k; context := context l; out := out l |}.
Definition set_context (c : string) (l : Logger) : Logger :=
  {| logger := logger l; level := level l; context := c; out := out l |}.
Definition set_out (f : option osFile) (l : Logger) : Logger :=
  {| logger := logger l; level := level l; context := context l; out := f |}.

Definition M (A : Type) : Type := State -> outcome (A * State).

Definition ret {A} (a : A) : M A := fun st => Done (a, st).

Definition bind {A B} (m : M A) (k : A -> M B) : M B :=
  fun st =>
    match m st with
    | Done (a, st') => k a st'
    | Panic msg => Panic msg
    | Blocked => Blocked
    end.

Notation "'do' x <- m ; k" := (bind m (fun x => k))
  (at level 10, x name, m at level 100, k at level 200).
Notation "m ;; k" := (bind m (fun _ => k))
  (at level 100, k at level 200, right associativity).

Definition get_state : M State := fun st => Done (st, st).
Definition modify (f : State -> State) : M unit := fun st => Done (tt, f st).
Definition panic {A} (msg : string) : M A := fun _ => Panic msg.

Definition call_MkdirAll (dir : string) (perm : Z) : M (option oserror) :=
  fun st =>
    let r := os_MkdirAll (history st) dir perm in
    Done (r, add_event (EvMkdirAll dir perm r) st).

Definition call_OpenFile (name : string) (flag perm : Z) : M (osFile + oserror) :=
  fun st =>
    let r := os_OpenFile (history st) name flag perm in
    Done (match r with
          | None => inl (Opened name (List.length (history st)))
          | Some e => inr e
          end,
          add_event (EvOpenFile name flag perm r) st).

Definition osFile_Write (f : osFile) (data : string) : M (option oserror) :=
  fun st =>
    let r := file_Write (history st) f data in
    Done (r, add_event (EvWrite f data r) st).

Definition osFile_Close (f : osFile) : M (option oserror) :=
  fun st =>
    let r := file_Close (history st) f in
    Done (r, add_event (EvClose f r) st).

Definition call_Now : M Time :=
  fun st =>
    let t := time_Now (history st) in
    Done (t, add_event (EvNow t) st).

(** [ansi.DisableColors(true)] *)
Definition DisableColors (b : bool) : M unit := modify (set_colors_disabled b).

(** [ansi.Color(s, style)] *)
Definition Color (st : State) (s style : string) : string :=
  if colors_disabled st then ansi_Color_disabled s style else ansi_Color s style.

(** [w.Printf(format, ...)] on a [*log.Logger], [s] being the formatted
    text: the clock is read, the line handed to the writer and the error
    dropped; the nil pointer panics. *)
Definition log_Printf (w : option log_Logger) (s : string) : M unit :=
  match w with
  | None => panic "invalid memory address or nil pointer dereference"
  | Some w =>
      do now <- call_Now;
      osFile_Write (lg_out w) (output_line w now s) ;;
      ret tt
  end.

Definition deref (l : nat) : M Logger :=
  fun st =>
    match loggers st !! l with
    | Some lg => Done (lg, st)
    | None => Panic "invalid memory address or nil pointer dereference"
    end.

Definition store (l : nat) (lg : Logger) : M unit :=
  modify (fun st => set_loggers (<[l := lg]> (loggers st)) st).

(** [&Logger{...}]: a fresh address. *)
Definition new_Logger (lg : Logger) : M nat :=
  fun st =>
    let l := fresh (dom (loggers st)) in
    Done (l, set_loggers (<[l := lg]> (loggers st)) st).

(** The map literal assigned to [levelLabels]. *)
Definition make_labels (st : State) : gmap Z string :=
  <[levelError := Color st "ERROR" "red"]>
  (<[levelWarning := Color st "WARNING" "yellow"]>
  (<[levelNotice := Color st "NOTICE" "magenta"]>
  (<[levelInfo := Color st "INFO" "blue"]>
  (<[levelDebug := Color st "DEBUG" "cyan"]> ∅)))).

(** The branch of [NewLogger] that picks the output: the file opened under
    [logPath], the standard error stream, or an error of the [os] package,
    returned as it is. *)
Definition open_output (logPath : string) : M (osFile + error) :=
  if negb (logPath =? "")%string && negb (logPath =? "-")%string then
    DisableColors true ;;
    do err <- call_MkdirAll (path_Split logPath).1 493;
    match err with
    | Some e => ret (inr (OSError e))
    | None =>
        do r <- call_OpenFile logPath (Z.lor (Z.lor O_APPEND O_CREATE) O_WRONLY) 420;
        match r with
        | inr e => ret (inr (OSError e))
        | inl f => ret (inl f)
        end
    end
  else ret (inl Stderr).

(** [func NewLogger(logPath, level string)], with results [*Logger] and [error].  The
    two-valued map lookup assigns the zero level when the name is missing. *)
Definition NewLogger (logPath lvl : string) : M (option nat * option error) :=
  do l <- new_Logger {| logger := None; level := index_int levelMap defaultLevel;
                        context := ""; out := None |};
  do lg <- deref l;
  store l (set_level (index_int levelMap lvl) lg) ;;
  match levelMap !! lvl with
  | None => ret (None, Some ErrInvalidLevel)
  | Some _ =>
      do r <- open_output logPath;
      match r with
      | inr e => ret (None, Some e)
      | inl f =>
          do lg <- deref l;
          store l (set_out (Some f) lg) ;;
          do st <- get_state;
          modify (set_levelLabels (make_labels st)) ;;
          do lg <- deref l;
          store l (set_logger (Some (log_New f "" (Z.lor LstdFlags Lmicroseconds))) lg) ;;
          ret (Some l, None)
      end
  end.

(** [func (l *Logger) Logger() *log.Logger] *)
Definition Logger_Logger (l : nat) : M (option log_Logger) :=
  do lg <- deref l;
  ret (logger lg).

(** [func (l *Logger) Context(context string) *Logger]: a copy of the struct. *)
Definition Context (l : nat) (ctx : string) : M nat :=
  do lg <- deref l;
  new_Logger (set_context ctx lg).

(** [func (l *Logger) print(level int, format string, v ...interface{}) *Logger] *)
Definition print (l : nat) (lvl : Z) (format : string) (v : list any) : M nat :=
  do lg <- deref l;
  if level lg <? lvl then ret l
  else
    do st <- get_state;
    (if negb (context lg =? "")%string then
       log_Printf (logger lg)
         ((index_string (levelLabels st) lvl +:+ ": " +:+ context lg) +:+ ": " +:+
          fmt_Sprintf format v)
     else
       log_Printf (logger lg)
         (index_string (levelLabels st) lvl +:+ ": " +:+ fmt_Sprintf format v)) ;;
    ret l.

Definition Error (l : nat) (format : string) (v : list any) : M nat :=
  print l levelError format v.
Definition Warning (l : nat) (format : string) (v : list any) : M nat :=
  print l levelWarning format v.
Definition Notice (l : nat) (format : string) (v : list any) : M nat :=
  print l levelNotice format v.
Definition Info (l : nat) (format : string) (v : list any) : M nat :=
  print l levelInfo format v.
Definition Debug (l : nat) (format : string) (v : list any) : M nat :=
  print l levelDebug format v.

(** [func (l *Logger) Close() error] *)
Definition Close (l : nat) : M (option oserror) :=
  do lg <- deref l;
  match out lg with
  | Some f => osFile_Close f
  | None => ret None
  end.

(** The state of a program that has not yet called the package. *)
Definition initial_state : State :=
  {| colors_disabled := false; levelLabels := ∅; loggers := ∅; history := [] |}.

(** The text [print] hands to [Printf]. *)
Definition print_text (label ctx msg : string) : string :=
  if negb (ctx =? "")%string
  then (label +:+ ": " +:+ ctx) +:+ ": " +:+ msg
  else label +:+ ": " +:+ msg.

(** A logger as [NewLogger] and [Context] leave it: a writer on its output. *)
Definition ready (st : State) (l : nat) (k : Z) (ctx : string) (f : osFile) : Prop :=
  loggers st !! l
  = Some {| logger := Some (log_New f "" (Z.lor LstdFlags Lmicroseconds));
            level := k; context := ctx; out := Some f |}.

End Part000.
End Part000.

(** ** [unnamed/part_001]: logging through package-level variables *)

Module Part001.
Section Part001.
Context `{EX : Externals} `{AP : AnsiPlain}.

(** The package-level variables [logger], [logLevel], [levelLabels] and
    [levelSuffix], whether [ansi.DisableColors(true)] has been called, and
    the calls made outside. *)
Record State := {
  logger : option log_Logger;
  logLevel : Z;
  levelLabels : gmap Z string;
  levelSuffix : string;
  colors_disabled : bool;
  history : list event
}.

Definition set_logger (w : option log_Logger) (st : State) : State :=
  {| logger := w; logLevel := logLevel st; levelLabels := levelLabels st;
     levelSuffix := levelSuffix st; colors_disabled := colors_disabled st;
     history := history st |}.
Definition set_logLevel (k : Z) (st : State) : State :=
  {| logger := logger st; logLevel := k; levelLabels := levelLabels st;
     levelSuffix := levelSuffix st; colors_disabled := colors_disabled st;
     history := history st |}.
Definition set_levelLabels (m : gmap Z string) (st : State) : State :=
  {| logger := logger st; logLevel := logLevel st; levelLabels := m;
     levelSuffix := levelSuffix st; colors_disabled := colors_disabled st;
     history := history st |}.
Definition set_levelSuffix (s : string) (st : State) : State :=
  {| logger := logger st; logLevel := logLevel st; levelLabels := levelLabels st;
     levelSuffix := s; colors_disabled := colors_disabled st;
     history := history st |}.
Definition set_colors_disabled (b : bool) (st : State) : State :=
  {| logger := logger st; logLevel := logLevel st; levelLabels := levelLabels st;
     levelSuffix := levelSuffix st; colors_disabled := b;
     history := history st |}.
Definition add_event (e : event) (st : State) : State :=
  {| logger := logger st; logLevel := logLevel st; levelLabels := levelLabels st;
     levelSuffix := levelSuffix st; colors_disabled := colors_disabled st;
     history := history st ++ [e] |}.

Definition M (A : Type) : Type := State -> outcome (A * State).

Definition ret {A} (a : A) : M A := fun st => Done (a, st).

Definition bind {A B} (m : M A) (k : A -> M B) : M B :=
  fun st =>
    match m st with
    | Done (a, st') => k a st'
    | Panic msg => Panic msg
    | Blocked => Blocked
    end.

Notation "'do' x <- m ; k" := (bind m (fun x => k))
  (at level 10, x name, m at level 100, k at level 200).
Notation "m ;; k" := (bind m (fun _ => k))
  (at level 100, k at level 200, right associativity).

Definition get_state : M State := fun st => Done (st, st).
Definition modify (f : State -> State) : M unit := fun st => Done (tt, f st).
Definition panic {A} (msg : string) : M A := fun _ => Panic msg.

Definition call_MkdirAll (dir : string) (perm : Z) : M (option oserror) :=
  fun st =>
    let r := os_MkdirAll (history st) dir perm in
    Done (r, add_event (EvMkdirAll dir perm r) st).

Definition call_OpenFile (name : string) (flag perm : Z) : M (osFile + oserror) :=
  fun st =>
    let r := os_OpenFile (history st) name flag perm in
    Done (match r with
          | None => inl (Opened name (List.length (history st)))
          | Some e => inr e
          end,
          add_event (EvOpenFile name flag perm r) st).

Definition osFile_Write (f : osFile) (data : string) : M (option oserror) :=
  fun st =>
    let r := file_Write (history st) f data in
    Done (r, add_event (EvWrite f data r) st).

Definition osFile_Close (f : osFile) : M (option oserror) :=
  fun st =>
    let r := file_Close (history st) f in
    Done (r, add_event (EvClose f r) st).

Definition call_Now : M Time :=
  fun st =>
    let t := time_Now (history st) in
    Done (t, add_event (EvNow t) st).

(** [ansi.Color(s, style)] *)
Definition Color (st : State) (s style : string) : string :=
  if colors_disabled st then ansi_Color_disabled s style else ansi_Color s style.

(** [w.Printf(format, ...)] on a [*log.Logger], [s] being the formatted
    text; the nil pointer panics. *)
Definition log_Printf (w : option log_Logger) (s : string) : M unit :=
  match w with
  | None => panic "invalid memory address or nil pointer dereference"
  | Some w =>
      do now <- call_Now;
      osFile_Write (lg_out w) (output_line w now s) ;;
      ret tt
  end.

(** The map literal assigned to [levelLabels]. *)
Definition make_labels (st : State) : gmap Z string :=
  <[levelError := Color st "ERROR" "red"]>
  (<[levelWarning := Color st "WARNING" "yellow"]>
  (<[levelNotice := Color st "NOTICE" "magenta"]>
  (<[levelInfo := Color st "INFO" "blue"]>
  (<[levelDebug := Color st "DEBUG" "cyan"]> ∅)))).

(** [logger = log.New(logOut, ...)] and the assignment of [levelLabels]. *)
Definition install (logOut : osFile) : M unit :=
  modify (set_logger (Some (log_New logOut "" (Z.lor LstdFlags Lmicroseconds)))) ;;
  do st <- get_state;
  modify (set_levelLabels (make_labels st)).

(** [func Init(logPath, level string) error].  The two-valued map lookup
    assigns the zero level to [logLevel] when the name is missing; the
    deferred [logOut.Close()] runs when the function returns. *)
Definition Init (logPath lvl : string) : M (option error) :=
  let lvl := if (lvl =? "")%string then defaultLevel else lvl in
  modify (set_logLevel (index_int levelMap lvl)) ;;
  match levelMap !! lvl with
  | None => ret (Some ErrInvalidLevel)
  | Some _ =>
      if negb (logPath =? "")%string && negb (logPath =? "-")%string then
        modify (set_colors_disabled true) ;;
        modify (set_levelSuffix ":") ;;
        do err <- call_MkdirAll (path_Split logPath).1 493;
        match err with
        | Some e => ret (Some (OSError e))
        | None =>
            do r <- call_OpenFile logPath (Z.lor (Z.lor O_APPEND O_CREATE) O_WRONLY) 420;
            match r with
            | inr e => ret (Some (Errorf ("unable to open log file: " +:+ os_msg e)))
            | inl logOut =>
                install logOut ;;
                osFile_Close logOut ;;
                ret None
            end
        end
      else
        install Stderr ;;
        ret None
  end.

(** [func printLog(level int, context, format string, v ...interface{})] *)
Definition printLog (lvl : Z) (context format : string) (v : list any) : M unit :=
  do st <- get_state;
  if logLevel st <? lvl then ret tt
  else
    log_Printf (logger st)
      (index_string (levelLabels st) lvl +:+ levelSuffix st +:+ " " +:+ context +:+ ": " +:+
       fmt_Sprintf format v).

Definition Error (context format : string) (v : list any) : M unit :=
  printLog levelError context format v.
Definition Warning (context format : string) (v : list any) : M unit :=
  printLog levelWarning context format v.
Definition Notice (context format : string) (v : list any) : M unit :=
  printLog levelNotice context format v.
Definition Info (context format : string) (v : list any) : M unit :=
  printLog levelInfo context format v.
Definition Debug (context format : string) (v : list any) : M unit :=
  printLog levelDebug context format v.

(** The state of a program that has not yet called the package. *)
Definition initial_state : State :=
  {| logger := None; logLevel := 0; levelLabels := ∅; levelSuffix := "";
     colors_disabled := false; history := [] |}.

End Part001.
End Part001.

(** ** The earlier revisions in the sample environment *)

(** The state after [NewLogger("-", "warning")] of [unnamed/part_000]; the
    logger it returns is at address 0. *)
Definition warning_console : Part000.State :=
  match Part000.NewLogger (EX := sample_EX) (AP := sample_AP) "-" "warning"
          Part000.initial_state with
  | Done (_, st) => st
  | _ => Part000.initial_state
  end.

(** The state after [NewLogger("/var/log/app.log", "info")]. *)
Definition info_file : Part000.State :=
  match Part000.NewLogger (EX := sample_EX) (AP := sample_AP) "/var/log/app.log" "info"
          Part000.initial_state with
  | Done (_, st) => st
  | _ => Part000.initial_state
  end.

(** A zero [Logger] at address 0. *)
Definition zero_Logger_at_0 : Part000.State :=
  Part000.set_loggers
    {[ 0%nat := {| Part000.logger := None; Part000.level := 0;
                   Part000.context := ""; Part000.out := None |} ]}
    Part000.initial_state.

(** The state after [Init("-", "warning")] of [unnamed/part_001]. *)
Definition warning_Init : Part001.State :=
  match Part001.Init (EX := sample_EX) (AP := sample_AP) "-" "warning"
          Part001.initial_state with
  | Done (_, st) => st
  | _ => Part001.initial_state
  end.

(** * Properties *)

(** ** The definitions at work *)

Example ToUpper_warning : ToUpper "warning" = "WARNING".
Proof. reflexivity. Qed.

Example path_Split_nested : path_Split "/var/log/app/out.log" = ("/var/log/app/", "out.log").
Proof. reflexivity. Qed.

Example path_Split_bare : path_Split "out.log" = ("", "out.log").
Proof. reflexivity. Qed.

Example levelMap_debug : levelMap !! "debug" = Some 5.
Proof. vm_compute. reflexivity. Qed.

Example formatHeader_sample :
  formatHeader (log_New Stderr "" (Z.lor LstdFlags Lmicroseconds)) sample_time
  = "2016/03/07 09:05:42.001234 ".
Proof. reflexivity. Qed.

Example itoa_pads : itoa 1234 6 = "001234" /\ itoa 7 2 = "07" /\ itoa 2016 4 = "2016".
Proof. repeat split. Qed.

Example output_line_adds_newline :
  output_line (log_New Stderr "" (Z.lor LstdFlags Lmicroseconds)) sample_time "INFO: up"
  = "2016/03/07 09:05:42.001234 INFO: up" +:+ newline
  /\ output_line (log_New Stderr "" (Z.lor LstdFlags Lmicroseconds)) sample_time
       ("INFO: up" +:+ newline)
     = "2016/03/07 09:05:42.001234 INFO: up" +:+ newline.
Proof. split; reflexivity. Qed.

(** The entries of [levelMap], in the order [map_to_list] lists them. *)
Lemma levelMap_entries :
  map_to_list levelMap
  = [("warning", 2); ("error", 1); ("info", 4); ("notice", 3); ("debug", 5)].
Proof. vm_compute. reflexivity. Qed.

(** ** Strings *)

Lemma take_drop_string n s : take_string n s +:+ drop_string n s = s.
Proof.
  revert n. induction s as [|c r IH]; intros [|n]; simpl; try reflexivity.
  change (String c (take_string n r +:+ drop_string n r) = String c r).
  f_equal. apply IH.
Qed.

Lemma string_app_assoc (s1 s2 s3 : string) : (s1 +:+ s2) +:+ s3 = s1 +:+ (s2 +:+ s3).
Proof.
  induction s1 as [|c r IH]; [reflexivity|].
  change (String c ((r +:+ s2) +:+ s3) = String c (r +:+ (s2 +:+ s3))).
  now rewrite IH.
Qed.

Lemma string_app_nil_l (s : string) : "" +:+ s = s.
Proof. reflexivity. Qed.

(** [path.Split] cuts the path in two. *)
Lemma path_Split_app p : (path_Split p).1 +:+ (path_Split p).2 = p.
Proof. apply take_drop_string. Qed.

Section PackageFacts.
Context `{EX : Externals} `{SL : SyslogImpl}.

(** ** Computations *)

Lemma bind_Done {A B} (m : M A) (k : A -> M B) st b st' :
  bind m k st = Done (b, st') ->
  exists a st1, m st = Done (a, st1) /\ k a st1 = Done (b, st').
Proof.
  unfold bind. destruct (m st) as [[a st1]| |]; try discriminate.
  intros H. exists a, st1. split; [reflexivity | exact H].
Qed.

Lemma bind_eq {A B} (m : M A) (k : A -> M B) st a st1 :
  m st = Done (a, st1) -> bind m k st = k a st1.
Proof. unfold bind. now intros ->. Qed.

(** ** The label table *)

Lemma init_labels_acc useColors entries (m : gmap Z string) level :
  level ∉ entries.*2 ->
  foldl (fun m e => <[e.2 := file_label useColors e.1 e.2]> m) m entries !! level = m !! level.
Proof.
  revert m. induction entries as [|e r IH]; intros m Hn; simpl; [reflexivity|].
  rewrite fmap_cons, not_elem_of_cons in Hn. destruct Hn as [Hne Hn].
  rewrite IH by exact Hn. now apply lookup_insert_ne.
Qed.

(** Whatever the order in which [range levelMap] visits the entries, a level
    ends up with the label of its own name. *)
Lemma init_labels_lookup useColors entries name level :
  NoDup entries.*2 ->
  (name, level) ∈ entries ->
  init_labels useColors entries !! level = Some (file_label useColors name level).
Proof.
  unfold init_labels. generalize (∅ : gmap Z string) as m.
  induction entries as [|e r IH]; intros m Hnd Hin; [by apply elem_of_nil in Hin|].
  rewrite fmap_cons in Hnd. apply NoDup_cons in Hnd as [Hfresh Hnd].
  apply elem_of_cons in Hin as [<-|Hin]; simpl.
  - rewrite init_labels_acc by exact Hfresh. apply lookup_insert_eq.
  - now apply IH.
Qed.

Lemma init_labels_missing useColors entries level :
  level ∉ entries.*2 -> init_labels useColors entries !! level = None.
Proof. intros Hn. unfold init_labels. rewrite init_labels_acc by exact Hn. apply lookup_empty. Qed.

Lemma init_labels_order useColors (es es' : list (string * Z)) :
  es ≡ₚ es' -> NoDup es.*2 -> init_labels useColors es = init_labels useColors es'.
Proof.
  intros Hp Hnd. apply map_eq. intros level.
  assert (Hnd' : NoDup es'.*2) by (by rewrite <- Hp).
  destruct (decide (level ∈ es.*2)) as [Hin|Hout].
  - apply list_elem_of_fmap in Hin as [[name lv] [-> Hin]]. simpl.
    rewrite (init_labels_lookup _ es name lv) by assumption.
    symmetry. apply init_labels_lookup; [assumption|]. now rewrite <- Hp.
  - rewrite init_labels_missing by exact Hout.
    symmetry. apply init_labels_missing. now rewrite <- Hp.
Qed.

Lemma levelMap_keys_NoDup : NoDup (map_to_list levelMap).*2.
Proof. rewrite levelMap_entries. apply (bool_decide_unpack _). vm_compute. reflexivity. Qed.

(** The table a successful [newFileBackend] leaves in [fileLabels]. *)
Lemma fileLabels_of_levelMap useColors name level :
  levelMap !! name = Some level ->
  init_labels useColors (map_to_list levelMap) !! level = Some (file_label useColors name level).
Proof.
  intros H. apply init_labels_lookup; [apply levelMap_keys_NoDup|].
  now apply elem_of_map_to_list.
Qed.


(** ** [newFileBackend] *)

Lemma finish_fileBackend_eq logger output useColors st :
  finish_fileBackend logger output useColors st
  = Done ((Some (FileB (fileBackend_of logger output)), None),
          set_fileLabels (init_labels useColors (map_to_list levelMap)) st).
Proof. reflexivity. Qed.

Lemma console_path_test (p : string) :
  negb (p =? "")%string && negb (p =? "-")%string = false <-> p = "" \/ p = "-".
Proof.
  destruct (String.eqb_spec p "") as [->|H1]; simpl; [tauto|].
  destruct (String.eqb_spec p "-") as [->|H2]; simpl; [tauto|].
  split; [discriminate | tauto].
Qed.

Lemma newFileBackend_console config logger st :
  Path config = "" \/ Path config = "-" ->
  newFileBackend config logger st
  = Done ((Some (FileB (fileBackend_of logger Stderr)), None),
          set_fileLabels (init_labels true (map_to_list levelMap)) st).
Proof.
  intros H. apply console_path_test in H. unfold newFileBackend. rewrite H.
  apply finish_fileBackend_eq.
Qed.

Lemma newFileBackend_file config logger st :
  Path config <> "" -> Path config <> "-" ->
  newFileBackend config logger st
  = let dir := (path_Split (Path config)).1 in
    let flag := Z.lor (Z.lor O_APPEND O_CREATE) O_WRONLY in
    let r1 := os_MkdirAll (history st) dir 493 in
    let st1 := add_event (EvMkdirAll dir 493 r1) st in
    match r1 with
    | Some e => Done ((None, Some (OSError e)), st1)
    | None =>
        let r2 := os_OpenFile (history st1) (Path config) flag 420 in
        let st2 := add_event (EvOpenFile (Path config) flag 420 r2) st1 in
        match r2 with
        | Some e => Done ((None, Some (Errorf ("failed to open logging file: " +:+ os_msg e))), st2)
        | None =>
            Done ((Some (FileB (fileBackend_of logger
                                  (Opened (Path config) (List.length (history st1))))), None),
                  set_fileLabels (init_labels false (map_to_list levelMap)) st2)
        end
    end.
Proof.
  intros H1 H2. unfold newFileBackend.
  destruct (negb (Path config =? "")%string && negb (Path config =? "-")%string) eqn:E.
  2:{ apply console_path_test in E. tauto. }
  cbv zeta. unfold bind, call_MkdirAll.
  destruct (os_MkdirAll (history st) (path_Split (Path config)).1 493) as [e|]; [reflexivity|].
  unfold call_OpenFile.
  destruct (os_OpenFile _ (Path config) _ 420) as [e|]; reflexivity.
Qed.

(** What one call of [newFileBackend] sets up, taken on its own: a
    configuration whose path is empty or "-" yields a backend on the
    standard error stream, without any call to the operating system, and
    leaves colour-coded labels (the upper-cased level name passed through
    [ansi.Color] with the colour of the level) in the label table.  For any
    other path the backend first asks for the parent directory of the path
    to be created ([os.MkdirAll], mode 0755), then opens the path with
    [O_APPEND|O_CREATE|O_WRONLY] (mode 0644), writes to the file so opened,
    and leaves the upper-cased level names with a colon suffix as labels. *)
Theorem newFileBackend_target (config : FileConfig) (logger : nat) (st : State) :
  (Path config = "" \/ Path config = "-" ->
   exists b st',
     newFileBackend config logger st = Done ((Some (FileB b), None), st')
     /\ fb_output b = Stderr /\ lg_out (fb_writer b) = Stderr
     /\ history st' = history st
     /\ forall name level, levelMap !! name = Some level ->
          fileLabels st' !! level
          = Some (ansi_Color (ToUpper name) (index_string fileColors level)))
  /\
  (Path config <> "" -> Path config <> "-" ->
   let dir := (path_Split (Path config)).1 in
   let flag := Z.lor (Z.lor O_APPEND O_CREATE) O_WRONLY in
   os_MkdirAll (history st) dir 493 = None ->
   os_OpenFile (history st ++ [EvMkdirAll dir 493 None]) (Path config) flag 420 = None ->
   exists b st' id,
     newFileBackend config logger st = Done ((Some (FileB b), None), st')
     /\ fb_output b = Opened (Path config) id /\ lg_out (fb_writer b) = Opened (Path config) id
     /\ history st'
        = (history st ++ [EvMkdirAll dir 493 None; EvOpenFile (Path config) flag 420 None])%list
     /\ Z.land flag O_APPEND = O_APPEND /\ Z.land flag O_CREATE = O_CREATE
     /\ Z.land flag O_WRONLY = O_WRONLY
     /\ forall name level, levelMap !! name = Some level ->
          fileLabels st' !! level = Some (ToUpper name +:+ ":")).
Proof.
  split.
  - intros H. eexists _, _. split; [apply (newFileBackend_console _ _ _ H)|].
    repeat split. intros name level Hl. simpl.
    apply (fileLabels_of_levelMap true name level Hl).
  - intros H1 H2 dir flag Hm Ho.
    pose proof (newFileBackend_file config logger st H1 H2) as E.
    cbv zeta in E. fold dir flag in E. rewrite Hm in E. simpl in E.
    rewrite Ho in E. eexists _, _, _. split; [exact E|].
    repeat split.
    + simpl. now rewrite <- app_assoc.
    + intros name level Hl. simpl.
      apply (fileLabels_of_levelMap false name level Hl).
Qed.


(** ** Writing through a backend *)

Lemma fileBackend_Write_eq fb level ctx format v st :
  fileBackend_Write fb level ctx format v st
  = Done (tt, written_by level ctx format v st (FileB fb)).
Proof.
  unfold fileBackend_Write, written_by, line_text, bind, get_state.
  destruct (negb (ctx =? "")%string); reflexivity.
Qed.

Lemma backend_Write_eq b level ctx format v st :
  backend_Write (Some b) level ctx format v st
  = Done (tt, written_by level ctx format v st b).
Proof. destruct b as [fb|sb]; [apply fileBackend_Write_eq | reflexivity]. Qed.

Lemma backend_Close_eq b st : backend_Close (Some b) st = Done (tt, closed_by st b).
Proof. destruct b; reflexivity. Qed.

(** Writing and closing leave the label table and the memory alone. *)
Lemma written_by_frame level ctx format v st b :
  let st' := written_by level ctx format v st b in
  fileLabels st' = fileLabels st /\ loggers st' = loggers st /\ arrays st' = arrays st.
Proof. destruct b; repeat split. Qed.

Lemma closed_by_frame st b :
  let st' := closed_by st b in
  fileLabels st' = fileLabels st /\ loggers st' = loggers st /\ arrays st' = arrays st.
Proof. destruct b; repeat split. Qed.

Lemma foldl_written_frame level ctx format v bs st :
  let st' := foldl (written_by level ctx format v) st bs in
  fileLabels st' = fileLabels st /\ loggers st' = loggers st /\ arrays st' = arrays st.
Proof.
  revert st. induction bs as [|b r IH]; intros st; simpl; [repeat split|].
  destruct (IH (written_by level ctx format v st b)) as (H1 & H2 & H3).
  destruct (written_by_frame level ctx format v st b) as (G1 & G2 & G3).
  cbv zeta in *. repeat split; congruence.
Qed.

Lemma foldl_closed_frame bs st :
  let st' := foldl closed_by st bs in
  fileLabels st' = fileLabels st /\ loggers st' = loggers st /\ arrays st' = arrays st.
Proof.
  revert st. induction bs as [|b r IH]; intros st; simpl; [repeat split|].
  destruct (IH (closed_by st b)) as (H1 & H2 & H3).
  destruct (closed_by_frame st b) as (G1 & G2 & G3).
  cbv zeta in *. repeat split; congruence.
Qed.

Lemma written_by_set_loggers level ctx format v m st b :
  written_by level ctx format v (set_loggers m st) b
  = set_loggers m (written_by level ctx format v st b).
Proof. destruct b; reflexivity. Qed.

Lemma foldl_written_set_loggers level ctx format v m bs st :
  foldl (written_by level ctx format v) (set_loggers m st) bs
  = set_loggers m (foldl (written_by level ctx format v) st bs).
Proof.
  revert st. induction bs as [|b r IH]; intros st; simpl; [reflexivity|].
  now rewrite written_by_set_loggers, IH.
Qed.

Lemma set_loggers_id st : set_loggers (loggers st) st = st.
Proof. now destruct st. Qed.

Lemma set_loggers_twice m m' st : set_loggers m (set_loggers m' st) = set_loggers m st.
Proof. reflexivity. Qed.

Lemma holds_elems st s bs : holds st s bs -> slice_elems s st = Some <$> bs.
Proof. intros (xs & Hx & Ht & _). unfold slice_elems. now rewrite Hx. Qed.

(** ** [Logger.write] on one thread of control *)

(** The loop of [write]: every backend is written to, in list order, and
    the wait group counts down to where it started. *)
Lemma write_loop l lg level format v bs st k :
  0 <= k ->
  for_each (Some <$> bs)
    (fun b => bind (deref l) (fun lg' =>
       bind (backend_Write b level (context lg') format v) (fun _ => wg_Done l)))
    (set_loggers (<[l := set_wg (k + Z.of_nat (List.length bs)) lg]> (loggers st)) st)
  = Done (tt, set_loggers (<[l := set_wg k lg]> (loggers st))
                (foldl (written_by level (context lg) format v) st bs)).
Proof.
  intros Hk. revert st. induction bs as [|b r IH]; intros st.
  - simpl. now rewrite Z.add_0_r.
  - cbn [fmap list_fmap for_each List.length foldl].
    unfold bind at 1. unfold bind at 1. unfold deref at 1. simpl loggers.
    rewrite lookup_insert_eq. simpl context.
    unfold bind at 1. rewrite backend_Write_eq.
    unfold wg_Done, wg_Add, bind at 1, deref at 1.
    rewrite written_by_set_loggers. simpl loggers at 1. rewrite lookup_insert_eq.
    cbn [wg set_wg].
    replace (k + Z.of_nat (S (List.length r)) + -1) with (k + Z.of_nat (List.length r)) by lia.
    destruct (Z.ltb_spec (k + Z.of_nat (List.length r)) 0) as [Hlt|_]; [lia|].
    unfold store, modify. simpl loggers. rewrite insert_insert_eq.
    destruct (written_by_frame level (context lg) format v st b) as (_ & HL & _).
    cbv zeta in HL. rewrite <- HL at 1.
    specialize (IH (written_by level (context lg) format v st b)).
    rewrite <- HL. exact IH.
Qed.


Lemma set_flags_back lg :
  Mutex lg = false -> wg lg = 0 -> set_Mutex false (set_wg 0 (set_Mutex true lg)) = lg.
Proof. destruct lg; simpl; intros -> ->; reflexivity. Qed.

(** A call of [write] on an idle logger returns; it has made every backend
    of the logger write, in list order, and has left the logger as it was. *)
Lemma Logger_write_idle l ctx bs level format v st :
  idle st l ctx bs ->
  Logger_write l level format v st
  = Done (tt, foldl (written_by level ctx format v) st bs).
Proof.
  intros (lg & Hl & Hc & Hm & Hw & Hh).
  pose proof (holds_elems _ _ _ Hh) as He.
  destruct Hh as (xs & Hx & Ht & Hlen & _).
  unfold Logger_write.
  unfold bind at 1. unfold Lock, bind at 1, deref at 1. rewrite Hl, Hm.
  unfold store, modify.
  unfold bind at 1. unfold deref at 1. simpl loggers. rewrite lookup_insert_eq.
  unfold bind at 1. unfold wg_Add, bind at 1, deref at 1. simpl loggers.
  rewrite lookup_insert_eq. cbn [wg set_Mutex backends]. rewrite Hw, Hlen.
  destruct (Z.ltb_spec (0 + Z.of_nat (List.length bs)) 0) as [Hlt|_]; [lia|].
  unfold store, modify. simpl loggers. rewrite insert_insert_eq.
  unfold bind at 1. unfold get_state.
  change (slice_elems (backends lg) _) with (slice_elems (backends lg) st). rewrite He.
  rewrite set_loggers_twice.
  pose proof (write_loop l (set_Mutex true lg) level format v bs st 0 (Z.le_refl 0)) as HL.
  cbn [context set_Mutex] in HL. rewrite Hc in HL.
  unfold bind at 1. rewrite HL. clear HL.
  unfold bind at 1. unfold wg_Wait, bind at 1, deref at 1. simpl loggers.
  rewrite lookup_insert_eq. cbn [wg set_wg]. simpl.
  unfold Unlock, bind, deref. simpl loggers. rewrite lookup_insert_eq. cbn [Mutex set_wg].
  cbn [Mutex set_Mutex]. unfold store, modify. f_equal. f_equal.
  rewrite set_loggers_twice. simpl loggers. rewrite insert_insert_eq.
  rewrite (set_flags_back lg Hm Hw). rewrite insert_id by exact Hl.
  destruct (foldl_written_frame level ctx format v bs st) as (_ & HLg & _). cbv zeta in HLg.
  rewrite <- HLg. apply set_loggers_id.
Qed.


(** ** [Logger.Close] *)

Lemma close_loop bs st :
  for_each (Some <$> bs) backend_Close st = Done (tt, foldl closed_by st bs).
Proof.
  revert st. induction bs as [|b r IH]; intros st; [reflexivity|].
  cbn [fmap list_fmap for_each foldl]. unfold bind. rewrite backend_Close_eq. apply IH.
Qed.

Lemma closed_files_app h1 h2 : closed_files (h1 ++ h2) = closed_files h1 ++ closed_files h2.
Proof. apply omap_app. Qed.

Lemma closed_by_files st b :
  closed_files (history (closed_by st b))
  = closed_files (history st) ++ option_list (output_of b).
Proof.
  destruct b as [fb|sb]; simpl.
  - now rewrite closed_files_app.
  - now rewrite app_nil_r.
Qed.

Lemma foldl_closed_files bs st :
  closed_files (history (foldl closed_by st bs))
  = closed_files (history st) ++ omap output_of bs.
Proof.
  revert st. induction bs as [|b r IH]; intros st; simpl.
  - now rewrite app_nil_r.
  - rewrite IH, closed_by_files, <- app_assoc. f_equal.
    destruct (output_of b); reflexivity.
Qed.

(** C9: [Close] on a logger closes every backend of its list, one after
    the other in list order, and returns: it does not panic and does not
    block, whatever the output of a file backend is, the standard error
    stream included, and whatever the operating system answers.  The files
    closed are the outputs of the file backends of the list, in list order. *)
Theorem Logger_Close_in_order (l : nat) (lg : Logger) (bs : list backend) (st : State) :
  loggers st !! l = Some lg ->
  holds st (backends lg) bs ->
  Logger_Close l st = Done (tt, foldl closed_by st bs)
  /\ closed_files (history (foldl closed_by st bs))
     = closed_files (history st) ++ omap output_of bs.
Proof.
  intros Hl Hh. split; [|apply foldl_closed_files].
  unfold Logger_Close, bind, deref, get_state. rewrite Hl.
  rewrite (holds_elems _ _ _ Hh). apply close_loop.
Qed.

(** ** [Logger.Context] *)

Lemma fresh_logger_None st : loggers st !! fresh (dom (loggers st)) = None.
Proof. apply not_elem_of_dom. apply is_fresh. Qed.

Lemma holds_frame st st' s bs : arrays st' = arrays st -> holds st s bs -> holds st' s bs.
Proof. intros E (xs & H). exists xs. now rewrite E. Qed.

Lemma idle_frame st st' l ctx bs :
  loggers st' !! l = loggers st !! l -> arrays st' = arrays st ->
  idle st l ctx bs -> idle st' l ctx bs.
Proof.
  intros EL EA (lg & Hl & Hc & Hm & Hw & Hh). exists lg. rewrite EL.
  repeat split; try assumption. now apply (holds_frame st).
Qed.

(** The logger returned by [Context] is ready for use, on the backends of
    the logger it was derived from. *)
Lemma Logger_Context_idle l c ctx bs st :
  idle st l c bs ->
  exists l' st', Logger_Context l ctx st = Done (l', st')
                 /\ idle st' l' ctx bs /\ idle st' l c bs.
Proof.
  intros Hi. pose proof Hi as (lg & Hl & Hc & Hm & Hw & Hh).
  pose proof (fresh_logger_None st) as Hf.
  assert (Hne : l <> fresh (dom (loggers st))) by (intros E; rewrite <- E, Hl in Hf; discriminate).
  eexists _, _. split.
  { unfold Logger_Context, bind, deref. rewrite Hl. reflexivity. }
  split.
  - eexists. split; [apply lookup_insert_eq|]. repeat split. exact Hh.
  - apply (idle_frame st); [|reflexivity|exact Hi].
    simpl. now apply lookup_insert_ne.
Qed.

(** C4: [Context] returns the address of a new [Logger] whose slice of
    backends is the slice header of [l] (same backing array, length and
    capacity: no array is allocated or copied) and whose context is the
    string given; the [Logger] at [l] and every other one are as before. *)
Theorem Logger_Context_shares (l : nat) (lg : Logger) (ctx : string) (st : State) :
  loggers st !! l = Some lg ->
  exists l' lg' st',
    Logger_Context l ctx st = Done (l', st')
    /\ l' <> l /\ loggers st !! l' = None
    /\ loggers st' !! l' = Some lg'
    /\ backends lg' = backends lg /\ context lg' = ctx
    /\ loggers st' !! l = Some lg
    /\ (forall k, k <> l' -> loggers st' !! k = loggers st !! k)
    /\ arrays st' = arrays st
    /\ fileLabels st' = fileLabels st /\ history st' = history st /\ syslog st' = syslog st.
Proof.
  intros Hl. pose proof (fresh_logger_None st) as Hf.
  assert (Hne : fresh (dom (loggers st)) <> l) by (intros E; rewrite E, Hl in Hf; discriminate).
  set (lg' := {| backends := backends lg; context := ctx; wg := 0; Mutex := false |}).
  exists (fresh (dom (loggers st))), lg',
    (set_loggers (<[fresh (dom (loggers st)) := lg']> (loggers st)) st).
  split.
  { unfold Logger_Context, bind, deref. rewrite Hl. reflexivity. }
  simpl. repeat split; try assumption.
  - apply lookup_insert_eq.
  - rewrite lookup_insert_ne by exact Hne. exact Hl.
  - intros k Hk. now rewrite lookup_insert_ne.
Qed.


(** ** [append] *)

Lemma growcap_gt c : (c < growcap c)%nat.
Proof. unfold growcap. destruct (Nat.eqb_spec c 0); lia. Qed.

(** Appending to a slice that holds [bs] gives a slice that holds [bs] and
    the new backend; only the store of arrays changes. *)
Lemma append_holds st s bs b :
  holds st s bs ->
  exists s' st',
    append s (Some b) st = Done (s', st')
    /\ holds st' s' (bs ++ [b])
    /\ loggers st' = loggers st /\ fileLabels st' = fileLabels st
    /\ history st' = history st /\ syslog st' = syslog st.
Proof.
  intros (xs & Hx & Ht & Hlen & Hcap). unfold append.
  destruct (Nat.ltb_spec (s_len s) (s_cap s)) as [Hroom|Hfull].
  - eexists _, _. split; [reflexivity|]. split; [|repeat split].
    exists (<[s_len s := Some b]> xs). cbn [s_arr s_len s_cap arrays set_arrays].
    split; [now rewrite lookup_alter_eq, Hx|]. split; [|split].
    + rewrite (take_S_r _ _ (Some b)).
      * rewrite take_insert_ge by lia. rewrite Ht. now rewrite fmap_app.
      * apply list_lookup_insert_eq. lia.
    + rewrite length_app. simpl. lia.
    + now rewrite length_insert.
  - assert (Hl' : s_len s = s_cap s).
    { apply (f_equal (@List.length _)) in Ht. rewrite length_take, length_fmap in Ht. lia. }
    eexists _, _. split; [reflexivity|]. split; [|repeat split].
    eexists. cbn [s_arr s_len s_cap arrays set_arrays].
    split; [apply lookup_insert_eq|]. split; [|split].
    + unfold slice_elems. rewrite Hx. unfold default, id. cbn [from_option]. rewrite Ht.
      change (Some b :: replicate _ None) with ([Some b] ++ replicate (growcap (s_cap s) - S (s_len s)) (@None backend)).
      rewrite app_assoc. rewrite take_app_length'.
      * now rewrite fmap_app.
      * rewrite length_app, length_fmap. simpl. lia.
    + rewrite length_app. simpl. lia.
    + unfold slice_elems. rewrite Hx. unfold default, id. cbn [from_option]. rewrite Ht.
      rewrite length_app, length_fmap. simpl. rewrite length_replicate.
      pose proof (growcap_gt (s_cap s)). lia.
Qed.

(** ** [NewLogger] *)

(** Constructing a backend returns with a backend or with an error, and
    leaves the memory alone. *)
Lemma new_backend_result config logger st :
  exists r st',
    new_backend config logger st = Done (r, st')
    /\ loggers st' = loggers st /\ arrays st' = arrays st
    /\ ((exists b, r = (Some b, None)) \/ (exists e, r = (None, Some e))).
Proof.
  destruct config as [c|c|s|z|]; simpl;
    try (eexists _, _; split; [reflexivity|]; repeat split; right; eexists; reflexivity).
  - destruct (decide (Path c = "" \/ Path c = "-")) as [Hc|Hf].
    + rewrite (newFileBackend_console _ _ _ Hc). eexists _, _.
      split; [reflexivity|]. repeat split. left. eexists; reflexivity.
    + rewrite newFileBackend_file by tauto. cbv zeta.
      destruct (os_MkdirAll _ _ _).
      { eexists _, _. split; [reflexivity|]. repeat split. right. eexists; reflexivity. }
      destruct (os_OpenFile _ _ _ _).
      { eexists _, _. split; [reflexivity|]. repeat split. right. eexists; reflexivity. }
      eexists _, _. split; [reflexivity|]. repeat split. left. eexists; reflexivity.
  - unfold call_newSyslogBackend.
    destruct (newSyslogBackend c logger (syslog st)) as [[b|e] s'];
      eexists _, _; (split; [reflexivity|]); repeat split; simpl;
      [left | right]; eexists; reflexivity.
Qed.

Lemma new_backend_unsupported config logger st :
  supported config = false ->
  new_backend config logger st = Done ((None, Some ErrUnsupportedBackend), st).
Proof. destruct config; simpl; intros H; try discriminate; reflexivity. Qed.

(** The loop of [NewLogger], from a logger that holds [bs]: it returns
    either the logger, now holding one more backend per configuration, or
    an error and no logger. *)
Lemma NewLogger_loop_result configs : forall l lg bs st,
  loggers st !! l = Some lg ->
  holds st (backends lg) bs ->
  exists r st',
    NewLogger_loop l configs st = Done (r, st')
    /\ ((exists lg' bs',
           r = (Some l, None)
           /\ loggers st' !! l = Some lg'
           /\ context lg' = context lg /\ Mutex lg' = Mutex lg /\ wg lg' = wg lg
           /\ holds st' (backends lg') (bs ++ bs')
           /\ List.length bs' = List.length configs
           /\ forallb supported configs = true)
        \/ (exists e, r = (None, Some e))).
Proof.
  induction configs as [|config rest IH]; intros l lg bs st Hl Hh.
  - exists (Some l, None), st. split; [reflexivity|]. left. exists lg, [].
    rewrite app_nil_r. repeat split; assumption.
  - destruct (new_backend_result config l st) as (r & st1 & E & HL & HA & Hr).
    cbn [NewLogger_loop]. rewrite (bind_eq _ _ _ _ _ E).
    destruct Hr as [[b ->]|[e ->]]; cbn [snd fst].
    2:{ eexists _, _. split; [reflexivity|]. right. eexists; reflexivity. }
    assert (Hl1 : loggers st1 !! l = Some lg) by congruence.
    assert (Hh1 : holds st1 (backends lg) bs) by (now apply (holds_frame st)).
    destruct (append_holds st1 (backends lg) bs b Hh1)
      as (s' & st2 & Ea & Hh2 & HL2 & _).
    unfold bind at 1. unfold deref at 1. rewrite Hl1.
    rewrite (bind_eq _ _ _ _ _ Ea).
    unfold bind at 1. unfold store, modify.
    set (st3 := set_loggers (<[l := set_backends s' lg]> (loggers st2)) st2).
    destruct (IH l (set_backends s' lg) (bs ++ [b]) st3) as (r & st' & E' & Hres).
    { apply lookup_insert_eq. }
    { apply (holds_frame st2); [reflexivity | exact Hh2]. }
    exists r, st'. split; [exact E'|].
    destruct Hres as [(lg' & bs' & -> & Hl' & Hc & Hm & Hw & Hh' & Hn & Hs)|He]; [|now right].
    left. exists lg', (b :: bs'). rewrite <- app_assoc in Hh'.
    repeat split; try assumption.
    + simpl. now rewrite Hn.
    + simpl. rewrite Hs.
      destruct config; try reflexivity; simpl in E; discriminate.
Qed.


Lemma NewLogger_loop_app l pre rest : forall st l' st1,
  NewLogger_loop l pre st = Done ((Some l', None), st1) ->
  NewLogger_loop l (pre ++ rest) st = NewLogger_loop l rest st1.
Proof.
  induction pre as [|c pre IH]; intros st l' st1 H.
  - simpl in H. injection H as _ <-. reflexivity.
  - cbn [NewLogger_loop app] in *.
    apply bind_Done in H as (r & sa & E1 & H). rewrite (bind_eq _ _ _ _ _ E1).
    destruct (r.2) as [err|]; [discriminate|].
    apply bind_Done in H as (lg & sb & E2 & H). rewrite (bind_eq _ _ _ _ _ E2).
    apply bind_Done in H as (s & sc & E3 & H). rewrite (bind_eq _ _ _ _ _ E3).
    apply bind_Done in H as (u & sd & E4 & H). rewrite (bind_eq _ _ _ _ _ E4).
    now apply (IH sd l').
Qed.

Lemma NewLogger_unfold configs st :
  NewLogger configs st
  = let a := fresh (dom (arrays st)) in
    let l := fresh (dom (loggers st)) in
    NewLogger_loop l configs
      (set_loggers (<[l := {| backends := {| s_arr := a; s_len := 0; s_cap := 0 |};
                              context := ""; wg := 0; Mutex := false |}]> (loggers st))
         (set_arrays (<[a := []]> (arrays st)) st)).
Proof. reflexivity. Qed.

(** A logger returned by [NewLogger] is ready for use. *)
Lemma NewLogger_idle configs st l st' :
  NewLogger configs st = Done ((Some l, None), st') ->
  exists bs, idle st' l "" bs /\ List.length bs = List.length configs.
Proof.
  rewrite NewLogger_unfold. cbv zeta.
  set (a := fresh (dom (arrays st))). set (l0 := fresh (dom (loggers st))).
  set (lg0 := {| backends := {| s_arr := a; s_len := 0; s_cap := 0 |};
                 context := ""; wg := 0; Mutex := false |}).
  set (st0 := set_loggers _ _). intros H.
  destruct (NewLogger_loop_result configs l0 lg0 [] st0) as (r & s & E & Hres).
  { apply lookup_insert_eq. }
  { exists []. simpl. rewrite lookup_insert_eq. repeat split. }
  rewrite E in H. injection H as -> ->.
  destruct Hres as [(lg' & bs & Hr & Hl & Hc & Hm & Hw & Hh & Hn & _)|[e He]]; [|discriminate].
  injection Hr as <-. exists bs. split; [|exact Hn].
  exists lg'. repeat split; assumption.
Qed.


(** ** The leveled calls *)

Lemma foldl_written_idle level ctx' format v bs' st l ctx bs :
  idle st l ctx bs -> idle (foldl (written_by level ctx' format v) st bs') l ctx bs.
Proof.
  destruct (foldl_written_frame level ctx' format v bs' st) as (_ & HL & HA).
  cbv zeta in *. apply idle_frame; [now rewrite HL | exact HA].
Qed.

(** C7: on an idle logger each of [Error], [Warning], [Notice], [Info] and
    [Debug] returns, and what it returns is the logger itself: there is no
    error result, no panic and no blocking, for every format, every list of
    arguments and every behaviour of the operating system, failing writes
    included.  The logger is idle again afterwards and the label table is
    as before; a failed write leaves its trace in the history only. *)
Theorem leveled_calls_never_fail (l : nat) (ctx : string) (bs : list backend)
    (format : string) (v : list any) (st : State) :
  idle st l ctx bs ->
  forall m level,
    In (m, level) [(Logger_Error, LevelError); (Logger_Warning, LevelWarning);
                   (Logger_Notice, LevelNotice); (Logger_Info, LevelInfo);
                   (Logger_Debug, LevelDebug)] ->
    let st' := foldl (written_by level ctx format v) st bs in
    m l format v st = Done (l, st')
    /\ idle st' l ctx bs
    /\ fileLabels st' = fileLabels st /\ loggers st' = loggers st /\ arrays st' = arrays st.
Proof.
  intros Hi m level Hin st'.
  assert (E : m l format v st = Done (l, st')).
  { simpl in Hin.
    destruct Hin as [H|[H|[H|[H|[H|[]]]]]]; injection H as <- <-;
      unfold Logger_Error, Logger_Warning, Logger_Notice, Logger_Info, Logger_Debug;
      rewrite (bind_eq _ _ _ _ _ (Logger_write_idle l ctx bs _ format v st Hi));
      reflexivity. }
  split; [exact E|]. split; [now apply foldl_written_idle|].
  apply foldl_written_frame.
Qed.

(** ** The label table is shared *)

Lemma newFileBackend_labels config logger st b st' :
  newFileBackend config logger st = Done ((Some b, None), st') ->
  fileLabels st'
  = init_labels ((Path config =? "")%string || (Path config =? "-")%string)
      (map_to_list levelMap)
  /\ exists fb, b = FileB fb /\ lg_out (fb_writer fb) = fb_output fb
                /\ lg_prefix (fb_writer fb) = ""
                /\ lg_flag (fb_writer fb) = Z.lor LstdFlags Lmicroseconds
                /\ (fb_output fb = Stderr <-> Path config = "" \/ Path config = "-").
Proof.
  intros H. destruct (decide (Path config = "" \/ Path config = "-")) as [Hc|Hf].
  - rewrite (newFileBackend_console _ _ _ Hc) in H. injection H as <- <-.
    split.
    + destruct Hc as [-> | ->]; reflexivity.
    + eexists. split; [reflexivity|]. repeat split; intros; assumption || reflexivity.
  - rewrite newFileBackend_file in H by tauto. cbv zeta in H.
    destruct (os_MkdirAll _ _ _); [discriminate|].
    destruct (os_OpenFile _ _ _ _); [discriminate|].
    injection H as <- <-. split.
    + simpl. destruct (String.eqb_spec (Path config) ""); [tauto|].
      destruct (String.eqb_spec (Path config) "-"); [tauto|]. reflexivity.
    + eexists. split; [reflexivity|]. repeat split; try tauto. simpl. discriminate.
Qed.

(** The line a file backend writes, whatever its own configuration was:
    time stamp with microseconds, the label found in [fileLabels] for the
    level, the context and a colon when there is a context, the message. *)
Lemma fileBackend_Write_line fb level ctx format v st :
  lg_prefix (fb_writer fb) = "" ->
  lg_flag (fb_writer fb) = Z.lor LstdFlags Lmicroseconds ->
  let t := time_Now (history st) in
  let line :=
    itoa (year t) 4 +:+ "/" +:+ itoa (month t) 2 +:+ "/" +:+ itoa (day t) 2 +:+ " " +:+
    itoa (hour t) 2 +:+ ":" +:+ itoa (minute t) 2 +:+ ":" +:+ itoa (second t) 2 +:+
    "." +:+ itoa (Z.quot (nanosecond t) 1000) 6 +:+ " " +:+
    line_text (index_string (fileLabels st) level) ctx (fmt_Sprintf format v) +:+
    (if ends_with_newline (line_text (index_string (fileLabels st) level) ctx
                             (fmt_Sprintf format v))
     then "" else String "010" "") in
  exists r st',
    fileBackend_Write fb level ctx format v st = Done (tt, st')
    /\ history st' = history st ++ [EvNow t; EvWrite (lg_out (fb_writer fb)) line r]
    /\ fileLabels st' = fileLabels st.
Proof.
  intros Hp Hf t line. rewrite fileBackend_Write_eq. eexists _, _. split; [reflexivity|].
  split; [|reflexivity]. simpl. rewrite <- app_assoc. simpl. repeat f_equal.
  unfold output_line, formatHeader. rewrite Hp, Hf. simpl.
  fold t. unfold line. clear.
  generalize (line_text (index_string (fileLabels st) level) ctx (fmt_Sprintf format v)) as x.
  intros x. generalize (if ends_with_newline x then "" else String "010" "") as nl. intros nl.
  rewrite string_app_nil_l. now rewrite !string_app_assoc.
Qed.



(** [newFileBackend] never reads the level of its configuration. *)
Lemma newFileBackend_ignores_Level path level level' logger st :
  newFileBackend {| Path := path; Level := level |} logger st
  = newFileBackend {| Path := path; Level := level' |} logger st.
Proof. reflexivity. Qed.

(** A file backend writes a line for every level it is handed. *)
Lemma fileBackend_Write_any_level fb level ctx format v st :
  exists line r st',
    fileBackend_Write fb level ctx format v st = Done (tt, st')
    /\ history st' = history st ++ [EvNow (time_Now (history st));
                                   EvWrite (lg_out (fb_writer fb)) line r].
Proof.
  rewrite fileBackend_Write_eq. eexists _, _, _. split; [reflexivity|].
  simpl. now rewrite <- app_assoc.
Qed.

(** C10: [newFileBackend] assigns the package-level table [fileLabels].
    When two file backends are constructed one after the other (the second
    in [st1'], whatever has happened since the first), the table is the one
    of the second: colour-coded labels if the second writes to the standard
    error stream, colon-suffixed labels if it writes to a file.
    In every later state with that table, that is until another file
    backend is constructed, a write of either backend takes its label from
    it, whatever the output of the backend that writes. *)
Theorem fileLabels_of_latest_backend (c1 c2 : FileConfig) (l1 l2 : nat)
    (b1 b2 : backend) (st st1 st1' st2 : State) :
  newFileBackend c1 l1 st = Done ((Some b1, None), st1) ->
  newFileBackend c2 l2 st1' = Done ((Some b2, None), st2) ->
  let useColors := ((Path c2 =? "")%string || (Path c2 =? "-")%string) in
  (forall name level, levelMap !! name = Some level ->
     fileLabels st2 !! level = Some (file_label useColors name level))
  /\ forall st3 b,
       fileLabels st3 = fileLabels st2 -> b = b1 \/ b = b2 ->
       forall name level ctx format v,
         levelMap !! name = Some level ->
         exists fb st3',
           b = FileB fb
           /\ backend_Write (Some b) level ctx format v st3 = Done (tt, st3')
           /\ (let t := time_Now (history st3) in
               let line := output_line (fb_writer fb) t
                             (line_text (file_label useColors name level) ctx
                                (fmt_Sprintf format v)) in
               history st3'
               = history st3 ++
                 [EvNow t;
                  EvWrite (fb_output fb) line
                    (file_Write (history st3 ++ [EvNow t]) (fb_output fb) line)])
           /\ fileLabels st3' = fileLabels st3.
Proof.
  intros H1 H2 useColors.
  destruct (newFileBackend_labels _ _ _ _ _ H1) as (_ & fb1 & -> & Ho1 & _).
  destruct (newFileBackend_labels _ _ _ _ _ H2) as (HL & fb2 & -> & Ho2 & _).
  fold useColors in HL.
  assert (Hlab : forall name level, levelMap !! name = Some level ->
            fileLabels st2 !! level = Some (file_label useColors name level)).
  { intros name level Hl. rewrite HL. now apply fileLabels_of_levelMap. }
  split; [exact Hlab|].
  intros st3 b E3 Hb name level ctx format v Hl.
  assert (Hidx : index_string (fileLabels st3) level = file_label useColors name level).
  { unfold index_string. now rewrite E3, (Hlab name level Hl). }
  assert (exists fb, b = FileB fb /\ lg_out (fb_writer fb) = fb_output fb) as (fb & -> & Ho).
  { destruct Hb as [-> | ->]; eauto. }
  exists fb, (written_by level ctx format v st3 (FileB fb)).
  split; [reflexivity|]. split; [apply backend_Write_eq|]. split; [|reflexivity].
  simpl. rewrite Hidx, Ho, <- app_assoc. reflexivity.
Qed.

(** C3, as amended: [NewLogger] always returns, either a logger that
    holds one backend per configuration, every configuration being a file
    or a system-log configuration, or an error and no logger.  The error is
    that of the first configuration whose backend cannot be constructed:
    when the configurations before [c] construct and the construction for [c]
    fails with [e], [NewLogger] fails with [e]; when [c] is neither a file
    nor a system-log configuration, that error is [ErrUnsupportedBackend].
    A configuration of another type makes [NewLogger] fail wherever it
    stands in the list. *)
Theorem NewLogger_fail_fast (configs : list any) (st : State) :
  exists r st',
    NewLogger configs st = Done (r, st')
    /\ ((exists l bs, r = (Some l, None) /\ idle st' l "" bs
                      /\ List.length bs = List.length configs
                      /\ forallb supported configs = true)
        \/ (exists e, r = (None, Some e)))
    /\ (forall pre c post l st1 b e st2,
          configs = pre ++ c :: post ->
          NewLogger pre st = Done ((Some l, None), st1) ->
          new_backend c l st1 = Done ((b, Some e), st2) ->
          r = (None, Some e))
    /\ (forall pre c post l st1,
          configs = pre ++ c :: post -> supported c = false ->
          NewLogger pre st = Done ((Some l, None), st1) ->
          r = (None, Some ErrUnsupportedBackend))
    /\ (forall c, In c configs -> supported c = false -> exists e, r = (None, Some e)).
Proof.
  rewrite NewLogger_unfold. cbv zeta.
  set (a := fresh (dom (arrays st))). set (l := fresh (dom (loggers st))).
  set (lg0 := {| backends := {| s_arr := a; s_len := 0; s_cap := 0 |};
                 context := ""; wg := 0; Mutex := false |}).
  set (st0 := set_loggers _ _).
  assert (Hl0 : loggers st0 !! l = Some lg0) by apply lookup_insert_eq.
  assert (Hh0 : holds st0 (backends lg0) []).
  { exists []. simpl. rewrite lookup_insert_eq. repeat split. }
  destruct (NewLogger_loop_result configs l lg0 [] st0 Hl0 Hh0) as (r & st' & E & Hres).
  exists r, st'. split; [exact E|].
  assert (Hfast : forall pre c post l1 st1 b e st2,
             configs = pre ++ c :: post ->
             NewLogger pre st = Done ((Some l1, None), st1) ->
             new_backend c l1 st1 = Done ((b, Some e), st2) ->
             r = (None, Some e)).
  { intros pre c post l1 st1 b e st2 -> Hpre Hc.
    rewrite NewLogger_unfold in Hpre. cbv zeta in Hpre. fold a l lg0 st0 in Hpre.
    assert (l1 = l) as ->.
    { destruct (NewLogger_loop_result pre l lg0 [] st0 Hl0 Hh0) as (r1 & s1 & E1 & H1).
      rewrite E1 in Hpre. destruct H1 as [(? & ? & -> & _)|[? ->]]; congruence. }
    rewrite (NewLogger_loop_app l pre (c :: post) st0 l st1 Hpre) in E.
    cbn [NewLogger_loop] in E. rewrite (bind_eq _ _ _ _ _ Hc) in E.
    simpl in E. unfold ret in E. congruence. }
  split; [|split; [exact Hfast|split]].
  - destruct Hres as [(lg' & bs' & -> & Hl' & Hc & Hm & Hw & Hh' & Hn & Hs)|He]; [|now right].
    left. exists l, bs'. repeat split; try assumption.
    exists lg'. repeat split; assumption.
  - intros pre c post l1 st1 Hcfg Hsup Hpre.
    apply (Hfast pre c post l1 st1 None ErrUnsupportedBackend st1 Hcfg Hpre).
    now apply new_backend_unsupported.
  - intros c Hin Hsup.
    destruct Hres as [(lg' & bs' & -> & _ & _ & _ & _ & _ & _ & Hs)|He]; [|exact He].
    rewrite forallb_forall in Hs. rewrite (Hs c Hin) in Hsup. discriminate.
Qed.

End PackageFacts.

(** ** Runs on the concrete environment *)

(** C1: a logger is constructed with one console backend whose
    configuration names the level "warning"; [Debug("x")] on it returns and
    the standard error stream has received the line, label DEBUG.  Neither
    [Logger.write] nor [fileBackend.Write] compares the level of the message
    with anything. *)
Theorem Debug_written_by_warning_console :
  exists st,
    run (with_NewLogger (EX := sample_EX) [console_config "warning"]
           (fun l => Logger_Debug (EX := sample_EX) l "x" []))
    = Done (0%nat, st)
    /\ written_to Stderr (history st)
       = ["2016/03/07 09:05:42.001234 " +:+ sample_Color "DEBUG" "cyan" +:+ " x" +:+ newline].
Proof. eexists. split; vm_compute; reflexivity. Qed.

(** C2: "verbose" is not a key of [levelMap], and [NewLogger] on a console
    configuration that names it as level returns a logger and a nil error. *)
Theorem NewLogger_accepts_unknown_level :
  levelMap !! "verbose" = None
  /\ exists st,
       run (NewLogger (EX := sample_EX) [console_config "verbose"])
       = Done ((Some 0%nat, None), st).
Proof. split; [vm_compute; reflexivity|]. eexists. vm_compute. reflexivity. Qed.

(** C3, as stated, fails: the second configuration is neither a file nor a
    system-log configuration, yet [NewLogger] fails with the error of the
    first, whose directory cannot be created. *)
Lemma unsupported_after_failing_file :
  let configs := [file_config "/proc/x/app.log" "info"; IntV 3] in
  let e := OSError {| os_msg := "mkdir /proc/x/: no such file or directory" |} in
  In (IntV 3) configs /\ supported (IntV 3) = false
  /\ (exists st, run (NewLogger (EX := sample_EX) configs) = Done ((None, Some e), st))
  /\ e <> ErrUnsupportedBackend.
Proof.
  cbv zeta. split; [right; left; reflexivity|]. split; [reflexivity|].
  split; [eexists; vm_compute; reflexivity | discriminate].
Qed.

(** C6: with a file backend constructed before a console backend, the line
    the file receives carries the colour-coded label without a colon; with
    the console backend constructed first, the line on the standard error
    stream carries the colon-suffixed label. *)
Theorem label_style_of_other_backend :
  written_to app_log
    (history (state_of (run (with_NewLogger (EX := sample_EX)
       [file_config "/var/log/app.log" "info"; console_config "info"]
       (fun l => Logger_Info (EX := sample_EX) l "hello" [])))))
  = ["2016/03/07 09:05:42.001234 " +:+ sample_Color "INFO" "blue" +:+ " hello" +:+ newline]
  /\
  written_to Stderr
    (history (state_of (run (with_NewLogger (EX := sample_EX)
       [console_config "info"; file_config "/var/log/app.log" "info"]
       (fun l => Logger_Info (EX := sample_EX) l "hello" [])))))
  = ["2016/03/07 09:05:42.001234 INFO: hello" +:+ newline].
Proof. split; vm_compute; reflexivity. Qed.

(** C5: a backend does not work as its own configuration says.  The
    console backend of path "-" writes the colour-coded label as long as it
    is the only backend; once a file backend has been constructed after it,
    the same call writes the plain label with a colon to the standard error
    stream.  And for the path "app.log", which names no directory,
    [newFileBackend] asks [os.MkdirAll] for the empty path; [os.MkdirAll]
    refuses it, [NewLogger] returns that error, and the file is never
    opened. *)
Theorem backend_not_as_configured :
  written_to Stderr
    (history (state_of (run (with_NewLogger (EX := sample_EX)
       [console_config "info"]
       (fun l => Logger_Warning (EX := sample_EX) l "disk almost full" [])))))
  = ["2016/03/07 09:05:42.001234 " +:+ sample_Color "WARNING" "yellow" +:+
     " disk almost full" +:+ newline]
  /\
  written_to Stderr
    (history (state_of (run (with_NewLogger (EX := sample_EX)
       [console_config "info"; file_config "/var/log/app.log" "info"]
       (fun l => Logger_Warning (EX := sample_EX) l "disk almost full" [])))))
  = ["2016/03/07 09:05:42.001234 WARNING: disk almost full" +:+ newline]
  /\
  exists st,
    run (NewLogger (EX := no_empty_dir_EX) [file_config "app.log" "info"])
    = Done ((None, Some (OSError {| os_msg := "mkdir : no such file or directory" |})), st)
    /\ history st
       = [EvMkdirAll "" 493 (Some {| os_msg := "mkdir : no such file or directory" |})].
Proof.
  split; [vm_compute; reflexivity|]. split; [vm_compute; reflexivity|].
  eexists. split; vm_compute; reflexivity.
Qed.

(** [Close] twice on a console logger: the standard error stream is closed
    twice and both calls return. *)
Example Close_twice_on_console :
  exists st,
    run (with_NewLogger (EX := sample_EX) [console_config "info"]
           (fun l => bind (Logger_Close (EX := sample_EX) l)
                       (fun _ => Logger_Close (EX := sample_EX) l)))
    = Done (tt, st)
    /\ closed_files (history st) = [Stderr; Stderr].
Proof. eexists. split; vm_compute; reflexivity. Qed.

(** ** The theorems at concrete inputs *)

Lemma two_backends_idle_full_disk :
  idle (two_backends (EX := full_disk_EX)) 0 "" [console_backend; app_log_backend].
Proof.
  exists two_backends_logger. split; [vm_compute; reflexivity|]. repeat split.
  exists [Some console_backend; Some app_log_backend]. vm_compute. repeat split.
Qed.

(** [newFileBackend_target] on a console configuration and on a file
    configuration. *)
Lemma newFileBackend_target_witness :
  (exists b st',
     newFileBackend (EX := sample_EX) (SL := sample_SL) {| Path := "-"; Level := "info" |} 0
       sample_initial
     = Done ((Some (FileB b), None), st')
     /\ fb_output b = Stderr
     /\ fileLabels st' !! LevelError = Some (sample_Color "ERROR" "red"))
  /\ (exists b st',
     newFileBackend (EX := sample_EX) (SL := sample_SL)
       {| Path := "/var/log/app.log"; Level := "info" |} 0 sample_initial
     = Done ((Some (FileB b), None), st')
     /\ fb_output b = Opened "/var/log/app.log" 1
     /\ fileLabels st' !! LevelError = Some "ERROR:"
     /\ history st'
        = [EvMkdirAll "/var/log/" 493 None; EvOpenFile "/var/log/app.log" 1089 420 None]).
Proof.
  split.
  - destruct (newFileBackend_target (EX := sample_EX) (SL := sample_SL)
                {| Path := "-"; Level := "info" |} 0 sample_initial) as [H _].
    destruct (H (or_intror eq_refl)) as (b & st' & E & Ho & _ & _ & Hlab).
    exists b, st'. split; [exact E|]. split; [exact Ho|].
    apply (Hlab "error" LevelError). vm_compute. reflexivity.
  - destruct (newFileBackend_target (EX := sample_EX) (SL := sample_SL)
                {| Path := "/var/log/app.log"; Level := "info" |} 0 sample_initial)
      as [_ H].
    destruct H as (b & st' & id & E & Ho & _ & Hh & _ & _ & _ & Hlab);
      [discriminate | discriminate | reflexivity | reflexivity |].
    exists b, st'. split; [exact E|].
    assert (id = 1%nat) as ->.
    { vm_compute in E. injection E as <- _. simpl in Ho. now injection Ho. }
    split; [exact Ho|]. split; [|exact Hh].
    apply (Hlab "error" LevelError). vm_compute. reflexivity.
Defined.

(** C9, on a logger with a console backend and a file backend. *)
Lemma Logger_Close_in_order_witness :
  Logger_Close (EX := sample_EX) 0 (two_backends (EX := sample_EX))
  = Done (tt, foldl (closed_by (EX := sample_EX)) (two_backends (EX := sample_EX))
                [console_backend; app_log_backend])
  /\ closed_files
       (history (foldl (closed_by (EX := sample_EX)) (two_backends (EX := sample_EX))
                   [console_backend; app_log_backend]))
     = closed_files (history (two_backends (EX := sample_EX))) ++ [Stderr; app_log].
Proof.
  apply (Logger_Close_in_order (EX := sample_EX) 0 two_backends_logger
           [console_backend; app_log_backend] (two_backends (EX := sample_EX))).
  - vm_compute. reflexivity.
  - exists [Some console_backend; Some app_log_backend]. vm_compute. repeat split.
Defined.

(** C4, on that logger. *)
Lemma Logger_Context_shares_witness :
  exists l' lg' st',
    Logger_Context 0 "request 7" (two_backends (EX := sample_EX)) = Done (l', st')
    /\ l' <> 0%nat
    /\ loggers st' !! l' = Some lg'
    /\ backends lg' = backends two_backends_logger /\ context lg' = "request 7"
    /\ loggers st' !! 0%nat = Some two_backends_logger
    /\ arrays st' = arrays (two_backends (EX := sample_EX)).
Proof.
  destruct (Logger_Context_shares (SL := sample_SL) 0 two_backends_logger "request 7"
              (two_backends (EX := sample_EX)))
    as (l' & lg' & st' & E & Hne & _ & Hl' & Hb & Hc & Hl & _ & HA & _).
  - vm_compute. reflexivity.
  - exists l', lg', st'. repeat split; assumption.
Defined.

(** C7, with a full disk: [Error] returns the logger although both writes
    have failed. *)
Lemma leveled_calls_never_fail_witness :
  Logger_Error (EX := full_disk_EX) 0 "cannot save %s" [StringV "report"]
    (two_backends (EX := full_disk_EX))
  = Done (0%nat,
          foldl (written_by (EX := full_disk_EX) LevelError ""
                   "cannot save %s" [StringV "report"])
            (two_backends (EX := full_disk_EX)) [console_backend; app_log_backend]).
Proof.
  apply (leveled_calls_never_fail (EX := full_disk_EX) 0 ""
           [console_backend; app_log_backend] "cannot save %s" [StringV "report"]
           (two_backends (EX := full_disk_EX))
           two_backends_idle_full_disk
           (Logger_Error (EX := full_disk_EX)) LevelError).
  left. reflexivity.
Defined.

(** C10, on a file backend followed by a console backend. *)
Lemma fileLabels_of_latest_backend_witness :
  let c1 := {| Path := "/var/log/app.log"; Level := "info" |} in
  let c2 := {| Path := "-"; Level := "info" |} in
  let st1 := state_of (newFileBackend (EX := sample_EX) c1 0 sample_initial) in
  let st2 := state_of (newFileBackend (EX := sample_EX) c2 0 st1) in
  fileLabels st2 !! LevelInfo = Some (sample_Color "INFO" "blue").
Proof.
  intros c1 c2 st1 st2.
  apply (proj1 (fileLabels_of_latest_backend (EX := sample_EX) c1 c2 0 0
                  app_log_backend console_backend sample_initial st1 st1 st2
                  eq_refl eq_refl) "info" LevelInfo).
  vm_compute. reflexivity.
Defined.

(** * The goroutines of [Logger.write] *)

Module FanoutFacts.
Import Fanout.

(** ** Updates and counting *)

Lemma upd_same {A} (f : nat -> A) k a : upd f k a k = a.
Proof. unfold upd. now rewrite Nat.eqb_refl. Qed.

Lemma upd_other {A} (f : nat -> A) k a j : j <> k -> upd f k a j = f j.
Proof. unfold upd. intros H. apply Nat.eqb_neq in H. now rewrite H. Qed.

Lemma pending_nonneg f n : 0 <= pending f n.
Proof. induction n as [|n IH]; simpl; [lia|]. destruct (f n); simpl; lia. Qed.

Lemma pending_upd_ge f i p n : (n <= i)%nat -> pending (upd f i p) n = pending f n.
Proof.
  induction n as [|n IH]; intros H; simpl; [reflexivity|].
  rewrite IH by lia. rewrite upd_other by lia. reflexivity.
Qed.

Lemma pending_upd_lt f i p n :
  (i < n)%nat -> pending (upd f i p) n = pending f n - live (f i) + live p.
Proof.
  induction n as [|n IH]; intros H; simpl; [lia|].
  destruct (Nat.eq_dec i n) as [->|Hne].
  - rewrite pending_upd_ge by lia. rewrite upd_same. lia.
  - rewrite IH by lia. rewrite upd_other by lia. lia.
Qed.

Lemma pending_zero f n : pending f n = 0 -> forall i, (i < n)%nat -> f i = Exited.
Proof.
  induction n as [|n IH]; intros H i Hi; [lia|]. simpl in H.
  pose proof (pending_nonneg f n).
  assert (live (f n) = 0 /\ pending f n = 0) as [Hl Hp] by (destruct (f n); simpl in *; lia).
  destruct (Nat.eq_dec i n) as [->|Hne].
  - destruct (f n); simpl in Hl; congruence.
  - apply IH; [exact Hp | lia].
Qed.

Lemma pending_full f n :
  (forall i, (i < n)%nat -> f i <> Exited) -> pending f n = Z.of_nat n.
Proof.
  induction n as [|n IH]; intros H; simpl pending; [reflexivity|].
  rewrite IH by (intros i Hi; apply H; lia).
  specialize (H n (Nat.lt_succ_diag_r n)). destruct (f n); simpl; try lia. congruence.
Qed.

Lemma pending_pos f n i : (i < n)%nat -> f i <> Exited -> 1 <= pending f n.
Proof.
  induction n as [|n IH]; intros Hi Hf; [lia|]. simpl.
  pose proof (pending_nonneg f n).
  destruct (Nat.eq_dec i n) as [->|Hne].
  - destruct (f n); simpl; try lia. congruence.
  - specialize (IH ltac:(lia) Hf). destruct (f n); simpl; lia.
Qed.

(** ** The serial order of calls *)

Lemma serial_cons c r :
  serial r -> (In c r -> head r = Some c) -> serial (c :: r).
Proof. intros Hs Hh. split; assumption. Qed.

Lemma in_calls s c : In c (calls s) <-> exists e, In e (events s) /\ call_of e = c.
Proof.
  unfold calls. rewrite in_map_iff. split; intros (e & H1 & H2); exists e; tauto.
Qed.


(** ** The invariant *)

Lemma inv_init n : inv n init.
Proof.
  constructor; simpl.
  - reflexivity.
  - split; [discriminate | intros [c H]; discriminate].
  - discriminate.
  - reflexivity.
  - intros _ i. reflexivity.
  - tauto.
  - intros c i. split; [tauto | intros [H|H]; discriminate].
  - exact I.
  - discriminate.
Qed.

Lemma caller_ok_outside n p w k k' :
  in_cs p = false -> caller_ok n p w k -> caller_ok n p w k'.
Proof. destruct p; simpl; intros H; try discriminate; tauto. Qed.

Lemma others_outside n s c c' :
  inv n s -> in_cs (caller s c) = true -> c' <> c -> in_cs (caller s c') = false.
Proof.
  intros I Hc Hne. destruct (in_cs (caller s c')) eqn:E; [|reflexivity].
  exfalso. apply Hne. now apply (inv_unique n s I).
Qed.

(** A goroutine that has started and has not yet exited belongs to the call
    that holds the mutex, and the counter of the wait group counts it. *)
Lemma worker_active n s c i :
  inv n s -> worker s c i <> NotStarted -> worker s c i <> Exited ->
  in_cs (caller s c) = true /\ (i < n)%nat /\ counter s = pending (worker s c) n
  /\ (caller s c = AtWait \/ exists j, caller s c = AtGo j /\ (i < j)%nat).
Proof.
  intros I Hs He. pose proof (inv_caller n s I c) as H.
  destruct (caller s c) as [| |j| | |] eqn:Ec; simpl in H.
  - now specialize (H i).
  - destruct H as [H _]. now specialize (H i).
  - destruct H as (Hj & Hge & Hlt & Hk).
    assert (i < j)%nat by (destruct (Nat.lt_ge_cases i j); [assumption | now specialize (Hge i ltac:(lia))]).
    repeat split; try lia; try assumption. right. now exists j.
  - destruct H as (Hge & Hlt & Hk).
    assert (i < n)%nat by (destruct (Nat.lt_ge_cases i n); [assumption | now specialize (Hge i ltac:(lia))]).
    repeat split; try assumption. now left.
  - destruct H as (Hge & Hlt & _). destruct (Nat.lt_ge_cases i n); [now specialize (Hlt i ltac:(lia)) | now specialize (Hge i ltac:(lia))].
  - destruct H as (Hge & Hlt). destruct (Nat.lt_ge_cases i n); [now specialize (Hlt i ltac:(lia)) | now specialize (Hge i ltac:(lia))].
Qed.

Lemma no_events_before_start n s c :
  inv n s -> (forall i, worker s c i = NotStarted) -> ~ In c (calls s).
Proof.
  intros I H Hin. apply in_calls in Hin as (e & He & Hc).
  destruct e as [c' i|c' i]; simpl in Hc; subst c'.
  - apply (inv_begin n s I) in He. rewrite H in He. destruct He as [?|[?|?]]; discriminate.
  - apply (inv_end n s I) in He. rewrite H in He. destruct He as [?|?]; discriminate.
Qed.

Ltac upd_cases :=
  repeat match goal with
    | |- context [upd _ ?k _ ?j] =>
        destruct (Nat.eq_dec j k);
        [subst; rewrite ?upd_same | rewrite ?(upd_other _ k _ j) by assumption]
    | H : context [upd _ ?k _ ?j] |- _ =>
        destruct (Nat.eq_dec j k);
        [subst; rewrite ?upd_same in H | rewrite ?(upd_other _ k _ j) in H by assumption]
    end.

(** [l.Lock()] *)
Lemma step_lock n s c :
  inv n s -> caller s c = AtLock -> mutex s = false ->
  inv n (set_caller c AtAdd (set_mutex true s)).
Proof.
  intros I Ec Em.
  assert (Hnone : forall c', in_cs (caller s c') = false).
  { intros c'. destruct (in_cs (caller s c')) eqn:E; [|reflexivity].
    assert (mutex s = true) by (apply (inv_mutex n s I); now exists c'). congruence. }
  constructor; simpl.
  - apply (inv_alive n s I).
  - split; [intros _; exists c; now rewrite upd_same | reflexivity].
  - intros c1 c2 H1 H2. upd_cases; try reflexivity; rewrite Hnone in *; discriminate.
  - discriminate.
  - intros c'. upd_cases.
    + pose proof (inv_caller n s I c) as H. rewrite Ec in H. simpl in *.
      split; [exact H | now apply (inv_free n s I)].
    + apply (inv_caller n s I).
  - apply (inv_begin n s I).
  - apply (inv_end n s I).
  - apply (inv_serial n s I).
  - intros c' Hc Hin. upd_cases.
    + exfalso. apply (no_events_before_start n s c I); [|exact Hin].
      pose proof (inv_caller n s I c) as H. now rewrite Ec in H.
    + rewrite Hnone in Hc. discriminate.
Qed.


Lemma holder_mutex n s c : inv n s -> in_cs (caller s c) = true -> mutex s = true.
Proof. intros I H. apply (inv_mutex n s I). now exists c. Qed.

(** The holder of the mutex moves on: no second holder appears. *)
Lemma unique_upd n s c p :
  inv n s -> in_cs (caller s c) = true ->
  forall c1 c2,
    in_cs (upd (caller s) c p c1) = true -> in_cs (upd (caller s) c p c2) = true -> c1 = c2.
Proof.
  intros I Hc c1 c2 H1 H2.
  destruct (Nat.eq_dec c1 c) as [->|N1], (Nat.eq_dec c2 c) as [->|N2]; try reflexivity; exfalso.
  - rewrite upd_other in H2 by assumption.
    rewrite (others_outside n s c c2 I Hc N2) in H2. discriminate.
  - rewrite upd_other in H1 by assumption.
    rewrite (others_outside n s c c1 I Hc N1) in H1. discriminate.
  - rewrite upd_other in H1 by assumption.
    rewrite (others_outside n s c c1 I Hc N1) in H1. discriminate.
Qed.

(** [l.wg.Add(len(l.backends))] *)
Lemma step_add n s c :
  inv n s -> caller s c = AtAdd ->
  inv n (set_caller c (AtGo 0) (wg_add (Z.of_nat n) s)).
Proof.
  intros I Ec.
  assert (Hcs : in_cs (caller s c) = true) by now rewrite Ec.
  pose proof (inv_caller n s I c) as Hok. rewrite Ec in Hok. destruct Hok as [Hw Hk].
  unfold wg_add. rewrite Hk.
  destruct (Z.ltb_spec (0 + Z.of_nat n) 0) as [Hlt|_]; [lia|].
  constructor; simpl.
  - apply (inv_alive n s I).
  - split; [intros _; exists c; now rewrite upd_same | intros _; now apply (holder_mutex n s c I)].
  - now apply (unique_upd n).
  - intros Hm. rewrite (holder_mutex n s c I Hcs) in Hm. discriminate.
  - intros c'. upd_cases.
    + simpl. split; [lia|]. split; [intros; apply Hw|]. split; [intros; lia|].
      symmetry. apply pending_full. intros i _. now rewrite Hw.
    + apply caller_ok_outside with (k := counter s); [|apply (inv_caller n s I)].
      now apply (others_outside n s c).
  - apply (inv_begin n s I).
  - apply (inv_end n s I).
  - apply (inv_serial n s I).
  - intros c' Hc Hin. upd_cases.
    + exfalso. now apply (no_events_before_start n s c I).
    + rewrite (others_outside n s c c' I) in Hc by assumption. discriminate.
Qed.


(** [go func(b backend) { ... }(b)] for the backend at index [j] *)
Lemma step_go n s c j :
  inv n s -> caller s c = AtGo j -> (j < n)%nat ->
  inv n (set_caller c (AtGo (S j)) (set_worker c j Ready s)).
Proof.
  intros I Ec Hj.
  assert (Hcs : in_cs (caller s c) = true) by now rewrite Ec.
  pose proof (inv_caller n s I c) as Hok. rewrite Ec in Hok.
  destruct Hok as (_ & Hge & Hlt & Hk).
  assert (Hwj : worker s c j = NotStarted) by (apply Hge; lia).
  constructor; simpl.
  - apply (inv_alive n s I).
  - split; [intros _; exists c; now rewrite upd_same | intros _; now apply (holder_mutex n s c I)].
  - now apply (unique_upd n).
  - intros Hm. rewrite (holder_mutex n s c I Hcs) in Hm. discriminate.
  - intros c'. upd_cases.
    + simpl. split; [lia|]. split; [|split].
      * intros i Hi. rewrite upd_other by lia. apply Hge. lia.
      * intros i Hi. destruct (Nat.eq_dec i j) as [->|Hne].
        -- rewrite upd_same. discriminate.
        -- rewrite upd_other by assumption. apply Hlt. lia.
      * rewrite pending_upd_lt by assumption. rewrite Hwj. simpl. lia.
    + apply (inv_caller n s I).
  - intros c' i Hin. pose proof (inv_begin n s I c' i Hin) as H. upd_cases; try exact H.
    rewrite Hwj in H. destruct H as [?|[?|?]]; discriminate.
  - intros c' i. pose proof (inv_end n s I c' i) as H. upd_cases; try exact H.
    rewrite Hwj in H. split; [intros Hin; apply H in Hin; destruct Hin; discriminate|].
    intros [?|?]; discriminate.
  - apply (inv_serial n s I).
  - intros c' Hc Hin. upd_cases.
    + now apply (inv_head n s I).
    + rewrite (others_outside n s c c' I) in Hc by assumption. discriminate.
Qed.

(** The loop over the backends is over. *)
Lemma step_go_exit n s c j :
  inv n s -> caller s c = AtGo j -> (n <= j)%nat ->
  inv n (set_caller c AtWait s).
Proof.
  intros I Ec Hj.
  assert (Hcs : in_cs (caller s c) = true) by now rewrite Ec.
  pose proof (inv_caller n s I c) as Hok. rewrite Ec in Hok.
  destruct Hok as (Hjn & Hge & Hlt & Hk).
  constructor; simpl.
  - apply (inv_alive n s I).
  - split; [intros _; exists c; now rewrite upd_same | intros _; now apply (holder_mutex n s c I)].
  - now apply (unique_upd n).
  - apply (inv_free n s I).
  - intros c'. upd_cases.
    + simpl. split; [|split].
      * intros i Hi. apply Hge. lia.
      * intros i Hi. apply Hlt. lia.
      * exact Hk.
    + apply (inv_caller n s I).
  - apply (inv_begin n s I).
  - apply (inv_end n s I).
  - apply (inv_serial n s I).
  - intros c' Hc Hin. upd_cases.
    + now apply (inv_head n s I).
    + rewrite (others_outside n s c c' I) in Hc by assumption. discriminate.
Qed.

(** [l.wg.Wait()] returns *)
Lemma step_wait n s c :
  inv n s -> caller s c = AtWait -> counter s = 0 ->
  inv n (set_caller c AtUnlock s).
Proof.
  intros I Ec Hz.
  assert (Hcs : in_cs (caller s c) = true) by now rewrite Ec.
  pose proof (inv_caller n s I c) as Hok. rewrite Ec in Hok.
  destruct Hok as (Hge & Hlt & Hk).
  constructor; simpl.
  - apply (inv_alive n s I).
  - split; [intros _; exists c; now rewrite upd_same | intros _; now apply (holder_mutex n s c I)].
  - now apply (unique_upd n).
  - apply (inv_free n s I).
  - intros c'. upd_cases.
    + simpl. split; [exact Hge|]. split; [|exact Hz].
      apply pending_zero. congruence.
    + apply (inv_caller n s I).
  - apply (inv_begin n s I).
  - apply (inv_end n s I).
  - apply (inv_serial n s I).
  - intros c' Hc Hin. upd_cases.
    + now apply (inv_head n s I).
    + rewrite (others_outside n s c c' I) in Hc by assumption. discriminate.
Qed.

(** The deferred [l.Unlock()] *)
Lemma step_unlock n s c :
  inv n s -> caller s c = AtUnlock ->
  inv n (set_caller c Returned (set_mutex false s)).
Proof.
  intros I Ec.
  assert (Hcs : in_cs (caller s c) = true) by now rewrite Ec.
  pose proof (inv_caller n s I c) as Hok. rewrite Ec in Hok.
  destruct Hok as (Hge & Hlt & Hk).
  assert (Hnone : forall c', in_cs (upd (caller s) c Returned c') = false).
  { intros c'. upd_cases; [reflexivity|]. now apply (others_outside n s c). }
  constructor; simpl.
  - apply (inv_alive n s I).
  - split; [discriminate | intros [c' H]; rewrite Hnone in H; discriminate].
  - intros c1 c2 H1. rewrite Hnone in H1. discriminate.
  - intros _. exact Hk.
  - intros c'. upd_cases.
    + simpl. split; assumption.
    + apply (inv_caller n s I).
  - apply (inv_begin n s I).
  - apply (inv_end n s I).
  - apply (inv_serial n s I).
  - intros c' Hc. rewrite Hnone in Hc. discriminate.
Qed.


(** A started goroutine moves on without exiting: the caller's view holds. *)
Lemma caller_ok_running n p w k i q :
  caller_ok n p w k -> w i <> NotStarted -> w i <> Exited ->
  q <> NotStarted -> q <> Exited ->
  caller_ok n p (upd w i q) k.
Proof.
  intros H Hs He Hq Hq'. destruct p as [| |j| | |]; simpl in *.
  - now specialize (H i).
  - destruct H as [H _]. now specialize (H i).
  - destruct H as (Hj & Hge & Hlt & Hk).
    assert (i < j)%nat by (destruct (Nat.lt_ge_cases i j); [assumption | now specialize (Hge i ltac:(lia))]).
    split; [exact Hj|]. split; [|split].
    + intros i' Hi'. rewrite upd_other by lia. now apply Hge.
    + intros i' Hi'. destruct (Nat.eq_dec i' i) as [->|Hne];
        [now rewrite upd_same | rewrite upd_other by assumption; now apply Hlt].
    + rewrite pending_upd_lt by lia. destruct (w i), q; simpl; congruence || lia.
  - destruct H as (Hge & Hlt & Hk).
    assert (i < n)%nat by (destruct (Nat.lt_ge_cases i n); [assumption | now specialize (Hge i ltac:(lia))]).
    split; [|split].
    + intros i' Hi'. rewrite upd_other by lia. now apply Hge.
    + intros i' Hi'. destruct (Nat.eq_dec i' i) as [->|Hne];
        [now rewrite upd_same | rewrite upd_other by assumption; now apply Hlt].
    + rewrite pending_upd_lt by lia. destruct (w i), q; simpl; congruence || lia.
  - destruct H as (Hge & Hlt & _).
    destruct (Nat.lt_ge_cases i n); [now specialize (Hlt i ltac:(lia)) | now specialize (Hge i ltac:(lia))].
  - destruct H as (Hge & Hlt).
    destruct (Nat.lt_ge_cases i n); [now specialize (Hlt i ltac:(lia)) | now specialize (Hge i ltac:(lia))].
Qed.

(** An event of the call that holds the mutex keeps the order serial. *)
Lemma serial_holder n s c :
  inv n s -> in_cs (caller s c) = true ->
  serial (c :: calls s)
  /\ forall c', in_cs (caller s c') = true -> In c' (c :: calls s) ->
                head (c :: calls s) = Some c'.
Proof.
  intros I Hc. split.
  - apply serial_cons; [apply (inv_serial n s I) | now apply (inv_head n s I)].
  - intros c' Hc' _. simpl. f_equal. now apply (inv_unique n s I).
Qed.

(** [b.Write(...)] begins *)
Lemma step_begin n s c i :
  inv n s -> worker s c i = Ready ->
  inv n (set_worker c i Writing (log_event (Begin c i) s)).
Proof.
  intros I Ew.
  destruct (worker_active n s c i I) as (Hcs & Hi & Hk & _); try (rewrite Ew; discriminate).
  destruct (serial_holder n s c I Hcs) as [Hser Hhead].
  constructor; simpl.
  - apply (inv_alive n s I).
  - apply (inv_mutex n s I).
  - apply (inv_unique n s I).
  - apply (inv_free n s I).
  - intros c'. upd_cases; [|apply (inv_caller n s I)].
    apply caller_ok_running; try (rewrite Ew); try discriminate. apply (inv_caller n s I).
  - intros c' i' [E|Hin].
    + injection E as <- <-. rewrite !upd_same. now left.
    + pose proof (inv_begin n s I c' i' Hin) as H. upd_cases; try exact H. now left.
  - intros c' i'. pose proof (inv_end n s I c' i') as H.
    split.
    + intros [E|Hin]; [discriminate|]. apply H in Hin. upd_cases; try exact Hin.
      rewrite Ew in Hin. destruct Hin; discriminate.
    + intros Hw. right. apply H. upd_cases; try exact Hw. destruct Hw; discriminate.
  - exact Hser.
  - exact Hhead.
Qed.

(** [b.Write(...)] returns *)
Lemma step_end n s c i :
  inv n s -> worker s c i = Writing ->
  inv n (set_worker c i AtDone (log_event (End c i) s)).
Proof.
  intros I Ew.
  destruct (worker_active n s c i I) as (Hcs & Hi & Hk & _); try (rewrite Ew; discriminate).
  destruct (serial_holder n s c I Hcs) as [Hser Hhead].
  constructor; simpl.
  - apply (inv_alive n s I).
  - apply (inv_mutex n s I).
  - apply (inv_unique n s I).
  - apply (inv_free n s I).
  - intros c'. upd_cases; [|apply (inv_caller n s I)].
    apply caller_ok_running; try (rewrite Ew); try discriminate. apply (inv_caller n s I).
  - intros c' i' [E|Hin]; [discriminate|].
    pose proof (inv_begin n s I c' i' Hin) as H. upd_cases; try exact H. right. now left.
  - intros c' i'. pose proof (inv_end n s I c' i') as H.
    split.
    + intros [E|Hin].
      * injection E as <- <-. rewrite !upd_same. now left.
      * apply H in Hin. upd_cases; try exact Hin. now left.
    + intros Hw. destruct (Nat.eq_dec c' c) as [->|Nc].
      * rewrite upd_same in Hw. destruct (Nat.eq_dec i' i) as [->|Ni]; [now left|].
        rewrite upd_other in Hw by assumption. right. now apply H.
      * rewrite upd_other in Hw by assumption. right. now apply H.
  - exact Hser.
  - exact Hhead.
Qed.

(** [l.wg.Done()] *)
Lemma step_done n s c i :
  inv n s -> worker s c i = AtDone ->
  inv n (set_worker c i Exited (wg_add (-1) s)).
Proof.
  intros I Ew.
  destruct (worker_active n s c i I) as (Hcs & Hi & Hk & Hpc); try (rewrite Ew; discriminate).
  assert (Hpos : 1 <= counter s).
  { rewrite Hk. apply (pending_pos _ _ i Hi). rewrite Ew. discriminate. }
  unfold wg_add. destruct (Z.ltb_spec (counter s + -1) 0) as [Hlt|_]; [lia|].
  constructor; simpl.
  - apply (inv_alive n s I).
  - apply (inv_mutex n s I).
  - apply (inv_unique n s I).
  - intros Hm. rewrite (holder_mutex n s c I Hcs) in Hm. discriminate.
  - intros c'. upd_cases.
    + pose proof (inv_caller n s I c) as Hok.
      destruct Hpc as [Ec|(j & Ec & Hij)]; rewrite Ec in *; simpl in *.
      * destruct Hok as (Hge & Hlt & _). split; [|split].
        -- intros i' Hi'. rewrite upd_other by lia. now apply Hge.
        -- intros i' Hi'. destruct (Nat.eq_dec i' i) as [->|Hne];
             [rewrite upd_same; discriminate | rewrite upd_other by assumption; now apply Hlt].
        -- rewrite pending_upd_lt by assumption. rewrite Ew. simpl. lia.
      * destruct Hok as (Hj & Hge & Hlt & _). split; [exact Hj|]. split; [|split].
        -- intros i' Hi'. rewrite upd_other by lia. now apply Hge.
        -- intros i' Hi'. destruct (Nat.eq_dec i' i) as [->|Hne];
             [rewrite upd_same; discriminate | rewrite upd_other by assumption; now apply Hlt].
        -- rewrite pending_upd_lt by assumption. rewrite Ew. simpl. lia.
    + apply caller_ok_outside with (k := counter s); [|apply (inv_caller n s I)].
      now apply (others_outside n s c).
  - intros c' i' Hin. pose proof (inv_begin n s I c' i' Hin) as H.
    upd_cases; try exact H. right. now right.
  - intros c' i'. pose proof (inv_end n s I c' i') as H.
    destruct (Nat.eq_dec c' c) as [->|Nc].
    + rewrite upd_same. destruct (Nat.eq_dec i' i) as [->|Ni].
      * rewrite upd_same. split; [now right|]. intros _. apply H. rewrite Ew. now left.
      * rewrite upd_other by assumption. exact H.
    + rewrite upd_other by assumption. exact H.
  - apply (inv_serial n s I).
  - apply (inv_head n s I).
Qed.

(** Every move keeps the invariant. *)
Lemma step_inv n t s s' : inv n s -> step n t s = Some s' -> inv n s'.
Proof.
  intros I H. unfold step in H. rewrite (inv_alive n s I) in H.
  destruct t as [c|c i].
  - destruct (caller s c) as [| |j| | |] eqn:Ec.
    + destruct (mutex s) eqn:Em; [discriminate|]. injection H as <-. now apply step_lock.
    + injection H as <-. now apply step_add.
    + destruct (Nat.ltb_spec j n); injection H as <-;
        [now apply step_go | now apply (step_go_exit n s c j)].
    + destruct (Z.eqb_spec (counter s) 0); [|discriminate]. injection H as <-.
      now apply step_wait.
    + rewrite (holder_mutex n s c I) in H by now rewrite Ec.
      injection H as <-. now apply step_unlock.
    + discriminate.
  - destruct (worker s c i) eqn:Ew; try discriminate; injection H as <-.
    + now apply step_begin.
    + now apply step_end.
    + now apply step_done.
Qed.

Lemma run_inv n sched : forall s s', inv n s -> run n sched s = Some s' -> inv n s'.
Proof.
  induction sched as [|t r IH]; intros s s' I H; simpl in H.
  - now injection H as <-.
  - destruct (step n t s) as [s1|] eqn:E; [|discriminate].
    apply (IH s1); [now apply (step_inv n t s) | exact H].
Qed.

Lemma reachable_inv n s : reachable n s -> inv n s.
Proof. intros [sched H]. apply (run_inv n sched init); [apply inv_init | exact H]. Qed.


(** ** All the writes of a call in progress at once *)

Lemma run_app n a b s :
  run n (a ++ b) s = match run n a s with
                     | Some s' => run n b s'
                     | None => None
                     end.
Proof.
  revert s. induction a as [|t r IH]; intros s; simpl; [reflexivity|].
  destruct (step n t s); [apply IH | reflexivity].
Qed.

(** The loop of [go] statements, from the backend at index [j] on. *)
Lemma run_go_loop n k : forall s j,
  panicked s = false -> caller s 0%nat = AtGo j -> (j + k <= n)%nat ->
  exists s',
    run n (repeat (Caller 0) k) s = Some s'
    /\ panicked s' = false
    /\ (forall i, (i < j)%nat -> worker s' 0%nat i = worker s 0%nat i)
    /\ (forall i, (j <= i)%nat -> (i < j + k)%nat -> worker s' 0%nat i = Ready).
Proof.
  induction k as [|k IH]; intros s j Hp Hc Hn.
  - exists s. repeat split; [assumption | intros; lia].
  - simpl. unfold step. rewrite Hp, Hc.
    destruct (Nat.ltb_spec j n) as [_|Hge]; [|lia].
    destruct (IH (set_caller 0 (AtGo (S j)) (set_worker 0 j Ready s)) (S j))
      as (s' & Hrun & Hp' & Hold & Hnew); [exact Hp | apply upd_same | lia |].
    simpl in Hold. exists s'. split; [exact Hrun|]. split; [exact Hp'|]. split.
    + intros i Hi. rewrite Hold by lia. rewrite upd_same. apply upd_other. lia.
    + intros i Hle Hlt. destruct (Nat.eq_dec i j) as [->|Hne].
      * rewrite Hold by lia. rewrite !upd_same. reflexivity.
      * apply Hnew; lia.
Qed.

(** Each goroutine enters [b.Write], those before it still writing. *)
Lemma run_begin_all n k : forall s j,
  panicked s = false ->
  (forall i, (j <= i)%nat -> (i < j + k)%nat -> worker s 0%nat i = Ready) ->
  exists s',
    run n (map (Worker 0) (seq j k)) s = Some s'
    /\ panicked s' = false
    /\ (forall i, (i < j)%nat -> worker s' 0%nat i = worker s 0%nat i)
    /\ (forall i, (j <= i)%nat -> (i < j + k)%nat -> worker s' 0%nat i = Writing).
Proof.
  induction k as [|k IH]; intros s j Hp Hr.
  - exists s. repeat split; [assumption | intros; lia].
  - simpl. unfold step. rewrite Hp. rewrite (Hr j) by lia.
    destruct (IH (set_worker 0 j Writing (log_event (Begin 0 j) s)) (S j))
      as (s' & Hrun & Hp' & Hold & Hnew).
    + exact Hp.
    + intros i Hle Hlt. simpl. rewrite upd_same. rewrite upd_other by lia. apply Hr; lia.
    + simpl in Hold. exists s'. split; [exact Hrun|]. split; [exact Hp'|]. split.
      * intros i Hi. rewrite Hold by lia. rewrite upd_same. apply upd_other. lia.
      * intros i Hle Hlt. destruct (Nat.eq_dec i j) as [->|Hne].
        -- rewrite Hold by lia. rewrite !upd_same. reflexivity.
        -- apply Hnew; lia.
Qed.

Lemma all_writing_reached n :
  exists s, run n (all_writing n) init = Some s
            /\ forall i, (i < n)%nat -> worker s 0%nat i = Writing.
Proof.
  set (s1 := set_caller 0 AtAdd (set_mutex true init)).
  set (s2 := set_caller 0 (AtGo 0) (set_counter (Z.of_nat n) s1)).
  assert (E1 : step n (Caller 0) init = Some s1) by reflexivity.
  assert (E2 : step n (Caller 0) s1 = Some s2).
  { unfold step. simpl. unfold wg_add. simpl.
    destruct (Z.ltb_spec (0 + Z.of_nat n) 0) as [Hlt|_]; [lia|].
    now rewrite Z.add_0_l. }
  unfold all_writing. rewrite run_app.
  change (repeat (Caller 0) (2 + n)) with (Caller 0 :: Caller 0 :: repeat (Caller 0) n).
  cbn [run]. rewrite E1, E2.
  destruct (run_go_loop n n s2 0) as (s3 & Hrun & Hp & _ & Hready);
    [reflexivity | reflexivity | lia |].
  rewrite Hrun.
  destruct (run_begin_all n n s3 0 Hp) as (s4 & Hrun' & _ & _ & Hw).
  { intros i _ Hi. apply Hready; lia. }
  exists s4. split; [exact Hrun'|]. intros i Hi. apply Hw; lia.
Qed.

(** ** No reachable state is stuck before every call has returned *)

Lemma pending_exists f n : 0 < pending f n -> exists i, (i < n)%nat /\ f i <> Exited.
Proof.
  induction n as [|n IH]; simpl; intros H; [lia|].
  destruct (f n) eqn:E; try (exists n; split; [lia | rewrite E; discriminate]).
  simpl in H. destruct IH as (i & Hi & Hf); [lia|]. exists i. split; [lia | exact Hf].
Qed.

Lemma no_deadlock n s c :
  inv n s -> caller s c <> Returned -> exists t s', step n t s = Some s'.
Proof.
  intros I Hc. unfold step. rewrite (inv_alive n s I).
  destruct (mutex s) eqn:Em.
  - apply (inv_mutex n s I) in Em as [h Hh].
    pose proof (inv_caller n s I h) as Hok.
    destruct (caller s h) as [| |j| | |] eqn:Eh; try discriminate.
    + exists (Caller h). rewrite Eh. eauto.
    + exists (Caller h). rewrite Eh. destruct (j <? n)%nat; eauto.
    + destruct (Z.eqb_spec (counter s) 0) as [Hz|Hnz].
      * exists (Caller h). rewrite Eh. eauto.
      * simpl in Hok. destruct Hok as (Hge & Hlt & Hk).
        pose proof (pending_nonneg (worker s h) n).
        destruct (pending_exists (worker s h) n) as (i & Hi & Hf); [lia|].
        exists (Worker h i). specialize (Hlt i Hi).
        destruct (worker s h i); try congruence; eauto.
    + exists (Caller h). rewrite Eh. eauto.
  - exists (Caller c).
    destruct (caller s c) as [| |j| | |] eqn:Ec; try congruence;
      try (assert (mutex s = true) by (apply (holder_mutex n s c I); now rewrite Ec);
           congruence).
    eauto.
Qed.


(** ** What [write] guarantees *)

Lemma write_in_progress n s c i :
  inv n s -> In (Begin c i) (events s) -> ~ In (End c i) (events s) ->
  in_cs (caller s c) = true.
Proof.
  intros I Hb He. pose proof (inv_begin n s I c i Hb) as H.
  assert (Hw : worker s c i = Writing).
  { destruct H as [H|H]; [exact H|]. exfalso. apply He. now apply (inv_end n s I). }
  apply (worker_active n s c i I); rewrite Hw; discriminate.
Qed.

Lemma returned_after_all n s c :
  inv n s -> caller s c = AtUnlock \/ caller s c = Returned ->
  forall i, (i < n)%nat -> In (End c i) (events s).
Proof.
  intros I Hc i Hi. apply (inv_end n s I). right.
  pose proof (inv_caller n s I c) as H.
  destruct Hc as [Ec|Ec]; rewrite Ec in H; simpl in H.
  - destruct H as (_ & H & _). now apply H.
  - destruct H as (_ & H). now apply H.
Qed.

(** C8: for a logger with [n] backends and any number of concurrent
    callers of [write], under every schedule of the callers and of the
    goroutines they start:
    - the [n] writes of a call run in parallel: there is a schedule on which
      all [n] goroutines of a call are inside [b.Write] at the same time;
    - nothing panics, neither the wait group nor the mutex;
    - a caller that is past [wg.Wait()] (about to unlock, or returned) has
      had all its [n] backend writes completed;
    - at most one caller is between [Lock] and [Unlock], and a write that
      has begun and not yet returned belongs to that caller;
    - the writes of different calls are not interleaved: in the order of the
      events, the writes of one call are contiguous;
    - as long as some call has not returned, some thread can move. *)
Theorem write_fans_out_and_waits (n : nat) :
  (exists s, reachable n s /\ forall i, (i < n)%nat -> worker s 0%nat i = Writing)
  /\ forall s, reachable n s ->
       panicked s = false
       /\ (forall c, caller s c = AtUnlock \/ caller s c = Returned ->
             forall i, (i < n)%nat -> In (End c i) (events s))
       /\ (forall c c', in_cs (caller s c) = true -> in_cs (caller s c') = true -> c = c')
       /\ (forall c i, In (Begin c i) (events s) -> ~ In (End c i) (events s) ->
             in_cs (caller s c) = true)
       /\ serial (calls s)
       /\ (forall c, caller s c <> Returned -> exists t s', step n t s = Some s').
Proof.
  split.
  - destruct (all_writing_reached n) as (s & Hrun & Hw).
    exists s. split; [now exists (all_writing n) | exact Hw].
  - intros s Hr. pose proof (reachable_inv n s Hr) as I.
    split; [apply (inv_alive n s I)|].
    split; [intros c; now apply returned_after_all|].
    split; [apply (inv_unique n s I)|].
    split; [intros c i; now apply (write_in_progress n)|].
    split; [apply (inv_serial n s I)|].
    intros c. now apply no_deadlock.
Qed.

(** C8, on two callers of a logger with two backends. *)
Lemma write_fans_out_and_waits_witness :
  reachable 2 (state_after 2 two_calls)
  /\ panicked (state_after 2 two_calls) = false
  /\ calls (state_after 2 two_calls) = [1; 1; 0; 0; 0; 0]%nat
  /\ serial (calls (state_after 2 two_calls)).
Proof.
  assert (R : reachable 2 (state_after 2 two_calls)).
  { exists two_calls. unfold state_after.
    destruct (run 2 two_calls init) eqn:E; [reflexivity|]. vm_compute in E. discriminate. }
  split; [exact R|].
  destruct (proj2 (write_fans_out_and_waits 2) _ R) as (Hp & _ & _ & _ & Hs & _).
  split; [exact Hp|]. split; [vm_compute; reflexivity | exact Hs].
Defined.

End FanoutFacts.

(** * Further properties of [file.go] and [logger.go] *)

(** ** Strings and paths *)

Lemma after_last_slash_zero p : after_last_slash p = 0%nat <-> has_slash p = false.
Proof.
  induction p as [|c r IH]; simpl; [tauto|].
  destruct (after_last_slash r) as [|k] eqn:E.
  - destruct (Ascii.eqb c "/"); simpl; [split; discriminate|]. tauto.
  - split; [discriminate|]. intros H. apply orb_false_iff in H as [_ H].
    apply IH in H. discriminate.
Qed.

Lemma drop_after_last_slash p : has_slash (drop_string (after_last_slash p) p) = false.
Proof.
  induction p as [|c r IH]; simpl; [reflexivity|].
  destruct (after_last_slash r) as [|k] eqn:E.
  - apply after_last_slash_zero in E.
    destruct (Ascii.eqb c "/") eqn:Ec; simpl; [exact E | now rewrite Ec, E].
  - exact IH.
Qed.

Lemma get_take_string k n p : (k < n)%nat -> get k (take_string n p) = get k p.
Proof.
  revert k n. induction p as [|c r IH]; intros k n H; destruct n as [|n]; try lia;
    simpl; [reflexivity|].
  destruct k as [|k]; [reflexivity|]. apply IH. lia.
Qed.

Lemma after_last_slash_bound p : (after_last_slash p <= String.length p)%nat.
Proof.
  induction p as [|c r IH]; simpl; [lia|].
  destruct (after_last_slash r); [destruct (Ascii.eqb c "/")|]; lia.
Qed.

Lemma length_take_string n p :
  (n <= String.length p)%nat -> String.length (take_string n p) = n.
Proof.
  revert n. induction p as [|c r IH]; intros [|n] H; simpl in *; try lia.
  f_equal. apply IH. lia.
Qed.

Lemma after_last_slash_is_slash p k :
  after_last_slash p = S k -> get k p = Some "/"%char.
Proof.
  revert k. induction p as [|c r IH]; intros k H; simpl in H; [discriminate|].
  destruct (after_last_slash r) as [|j] eqn:E.
  - destruct (Ascii.eqb_spec c "/"); [|discriminate]. injection H as <-. simpl. now subst.
  - injection H as <-. simpl. now apply IH.
Qed.

(** [path.Split]: the two parts make up the path, the second has no slash,
    and the first is empty or ends in a slash. *)
Lemma path_Split_parts p :
  (path_Split p).1 +:+ (path_Split p).2 = p
  /\ has_slash (path_Split p).2 = false
  /\ ((path_Split p).1 = "" \/ last_byte (path_Split p).1 = Some "/"%char)
  /\ (has_slash p = false -> (path_Split p).1 = "").
Proof.
  split; [apply path_Split_app|]. split; [apply drop_after_last_slash|]. split.
  - unfold path_Split, last_byte. cbn [fst].
    destruct (after_last_slash p) as [|k] eqn:E; [left; now destruct p|]. right.
    pose proof (after_last_slash_bound p) as Hb. rewrite E in Hb.
    rewrite length_take_string by exact Hb.
    replace (S k - 1)%nat with k by lia.
    rewrite get_take_string by lia. now apply after_last_slash_is_slash.
  - intros H. apply after_last_slash_zero in H. unfold path_Split. simpl. rewrite H.
    now destruct p.
Qed.

Section PackageMore.
Context `{EX : Externals} `{SL : SyslogImpl}.


(** ** [newFileBackend]: the ways it ends *)

Lemma on_console_spec (c : FileConfig) :
  on_console c = true <-> Path c = "" \/ Path c = "-".
Proof.
  unfold on_console.
  destruct (String.eqb_spec (Path c) ""), (String.eqb_spec (Path c) "-"); simpl;
    intuition congruence.
Qed.

Lemma on_console_false (c : FileConfig) :
  on_console c = false <-> Path c <> "" /\ Path c <> "-".
Proof. rewrite <- not_true_iff_false, on_console_spec. tauto. Qed.

(** [newFileBackend] ends in one of four ways: on the console, on a
    directory that cannot be created, on a file that cannot be opened, on an
    opened file. *)
Lemma newFileBackend_ends config logger st :
  let dir := (path_Split (Path config)).1 in
  let flag := Z.lor (Z.lor O_APPEND O_CREATE) O_WRONLY in
  let st1 r := add_event (EvMkdirAll dir 493 r) st in
  let st2 r := add_event (EvOpenFile (Path config) flag 420 r) (st1 None) in
  (on_console config = true
   /\ newFileBackend config logger st
      = Done ((Some (FileB (fileBackend_of logger Stderr)), None),
              set_fileLabels (init_labels true (map_to_list levelMap)) st))
  \/ (on_console config = false
      /\ exists e, os_MkdirAll (history st) dir 493 = Some e
         /\ newFileBackend config logger st = Done ((None, Some (OSError e)), st1 (Some e)))
  \/ (on_console config = false
      /\ os_MkdirAll (history st) dir 493 = None
      /\ exists e, os_OpenFile (history (st1 None)) (Path config) flag 420 = Some e
         /\ newFileBackend config logger st
            = Done ((None, Some (Errorf ("failed to open logging file: " +:+ os_msg e))),
                    st2 (Some e)))
  \/ (on_console config = false
      /\ os_MkdirAll (history st) dir 493 = None
      /\ os_OpenFile (history (st1 None)) (Path config) flag 420 = None
      /\ newFileBackend config logger st
         = Done ((Some (FileB (fileBackend_of logger
                                 (Opened (Path config) (List.length (history (st1 None)))))),
                  None),
                 set_fileLabels (init_labels false (map_to_list levelMap)) (st2 None))).
Proof.
  intros dir flag st1 st2.
  destruct (on_console config) eqn:Ec.
  - left. split; [reflexivity|]. apply newFileBackend_console. now apply on_console_spec.
  - right. apply on_console_false in Ec as [H1 H2].
    rewrite (newFileBackend_file config logger st H1 H2). cbv zeta. fold dir flag.
    destruct (os_MkdirAll (history st) dir 493) as [e|] eqn:Em.
    + left. split; [reflexivity|]. exists e. split; reflexivity.
    + right. fold (st1 None).
      destruct (os_OpenFile (history (st1 None)) (Path config) flag 420) as [e|] eqn:Eo.
      * left. split; [reflexivity|]. split; [reflexivity|]. exists e. split; reflexivity.
      * right. repeat split; reflexivity.
Qed.

(** X1: [newFileBackend] always returns, with a file backend and a nil error or
    with no backend and an error.  When it fails the label table is as it
    was before the call; when it succeeds the table is the one of the
    configuration.  It leaves the memory and the system-log state alone and
    neither writes to a file nor closes one. *)
Theorem newFileBackend_all_or_nothing (config : FileConfig) (logger : nat) (st : State) :
  exists r st',
    newFileBackend config logger st = Done (r, st')
    /\ ((exists fb, r = (Some (FileB fb), None)
                    /\ fileLabels st'
                       = init_labels (on_console config) (map_to_list levelMap))
        \/ (exists e, r = (None, Some e) /\ fileLabels st' = fileLabels st))
    /\ loggers st' = loggers st /\ arrays st' = arrays st /\ syslog st' = syslog st
    /\ closed_files (history st') = closed_files (history st)
    /\ written_files (history st') = written_files (history st).
Proof.
  destruct (newFileBackend_ends config logger st)
    as [(Hc & E)|[(Hc & e & Hm & E)|[(Hc & Hm & e & Ho & E)|(Hc & Hm & Ho & E)]]];
    rewrite E, ?Hc; eexists _, _; (split; [reflexivity|]);
    (split; [first [left; eexists; split; reflexivity | right; eexists; split; reflexivity]|]);
    simpl; unfold closed_files, written_files; rewrite ?omap_app; simpl;
    rewrite ?app_nil_r; repeat split; reflexivity.
Qed.

(** X2: For a path other than "" and "-": an error of [os.MkdirAll] is returned
    as it is and [os.OpenFile] is not called; an error of [os.OpenFile] comes
    back as a new error whose message is "failed to open logging file: "
    followed by the message of the cause. *)
Theorem newFileBackend_errors (config : FileConfig) (logger : nat) (st : State) :
  Path config <> "" -> Path config <> "-" ->
  let dir := (path_Split (Path config)).1 in
  let flag := Z.lor (Z.lor O_APPEND O_CREATE) O_WRONLY in
  (forall e, os_MkdirAll (history st) dir 493 = Some e ->
     exists st',
       newFileBackend config logger st = Done ((None, Some (OSError e)), st')
       /\ history st' = history st ++ [EvMkdirAll dir 493 (Some e)])
  /\ (forall e, os_MkdirAll (history st) dir 493 = None ->
        os_OpenFile (history st ++ [EvMkdirAll dir 493 None]) (Path config) flag 420 = Some e ->
        exists st',
          newFileBackend config logger st
          = Done ((None, Some (Errorf ("failed to open logging file: " +:+ os_msg e))), st')
          /\ history st' = history st ++ [EvMkdirAll dir 493 None;
                                         EvOpenFile (Path config) flag 420 (Some e)]).
Proof.
  intros H1 H2 dir flag.
  pose proof (newFileBackend_file config logger st H1 H2) as E. cbv zeta in E.
  fold dir flag in E. split.
  - intros e Hm. rewrite Hm in E. eexists. split; [exact E | reflexivity].
  - intros e Hm Ho. rewrite Hm in E. simpl in E. rewrite Ho in E.
    eexists. split; [exact E|]. simpl. now rewrite <- app_assoc.
Qed.

(** X3: The directory [newFileBackend] asks [os.MkdirAll] for is the path up to
    and including its last slash: what follows it in the path has no slash,
    and for a path without a slash it is the empty string. *)
Theorem newFileBackend_directory (config : FileConfig) (logger : nat) (st : State) :
  Path config <> "" -> Path config <> "-" ->
  exists r st' dir file res rest,
    newFileBackend config logger st = Done (r, st')
    /\ history st' = history st ++ EvMkdirAll dir 493 res :: rest
    /\ dir +:+ file = Path config
    /\ has_slash file = false
    /\ (dir = "" \/ last_byte dir = Some "/"%char)
    /\ (has_slash (Path config) = false -> dir = "").
Proof.
  intros H1 H2.
  destruct (path_Split_parts (Path config)) as (Ha & Hb & Hc & Hd).
  pose proof (newFileBackend_file config logger st H1 H2) as E. cbv zeta in E.
  destruct (os_MkdirAll (history st) (path_Split (Path config)).1 493) as [e|] eqn:Em.
  - eexists _, _, (path_Split (Path config)).1, (path_Split (Path config)).2, _, [].
    split; [exact E|]. split; [reflexivity|]. now repeat split.
  - destruct (os_OpenFile _ (Path config) _ 420) as [e|] eqn:Eo;
      eexists _, _, (path_Split (Path config)).1, (path_Split (Path config)).2, _, [_];
      (split; [exact E|]);
      (split; [simpl; now rewrite <- app_assoc|]); now repeat split.
Qed.

(** X4: The label table does not depend on the order in which [range levelMap]
    visits the entries of the map. *)
Theorem labels_independent_of_range_order (useColors : bool) (entries : list (string * Z)) :
  entries ≡ₚ map_to_list levelMap ->
  init_labels useColors entries = init_labels useColors (map_to_list levelMap).
Proof.
  intros Hp. apply init_labels_order; [exact Hp|].
  rewrite Hp. apply levelMap_keys_NoDup.
Qed.

(** X5: After a successful [newFileBackend] the label table has an entry for
    the levels 1 to 5 and for no other: indexing it with another level
    yields the empty string, which is then the label [Write] prints. *)
Theorem fileLabels_levels (config : FileConfig) (logger : nat) (b : backend)
    (st st' : State) (level : Z) :
  newFileBackend config logger st = Done ((Some b, None), st') ->
  (is_Some (fileLabels st' !! level) <-> 1 <= level <= 5)
  /\ (~ 1 <= level <= 5 -> index_string (fileLabels st') level = "").
Proof.
  intros H. destruct (newFileBackend_labels _ _ _ _ _ H) as (HL & _).
  assert (Hiff : is_Some (fileLabels st' !! level) <-> 1 <= level <= 5).
  { rewrite HL. split.
    - intros [x Hx].
      destruct (decide (level ∈ (map_to_list levelMap).*2)) as [Hin|Hout].
      + rewrite levelMap_entries in Hin. simpl in Hin.
        repeat (apply elem_of_cons in Hin as [->|Hin]; [lia|]).
        now apply elem_of_nil in Hin.
      + rewrite init_labels_missing in Hx by exact Hout. discriminate.
    - intros Hr.
      assert (exists name, levelMap !! name = Some level) as [name Hn].
      { assert (level = 1 \/ level = 2 \/ level = 3 \/ level = 4 \/ level = 5)
          as [->|[->|[->|[->| ->]]]] by lia;
          [exists "error" | exists "warning" | exists "notice" | exists "info"
           | exists "debug"]; vm_compute; reflexivity. }
      rewrite (fileLabels_of_levelMap _ name level Hn). eauto. }
  split; [exact Hiff|]. intros Hn. unfold index_string.
  destruct (fileLabels st' !! level) eqn:E; [|reflexivity].
  exfalso. apply Hn, Hiff. eauto.
Qed.


(** ** [NewLogger]: what it builds and what it leaves behind *)

Lemma new_backend_built config l st b st1 :
  new_backend config l st = Done ((Some b, None), st1) -> built_from l config b.
Proof.
  destruct config as [c|c|s|z|]; simpl; try discriminate.
  - intros H.
    destruct (newFileBackend_ends c l st)
      as [(Hc & E)|[(Hc & e & Hm & E)|[(Hc & Hm & e & Ho & E)|(Hc & Hm & Ho & E)]]];
      rewrite E in H; try discriminate; injection H as <- _; simpl; rewrite Hc;
      repeat split; eauto.
  - unfold call_newSyslogBackend. intros H.
    destruct (newSyslogBackend c l (syslog st)) as [[sb|e] s'] eqn:E; simpl in H;
      [|discriminate].
    injection H as <- _. simpl. exists (syslog st). now rewrite E.
Qed.

Lemma new_backend_quiet config l st r st1 :
  new_backend config l st = Done (r, st1) ->
  closed_files (history st1) = closed_files (history st)
  /\ written_files (history st1) = written_files (history st).
Proof.
  destruct config as [c|c|s|z|]; simpl;
    try (intros H; injection H as _ <-; split; reflexivity).
  - intros H.
    destruct (newFileBackend_ends c l st)
      as [(Hc & E)|[(Hc & e & Hm & E)|[(Hc & Hm & e & Ho & E)|(Hc & Hm & Ho & E)]]];
      rewrite E in H; injection H as _ <-; simpl;
      unfold closed_files, written_files; rewrite ?omap_app; simpl;
      rewrite ?app_nil_r; split; reflexivity.
Qed.

Lemma append_history s b st s' st' :
  append s b st = Done (s', st') -> history st' = history st.
Proof.
  unfold append. destruct (s_len s <? s_cap s)%nat; intros H; injection H as _ <-;
    reflexivity.
Qed.

Lemma NewLogger_loop_quiet configs : forall l st r st',
  NewLogger_loop l configs st = Done (r, st') ->
  closed_files (history st') = closed_files (history st)
  /\ written_files (history st') = written_files (history st).
Proof.
  induction configs as [|config rest IH]; intros l st r st' H.
  - simpl in H. injection H as _ <-. split; reflexivity.
  - cbn [NewLogger_loop] in H. apply bind_Done in H as (r1 & s1 & E1 & H).
    destruct (new_backend_quiet _ _ _ _ _ E1) as [Hc1 Hw1].
    destruct (r1.2) as [err|].
    + injection H as _ <-. split; assumption.
    + apply bind_Done in H as (lg & s2 & E2 & H).
      unfold deref in E2. destruct (loggers s1 !! l); [|discriminate]. injection E2 as _ <-.
      apply bind_Done in H as (s & s3 & E3 & H). apply append_history in E3.
      apply bind_Done in H as (u & s4 & E4 & H). injection E4 as _ <-.
      destruct (IH _ _ _ _ H) as [Hc Hw]. simpl in Hc, Hw. rewrite E3 in Hc, Hw.
      split; congruence.
Qed.

Lemma NewLogger_loop_built configs : forall l lg bs st l' st',
  loggers st !! l = Some lg ->
  holds st (backends lg) bs ->
  NewLogger_loop l configs st = Done ((Some l', None), st') ->
  exists lg' bs',
    l' = l /\ loggers st' !! l = Some lg'
    /\ context lg' = context lg /\ Mutex lg' = Mutex lg /\ wg lg' = wg lg
    /\ holds st' (backends lg') (bs ++ bs')
    /\ Forall2 (built_from l) configs bs'.
Proof.
  induction configs as [|config rest IH]; intros l lg bs st l' st' Hl Hh H.
  - simpl in H. injection H as <- <-. exists lg, []. rewrite app_nil_r.
    repeat split; try assumption. constructor.
  - cbn [NewLogger_loop] in H.
    destruct (new_backend_result config l st) as (r & st1 & E & HL & HA & Hr).
    rewrite (bind_eq _ _ _ _ _ E) in H.
    destruct Hr as [[b ->]|[e ->]]; cbn [snd fst] in H; [|discriminate].
    assert (Hl1 : loggers st1 !! l = Some lg) by congruence.
    assert (Hh1 : holds st1 (backends lg) bs) by (now apply (holds_frame st)).
    destruct (append_holds st1 (backends lg) bs b Hh1) as (s' & st2 & Ea & Hh2 & HL2 & _).
    unfold bind at 1 in H. unfold deref at 1 in H. rewrite Hl1 in H.
    rewrite (bind_eq _ _ _ _ _ Ea) in H.
    unfold bind at 1 in H. unfold store, modify in H.
    set (st3 := set_loggers _ st2) in H.
    destruct (IH l (set_backends s' lg) (bs ++ [b]) st3 l' st')
      as (lg' & bs' & -> & Hl' & Hc & Hm & Hw & Hh' & HF).
    { apply lookup_insert_eq. }
    { apply (holds_frame st2); [reflexivity | exact Hh2]. }
    { exact H. }
    exists lg', (b :: bs'). rewrite <- app_assoc in Hh'.
    repeat split; try assumption.
    constructor; [|exact HF]. now apply (new_backend_built config l st b st1).
Qed.

(** X6: The logger [NewLogger] returns holds one backend per configuration, in
    the order of the configurations: for a file configuration a file backend
    that points back to the logger returned and writes to the standard
    error stream (path "" or "-") or to a file opened under the configured
    path, for a system-log configuration the backend made by
    [newSyslogBackend].  Its context is empty. *)
Theorem NewLogger_backends_in_order (configs : list any) (st : State) (l : nat)
    (st' : State) :
  NewLogger configs st = Done ((Some l, None), st') ->
  exists bs, idle st' l "" bs /\ Forall2 (built_from l) configs bs.
Proof.
  rewrite NewLogger_unfold. cbv zeta.
  set (a := fresh (dom (arrays st))). set (l0 := fresh (dom (loggers st))).
  set (lg0 := {| backends := {| s_arr := a; s_len := 0; s_cap := 0 |};
                 context := ""; wg := 0; Mutex := false |}).
  set (st0 := set_loggers _ _). intros H.
  destruct (NewLogger_loop_built configs l0 lg0 [] st0 l st') as
    (lg' & bs & -> & Hl & Hc & Hm & Hw & Hh & HF).
  { apply lookup_insert_eq. }
  { exists []. simpl. rewrite lookup_insert_eq. repeat split. }
  { exact H. }
  exists bs. split; [|exact HF]. exists lg'. repeat split; assumption.
Qed.

(** X7: [NewLogger] never closes a file and never writes to one.  In
    particular, when the construction of a backend fails, the files opened
    for the configurations before it are left open. *)
Theorem NewLogger_never_closes (configs : list any) (st : State) :
  exists r st',
    NewLogger configs st = Done (r, st')
    /\ closed_files (history st') = closed_files (history st)
    /\ written_files (history st') = written_files (history st).
Proof.
  rewrite NewLogger_unfold. cbv zeta.
  set (st0 := set_loggers _ _).
  destruct (NewLogger_loop_result configs (fresh (dom (loggers st)))
              {| backends := {| s_arr := fresh (dom (arrays st)); s_len := 0; s_cap := 0 |};
                 context := ""; wg := 0; Mutex := false |} [] st0)
    as (r & st' & E & _).
  { apply lookup_insert_eq. }
  { exists []. simpl. rewrite lookup_insert_eq. repeat split. }
  exists r, st'. split; [exact E|]. apply (NewLogger_loop_quiet _ _ _ _ _ E).
Qed.

(** X8: [NewLogger] without a configuration returns a logger without backends;
    it has called nothing outside the package.  On that logger a call of
    [write] at any level and [Close] return and leave the state as it is. *)
Theorem NewLogger_no_config (st : State) :
  exists l st',
    NewLogger [] st = Done ((Some l, None), st')
    /\ idle st' l "" []
    /\ history st' = history st /\ fileLabels st' = fileLabels st
    /\ syslog st' = syslog st
    /\ (forall level format v, Logger_write l level format v st' = Done (tt, st'))
    /\ Logger_Close l st' = Done (tt, st').
Proof.
  set (l := fresh (dom (loggers st))).
  set (st' := set_loggers
                (<[l := {| backends := {| s_arr := fresh (dom (arrays st));
                                          s_len := 0; s_cap := 0 |};
                           context := ""; wg := 0; Mutex := false |}]> (loggers st))
                (set_arrays (<[fresh (dom (arrays st)) := []]> (arrays st)) st)).
  exists l, st'. split; [reflexivity|].
  assert (Hi : idle st' l "" []).
  { eexists. split; [apply lookup_insert_eq|]. repeat split.
    exists []. simpl. rewrite lookup_insert_eq. repeat split. }
  split; [exact Hi|]. repeat split.
  - intros level format v. now rewrite (Logger_write_idle _ "" [] level format v _ Hi).
  - destruct Hi as (lg & Hl & _ & _ & _ & Hh).
    unfold Logger_Close, bind, deref, get_state. rewrite Hl.
    rewrite (holds_elems _ _ _ Hh). reflexivity.
Qed.


(** ** Lines end in a newline *)

Lemma string_app_nil_r (s : string) : s +:+ "" = s.
Proof.
  induction s as [|c r IH]; [reflexivity|].
  change (String c (r +:+ "") = String c r). now rewrite IH.
Qed.

Lemma ends_with_newline_cons c s :
  ends_with_newline s = true -> ends_with_newline (String c s) = true.
Proof.
  unfold ends_with_newline. destruct s as [|d r]; simpl; [discriminate|].
  now rewrite Nat.sub_0_r.
Qed.

Lemma ends_with_newline_app a s :
  ends_with_newline s = true -> ends_with_newline (a +:+ s) = true.
Proof.
  intros H. induction a as [|c r IH]; [exact H|].
  change (ends_with_newline (String c (r +:+ s)) = true).
  now apply ends_with_newline_cons.
Qed.

Lemma output_line_newline w t s : ends_with_newline (output_line w t s) = true.
Proof.
  unfold output_line. apply ends_with_newline_app.
  destruct (ends_with_newline s) eqn:E; [now rewrite string_app_nil_r|].
  apply ends_with_newline_app. reflexivity.
Qed.

(** ** What a leveled call does outside the package *)

Lemma built_from_output l config b fb :
  built_from l config b -> b = FileB fb -> lg_out (fb_writer fb) = fb_output fb.
Proof.
  intros H ->. destruct config; simpl in H; try contradiction.
  destruct H as (_ & -> & _). reflexivity.
Qed.

Lemma omap_cons_list {A B} (f : A -> option B) x l :
  omap f (x :: l) = option_list (f x) ++ omap f l.
Proof. simpl. now destruct (f x). Qed.

Lemma written_files_app h1 h2 : written_files (h1 ++ h2) = written_files h1 ++ written_files h2.
Proof. apply omap_app. Qed.

(** One move of a goroutine: at most one call outside the package, and a
    line written exactly when the goroutine finishes on a file backend. *)
Lemma write_move_events level ctx format v b p st p' st' :
  (forall fb, b = FileB fb -> lg_out (fb_writer fb) = fb_output fb) ->
  write_move level ctx format v b p st = Some (p', st') ->
  exists evs,
    history st' = history st ++ evs
    /\ option_list (written_output (b, p)) ++ written_files evs
       = option_list (written_output (b, p'))
    /\ Forall line_event evs
    /\ fileLabels st' = fileLabels st /\ loggers st' = loggers st /\ arrays st' = arrays st.
Proof.
  intros Hb H. destruct b as [fb|sb], p as [|label|label t|]; simpl in H; try discriminate;
    injection H as <- <-.
  - exists []. rewrite app_nil_r. repeat split. constructor.
  - eexists [_]. repeat split. repeat constructor.
  - eexists [_]. split; [reflexivity|]. simpl. rewrite (Hb fb eq_refl).
    repeat split. repeat constructor. apply output_line_newline.
  - exists []. simpl. rewrite app_nil_r. repeat split. constructor.
Qed.

Lemma written_output_insert bs : forall ps i b p p',
  bs !! i = Some b -> ps !! i = Some p ->
  exists X,
    omap written_output (zip bs ps) ≡ₚ option_list (written_output (b, p)) ++ X
    /\ omap written_output (zip bs (<[i := p']> ps))
       ≡ₚ option_list (written_output (b, p')) ++ X.
Proof.
  induction bs as [|b0 bs IH]; intros ps i b p p' Hb Hp; [discriminate|].
  destruct ps as [|p0 ps]; [discriminate|].
  destruct i as [|i].
  - injection Hb as ->. injection Hp as ->.
    exists (omap written_output (zip bs ps)).
    cbn [zip zip_with list_insert insert]. rewrite !omap_cons_list. split; reflexivity.
  - destruct (IH ps i b p p' Hb Hp) as (X & H1 & H2).
    exists (option_list (written_output (b0, p0)) ++ X).
    change (<[S i := p']> (p0 :: ps)) with (p0 :: <[i := p']> ps).
    cbn [zip zip_with]. rewrite !omap_cons_list.
    change (zip_with pair bs ps) with (zip bs ps).
    change (zip_with pair bs (<[i := p']> ps)) with (zip bs (<[i := p']> ps)).
    rewrite H1, H2. split; apply Permutation_app_swap_app.
Qed.

(** What the goroutines have done outside the package, under any schedule. *)
Lemma writes_run_events level ctx format v bs sched : forall ps st ps' st',
  Forall (fun b => forall fb, b = FileB fb -> lg_out (fb_writer fb) = fb_output fb) bs ->
  writes_run level ctx format v bs sched ps st = Some (ps', st') ->
  exists evs,
    history st' = history st ++ evs
    /\ omap written_output (zip bs ps) ++ written_files evs
       ≡ₚ omap written_output (zip bs ps')
    /\ Forall line_event evs
    /\ fileLabels st' = fileLabels st /\ loggers st' = loggers st /\ arrays st' = arrays st.
Proof.
  induction sched as [|i r IH]; intros ps st ps' st' Hbs H; simpl in H.
  - injection H as <- <-. exists []. rewrite !app_nil_r.
    split; [reflexivity|]. split; [reflexivity|]. split; [constructor|]. repeat split.
  - destruct (bs !! i) as [b|] eqn:Eb; [|discriminate].
    destruct (ps !! i) as [p|] eqn:Ep; [|discriminate].
    destruct (write_move level ctx format v b p st) as [[p1 st1]|] eqn:Em; [|discriminate].
    assert (Hb : forall fb, b = FileB fb -> lg_out (fb_writer fb) = fb_output fb).
    { rewrite Forall_forall in Hbs. apply Hbs. now apply (list_elem_of_lookup_2 bs i). }
    destruct (write_move_events _ _ _ _ _ _ _ _ _ Hb Em)
      as (e1 & Hh1 & Hw1 & Hf1 & HL1 & HG1 & HA1).
    destruct (IH _ _ _ _ Hbs H) as (e2 & Hh2 & Hw2 & Hf2 & HL2 & HG2 & HA2).
    destruct (written_output_insert bs ps i b p p1 Eb Ep) as (X & HX1 & HX2).
    exists (e1 ++ e2). split; [rewrite Hh2, Hh1; now rewrite app_assoc|].
    split; [|split; [now apply Forall_app|repeat split; congruence]].
    rewrite <- Hw2, HX2, <- Hw1, written_files_app, HX1.
    rewrite <- !app_assoc. apply Permutation_app_head.
    rewrite !app_assoc. apply Permutation_app_tail. apply Permutation_app_comm.
Qed.

Lemma written_output_none bs :
  omap written_output (zip bs (replicate (List.length bs) NotBegun)) = [].
Proof. induction bs as [|b r IH]; [reflexivity|]. exact IH. Qed.

Lemma written_output_all bs :
  omap written_output (zip bs (replicate (List.length bs) Finished)) = omap output_of bs.
Proof.
  induction bs as [|b r IH]; [reflexivity|].
  cbn [List.length replicate zip zip_with]. rewrite !omap_cons_list.
  change (zip_with pair r (replicate (List.length r) Finished))
    with (zip r (replicate (List.length r) Finished)).
  now rewrite IH.
Qed.

Lemma writes_run_app level ctx format v bs s1 s2 : forall ps st,
  writes_run level ctx format v bs (s1 ++ s2) ps st
  = match writes_run level ctx format v bs s1 ps st with
    | Some (ps1, st1) => writes_run level ctx format v bs s2 ps1 st1
    | None => None
    end.
Proof.
  induction s1 as [|i r IH]; intros ps st; [reflexivity|]. simpl.
  destruct (bs !! i); [|reflexivity]. destruct (ps !! i); [|reflexivity].
  destruct (write_move level ctx format v _ _ st) as [[p1 st1]|]; [apply IH | reflexivity].
Qed.

(** The goroutine of the backend in the middle makes one move. *)
Lemma writes_run_middle level ctx format v pre b r A p B sched st p' st' :
  List.length A = List.length pre ->
  write_move level ctx format v b p st = Some (p', st') ->
  writes_run level ctx format v (pre ++ b :: r) (List.length pre :: sched) (A ++ p :: B) st
  = writes_run level ctx format v (pre ++ b :: r) sched (A ++ p' :: B) st'.
Proof.
  intros HA Hm. cbn [writes_run].
  rewrite list_lookup_middle by reflexivity.
  rewrite list_lookup_middle by (now symmetry).
  rewrite Hm. f_equal.
  rewrite insert_app_r_alt by lia. rewrite HA, Nat.sub_diag. reflexivity.
Qed.

(** The goroutine of the backend in the middle runs to its end: the state
    is the one [written_by] describes. *)
Lemma writes_run_one level ctx format v pre b r A B sched st :
  List.length A = List.length pre ->
  writes_run level ctx format v (pre ++ b :: r)
    (replicate (moves_of b) (List.length pre) ++ sched) (A ++ NotBegun :: B) st
  = writes_run level ctx format v (pre ++ b :: r) sched (A ++ Finished :: B)
      (written_by level ctx format v st b).
Proof.
  intros HA. destruct b as [fb|sb]; cbn [moves_of replicate app].
  - erewrite writes_run_middle; [|exact HA|reflexivity].
    erewrite writes_run_middle; [|exact HA|reflexivity].
    erewrite writes_run_middle; [|exact HA|reflexivity].
    reflexivity.
  - erewrite writes_run_middle; [|exact HA|reflexivity].
    reflexivity.
Qed.

(** In list order the goroutines leave the state of [Logger_write]. *)
Lemma writes_run_list_order level ctx format v : forall rest pre st,
  writes_run level ctx format v (pre ++ rest) (list_order_from (List.length pre) rest)
    (replicate (List.length pre) Finished ++ replicate (List.length rest) NotBegun) st
  = Some (replicate (List.length pre + List.length rest) Finished,
          foldl (written_by level ctx format v) st rest).
Proof.
  induction rest as [|b r IH]; intros pre st.
  - simpl. now rewrite !app_nil_r, Nat.add_0_r.
  - cbn [list_order_from List.length replicate foldl].
    rewrite writes_run_one by apply length_replicate.
    specialize (IH (pre ++ [b]) (written_by level ctx format v st b)).
    rewrite <- app_assoc, length_app in IH. cbn [app List.length] in IH.
    rewrite Nat.add_1_r in IH. rewrite replicate_S_end, <- app_assoc in IH.
    cbn [app] in IH. rewrite IH, Nat.add_succ_r. reflexivity.
Qed.

(** X9: Under every schedule of the goroutines that a call of [write] starts
    for backends built by [NewLogger]: once all of them have finished,
    exactly one line has been handed to the output of each file backend,
    each line ends in a newline, and besides the writes only the clock has
    been read: no file is opened or closed, the memory and the label table
    are as before.  The order of the writes is that of the schedule, so the
    files written to are the outputs of the file backends up to their
    order.  This is so whatever the operating system answers to the
    writes.  The schedule that follows the order of the list leads to the
    state of [Logger_write]. *)
Theorem write_one_line_per_file (l0 : nat) (configs : list any) (bs : list backend)
    (level : Z) (ctx format : string) (v : list any) (st : State) :
  Forall2 (built_from l0) configs bs ->
  (forall sched ps st',
     writes_run level ctx format v bs sched (replicate (List.length bs) NotBegun) st
     = Some (ps, st') ->
     ps = replicate (List.length bs) Finished ->
     exists evs,
       history st' = history st ++ evs
       /\ written_files evs ≡ₚ omap output_of bs
       /\ Forall line_event evs
       /\ fileLabels st' = fileLabels st /\ loggers st' = loggers st
       /\ arrays st' = arrays st)
  /\ writes_run level ctx format v bs (list_order_from 0 bs)
       (replicate (List.length bs) NotBegun) st
     = Some (replicate (List.length bs) Finished,
             foldl (written_by level ctx format v) st bs).
Proof.
  intros HF. split.
  - intros sched ps st' H ->.
    assert (Hbs : Forall (fun b => forall fb, b = FileB fb ->
                                    lg_out (fb_writer fb) = fb_output fb) bs).
    { clear H. induction HF as [|c b cs bs' Hb _ IH]; constructor; [|exact IH].
      intros fb. now apply (built_from_output l0 c). }
    destruct (writes_run_events _ _ _ _ _ _ _ _ _ _ Hbs H)
      as (evs & Hh & Hw & Hf & HL & HG & HA).
    rewrite written_output_none, written_output_all in Hw.
    exists evs. repeat split; assumption.
  - apply (writes_run_list_order level ctx format v bs [] st).
Qed.

(** ** [Context] and [Close] on shared backends *)

Lemma foldl_closed_idle bs' st l ctx bs :
  idle st l ctx bs -> idle (foldl closed_by st bs') l ctx bs.
Proof.
  destruct (foldl_closed_frame bs' st) as (_ & HL & HA).
  cbv zeta in *. apply idle_frame; [now rewrite HL | exact HA].
Qed.

Lemma Logger_Close_idle l ctx bs st :
  idle st l ctx bs -> Logger_Close l st = Done (tt, foldl closed_by st bs).
Proof.
  intros (lg & Hl & _ & _ & _ & Hh).
  unfold Logger_Close, bind, deref, get_state. rewrite Hl.
  rewrite (holds_elems _ _ _ Hh). apply close_loop.
Qed.

(** X10: Contexts replace each other, they do not nest: a logger derived from
    a derived logger carries the last context only, and each of the three
    loggers writes to the same backends under its own context. *)
Theorem Context_replaces_context (l : nat) (c a b : string) (bs : list backend)
    (st : State) :
  idle st l c bs ->
  exists l1 st1 l2 st2,
    Logger_Context l a st = Done (l1, st1)
    /\ Logger_Context l1 b st1 = Done (l2, st2)
    /\ idle st2 l c bs /\ idle st2 l1 a bs /\ idle st2 l2 b bs
    /\ forall level format v,
         Logger_write l2 level format v st2
         = Done (tt, foldl (written_by level b format v) st2 bs)
         /\ Logger_write l1 level format v st2
            = Done (tt, foldl (written_by level a format v) st2 bs)
         /\ Logger_write l level format v st2
            = Done (tt, foldl (written_by level c format v) st2 bs).
Proof.
  intros Hi.
  destruct (Logger_Context_idle l c a bs st Hi) as (l1 & st1 & E1 & Hi1 & Hi0).
  destruct (Logger_Context_idle l1 a b bs st1 Hi1) as (l2 & st2 & E2 & Hi2 & Hi1').
  assert (Hi0' : idle st2 l c bs).
  { pose proof Hi0 as (lg & Hl & _).
    unfold Logger_Context, bind, deref in E2.
    destruct (loggers st1 !! l1) as [lg1|] eqn:El1; [|discriminate].
    injection E2 as <- <-.
    apply (idle_frame st1); [|reflexivity|exact Hi0].
    simpl. apply lookup_insert_ne. intros E.
    pose proof (fresh_logger_None st1) as Hf. rewrite E, Hl in Hf. discriminate. }
  exists l1, st1, l2, st2. repeat split; try assumption;
    now apply Logger_write_idle.
Qed.

(** X11: [Close] on a derived logger closes the backends of the logger it was
    derived from: the two share them, and nothing counts the users. *)
Theorem Close_of_context_closes_shared (l : nat) (c ctx : string) (bs : list backend)
    (st : State) :
  idle st l c bs ->
  exists l' st1,
    Logger_Context l ctx st = Done (l', st1)
    /\ Logger_Close l' st1 = Done (tt, foldl closed_by st1 bs)
    /\ closed_files (history (foldl closed_by st1 bs))
       = closed_files (history st) ++ omap output_of bs
    /\ idle (foldl closed_by st1 bs) l c bs.
Proof.
  intros Hi.
  destruct (Logger_Context_idle l c ctx bs st Hi) as (l' & st1 & E & Hi' & Hi0).
  exists l', st1. split; [exact E|]. split; [now apply (Logger_Close_idle l' ctx)|].
  split; [|now apply foldl_closed_idle].
  rewrite foldl_closed_files. f_equal. f_equal.
  unfold Logger_Context, bind, deref in E.
  destruct (loggers st !! l); [|discriminate]. injection E as _ <-. reflexivity.
Qed.

(** X12: [Close] does not retire the logger: it stays idle with the same
    backends, a leveled call after it still asks every backend to write,
    and a second [Close] closes every output a second time. *)
Theorem Close_does_not_retire (l : nat) (ctx : string) (bs : list backend) (st : State) :
  idle st l ctx bs ->
  let st1 := foldl closed_by st bs in
  Logger_Close l st = Done (tt, st1)
  /\ idle st1 l ctx bs
  /\ (forall level format v,
        Logger_write l level format v st1
        = Done (tt, foldl (written_by level ctx format v) st1 bs))
  /\ Logger_Close l st1 = Done (tt, foldl closed_by st1 bs)
  /\ closed_files (history (foldl closed_by st1 bs))
     = closed_files (history st) ++ omap output_of bs ++ omap output_of bs.
Proof.
  intros Hi st1.
  assert (Hi1 : idle st1 l ctx bs) by now apply foldl_closed_idle.
  split; [now apply (Logger_Close_idle l ctx)|]. split; [exact Hi1|].
  split; [intros; now apply Logger_write_idle|].
  split; [now apply (Logger_Close_idle l ctx)|].
  unfold st1. now rewrite !foldl_closed_files, <- app_assoc.
Qed.

(** X13: The mutex belongs to one [Logger] value, not to the backends: while a
    call of [write] holds the mutex of [l], a call through [l] waits, but a
    logger derived from [l] by [Context] has a mutex of its own and writes
    to the same backends without waiting. *)
Theorem Context_lock_not_shared (l : nat) (lg : Logger) (ctx : string)
    (bs : list backend) (level : Z) (format : string) (v : list any) (st : State) :
  loggers st !! l = Some lg ->
  Mutex lg = true ->
  holds st (backends lg) bs ->
  Logger_write l level format v st = Blocked
  /\ exists l' st1,
       Logger_Context l ctx st = Done (l', st1)
       /\ Logger_write l level format v st1 = Blocked
       /\ Logger_write l' level format v st1
          = Done (tt, foldl (written_by level ctx format v) st1 bs).
Proof.
  intros Hl Hm Hh.
  assert (HB : forall s, loggers s !! l = Some lg -> Logger_write l level format v s = Blocked).
  { intros s Hs. unfold Logger_write. unfold bind at 1.
    unfold Lock, bind at 1, deref at 1. now rewrite Hs, Hm. }
  split; [now apply HB|].
  pose proof (fresh_logger_None st) as Hf.
  assert (Hne : l <> fresh (dom (loggers st)))
    by (intros E; rewrite <- E, Hl in Hf; discriminate).
  eexists _, _. split.
  { unfold Logger_Context, bind, deref. rewrite Hl. reflexivity. }
  split.
  - apply HB. simpl. rewrite lookup_insert_ne by congruence. exact Hl.
  - apply Logger_write_idle. eexists. split; [apply lookup_insert_eq|].
    repeat split. exact Hh.
Qed.

End PackageMore.

(** ** The further properties at concrete inputs *)

Lemma two_backends_idle :
  idle (two_backends (EX := sample_EX)) 0 "" [console_backend; app_log_backend].
Proof.
  exists two_backends_logger. split; [vm_compute; reflexivity|]. repeat split.
  exists [Some console_backend; Some app_log_backend]. vm_compute. repeat split.
Qed.

Lemma two_backends_built :
  Forall2 (built_from 0)
    [console_config "info"; file_config "/var/log/app.log" "info"]
    [console_backend; app_log_backend].
Proof.
  repeat constructor. simpl. now exists 1%nat.
Qed.

(** A directory that cannot be created, and a file that cannot be opened. *)
Lemma newFileBackend_errors_witness :
  (exists st',
     newFileBackend (EX := sample_EX) (SL := sample_SL)
       {| Path := "/proc/app/app.log"; Level := "info" |} 0 sample_initial
     = Done ((None, Some (OSError {| os_msg := "mkdir /proc/app/: no such file or directory" |})),
             st')
     /\ history st'
        = [EvMkdirAll "/proc/app/" 493
             (Some {| os_msg := "mkdir /proc/app/: no such file or directory" |})])
  /\ (exists st',
     newFileBackend (EX := read_only_EX) (SL := sample_SL)
       {| Path := "/var/log/app.log"; Level := "info" |} 0 sample_initial
     = Done ((None, Some (Errorf
                "failed to open logging file: open /var/log/app.log: permission denied")),
             st')
     /\ history st'
        = [EvMkdirAll "/var/log/" 493 None;
           EvOpenFile "/var/log/app.log" 1089 420
             (Some {| os_msg := "open /var/log/app.log: permission denied" |})]).
Proof.
  split.
  - destruct (newFileBackend_errors (EX := sample_EX) (SL := sample_SL)
                {| Path := "/proc/app/app.log"; Level := "info" |} 0 sample_initial)
      as [H _]; [discriminate | discriminate |].
    apply (H {| os_msg := "mkdir /proc/app/: no such file or directory" |}).
    vm_compute. reflexivity.
  - destruct (newFileBackend_errors (EX := read_only_EX) (SL := sample_SL)
                {| Path := "/var/log/app.log"; Level := "info" |} 0 sample_initial)
      as [_ H]; [discriminate | discriminate |].
    apply (H {| os_msg := "open /var/log/app.log: permission denied" |});
      vm_compute; reflexivity.
Defined.

(** The directory asked for on the way to [/var/log/app.log]. *)
Lemma newFileBackend_directory_witness :
  exists r st' dir file res rest,
    newFileBackend (EX := sample_EX) (SL := sample_SL)
      {| Path := "/var/log/app.log"; Level := "info" |} 0 sample_initial
    = Done (r, st')
    /\ history st' = history sample_initial ++ EvMkdirAll dir 493 res :: rest
    /\ dir +:+ file = "/var/log/app.log"
    /\ has_slash file = false
    /\ (dir = "" \/ last_byte dir = Some "/"%char)
    /\ (has_slash "/var/log/app.log" = false -> dir = "").
Proof.
  apply (newFileBackend_directory (EX := sample_EX) (SL := sample_SL)
           {| Path := "/var/log/app.log"; Level := "info" |} 0 sample_initial);
    discriminate.
Defined.

(** The levels visited in the opposite order. *)
Lemma labels_independent_of_range_order_witness :
  init_labels (EX := sample_EX) true (reverse (map_to_list levelMap))
  = init_labels (EX := sample_EX) true (map_to_list levelMap).
Proof.
  apply (labels_independent_of_range_order (EX := sample_EX) true
           (reverse (map_to_list levelMap))).
  apply reverse_Permutation.
Defined.

(** The label table after a console backend: a label at level 3, none at 6. *)
Lemma fileLabels_levels_witness :
  let st' := state_of (newFileBackend (EX := sample_EX) (SL := sample_SL)
                         {| Path := "-"; Level := "info" |} 0 sample_initial) in
  is_Some (fileLabels st' !! 3) /\ index_string (fileLabels st') 6 = "".
Proof.
  intros st'.
  assert (E : newFileBackend (EX := sample_EX) (SL := sample_SL)
                {| Path := "-"; Level := "info" |} 0 sample_initial
              = Done ((Some console_backend, None), st')) by (vm_compute; reflexivity).
  split.
  - apply (proj1 (fileLabels_levels (EX := sample_EX) (SL := sample_SL) _ _ _ _ _ 3 E)). lia.
  - apply (proj2 (fileLabels_levels (EX := sample_EX) (SL := sample_SL) _ _ _ _ _ 6 E)). lia.
Defined.

(** The backends of [two_backends]. *)
Lemma NewLogger_backends_in_order_witness :
  exists bs,
    idle (two_backends (EX := sample_EX)) 0 "" bs
    /\ Forall2 (built_from 0)
         [console_config "info"; file_config "/var/log/app.log" "info"] bs.
Proof.
  apply (NewLogger_backends_in_order (EX := sample_EX) (SL := sample_SL)
           [console_config "info"; file_config "/var/log/app.log" "info"]
           sample_initial 0 (two_backends (EX := sample_EX))).
  vm_compute. reflexivity.
Defined.

(** The goroutine of the file finishes before the one of the console, on
    a full disk: the file receives its line first. *)
Lemma write_one_line_per_file_witness :
  exists st' evs,
    writes_run (EX := full_disk_EX) LevelNotice "" "saved" []
      [console_backend; app_log_backend] [1; 0; 1; 0; 1; 0]%nat
      [NotBegun; NotBegun] (two_backends (EX := full_disk_EX))
    = Some ([Finished; Finished], st')
    /\ history st' = history (two_backends (EX := full_disk_EX)) ++ evs
    /\ written_files evs ≡ₚ [Stderr; app_log]
    /\ written_files (history st') = [app_log; Stderr].
Proof.
  destruct (writes_run (EX := full_disk_EX) LevelNotice "" "saved" []
              [console_backend; app_log_backend] [1; 0; 1; 0; 1; 0]%nat
              [NotBegun; NotBegun] (two_backends (EX := full_disk_EX)))
    as [[ps st']|] eqn:E; [|vm_compute in E; discriminate].
  assert (Hps : ps = [Finished; Finished]) by (vm_compute in E; now injection E as <- _).
  subst ps.
  destruct (proj1 (write_one_line_per_file (EX := full_disk_EX) (SL := sample_SL) 0
                     [console_config "info"; file_config "/var/log/app.log" "info"]
                     [console_backend; app_log_backend] LevelNotice "" "saved" []
                     (two_backends (EX := full_disk_EX)) two_backends_built)
              _ _ st' E eq_refl)
    as (evs & H & W & _).
  exists st', evs. split; [reflexivity|]. split; [exact H|]. split; [exact W|].
  vm_compute in E. injection E as <-. reflexivity.
Defined.

(** Two contexts in a row on [two_backends]. *)
Lemma Context_replaces_context_witness :
  exists l1 st1 l2 st2,
    Logger_Context 0 "request 7" (two_backends (EX := sample_EX))
    = Done (l1, st1)
    /\ Logger_Context l1 "db" st1 = Done (l2, st2)
    /\ idle st2 l2 "db" [console_backend; app_log_backend]
    /\ Logger_write (EX := sample_EX) l2 LevelInfo "connected" [] st2
       = Done (tt, foldl (written_by (EX := sample_EX) LevelInfo "db" "connected" []) st2
                     [console_backend; app_log_backend]).
Proof.
  destruct (Context_replaces_context (EX := sample_EX) (SL := sample_SL) 0 "" "request 7"
              "db" [console_backend; app_log_backend] (two_backends (EX := sample_EX))
              two_backends_idle)
    as (l1 & st1 & l2 & st2 & E1 & E2 & _ & _ & Hi & Hw).
  exists l1, st1, l2, st2. repeat split; try assumption.
  apply (Hw LevelInfo "connected" []).
Defined.

(** Closing a derived logger closes the console and the file of [two_backends]. *)
Lemma Close_of_context_closes_shared_witness :
  exists l' st1,
    Logger_Context 0 "request 7" (two_backends (EX := sample_EX))
    = Done (l', st1)
    /\ Logger_Close (EX := sample_EX) l' st1
       = Done (tt, foldl (closed_by (EX := sample_EX)) st1 [console_backend; app_log_backend])
    /\ closed_files
         (history (foldl (closed_by (EX := sample_EX)) st1 [console_backend; app_log_backend]))
       = closed_files (history (two_backends (EX := sample_EX))) ++ [Stderr; app_log].
Proof.
  destruct (Close_of_context_closes_shared (EX := sample_EX) (SL := sample_SL) 0 ""
              "request 7" [console_backend; app_log_backend]
              (two_backends (EX := sample_EX)) two_backends_idle)
    as (l' & st1 & E & Hc & Hf & _).
  exists l', st1. repeat split; assumption.
Defined.

(** [Close] twice on [two_backends]: the console and the file are closed twice. *)
Lemma Close_does_not_retire_witness :
  let st1 := foldl (closed_by (EX := sample_EX)) (two_backends (EX := sample_EX))
               [console_backend; app_log_backend] in
  Logger_Close (EX := sample_EX) 0 (two_backends (EX := sample_EX)) = Done (tt, st1)
  /\ closed_files
       (history (foldl (closed_by (EX := sample_EX)) st1 [console_backend; app_log_backend]))
     = closed_files (history (two_backends (EX := sample_EX)))
       ++ [Stderr; app_log] ++ [Stderr; app_log].
Proof.
  intros st1.
  destruct (Close_does_not_retire (EX := sample_EX) (SL := sample_SL) 0 ""
              [console_backend; app_log_backend] (two_backends (EX := sample_EX))
              two_backends_idle)
    as (E & _ & _ & _ & Hf).
  split; [exact E | exact Hf].
Defined.

(** A derived logger writes while the mutex of [two_backends] is held. *)
Lemma Context_lock_not_shared_witness :
  Logger_write (EX := sample_EX) 0 LevelInfo "hello" []
    (two_backends_locked (EX := sample_EX)) = Blocked
  /\ exists l' st1,
       Logger_Context 0 "request 7" (two_backends_locked (EX := sample_EX))
       = Done (l', st1)
       /\ Logger_write (EX := sample_EX) l' LevelInfo "hello" [] st1
          = Done (tt, foldl (written_by (EX := sample_EX) LevelInfo "request 7" "hello" [])
                        st1 [console_backend; app_log_backend]).
Proof.
  destruct (Context_lock_not_shared (EX := sample_EX) (SL := sample_SL) 0
              (set_Mutex true two_backends_logger) "request 7"
              [console_backend; app_log_backend] LevelInfo "hello" []
              (two_backends_locked (EX := sample_EX)))
    as (HB & l' & st1 & E & _ & Hw).
  - vm_compute. reflexivity.
  - reflexivity.
  - exists [Some console_backend; Some app_log_backend]. vm_compute. repeat split.
  - split; [exact HB|]. exists l', st1. split; assumption.
Defined.

(** * Further properties of the goroutines of [Logger.write] *)

Module FanoutMoreFacts.
Import Fanout FanoutFacts FanoutMore.

(** ** Every backend is written to once *)

Lemma wg_add_events d s : events (wg_add d s) = events s.
Proof. unfold wg_add. now destruct (counter s + d <? 0). Qed.

Lemma wg_add_worker d s : worker (wg_add d s) = worker s.
Proof. unfold wg_add. now destruct (counter s + d <? 0). Qed.

Lemma wg_add_caller d s : caller (wg_add d s) = caller s.
Proof. unfold wg_add. now destruct (counter s + d <? 0). Qed.

Lemma once_init : once init.
Proof. constructor; simpl; [constructor | discriminate | exact I]. Qed.

(** A goroutine that has started belongs to one of the [n] backends. *)
Lemma started_bound n s c i : inv n s -> worker s c i <> NotStarted -> (i < n)%nat.
Proof.
  intros I Hs. pose proof (inv_caller n s I c) as H.
  destruct (Nat.lt_ge_cases i n) as [Hlt|Hge]; [exact Hlt|]. exfalso. apply Hs.
  destruct (caller s c) as [| |j| | |]; simpl in H.
  - apply H.
  - apply H.
  - destruct H as (Hj & H & _). apply H. lia.
  - destruct H as (H & _). now apply H.
  - destruct H as (H & _). now apply H.
  - destruct H as (H & _). now apply H.
Qed.

Lemma once_same s s' :
  events s' = events s ->
  (forall c i, entered (worker s' c i) = true -> entered (worker s c i) = true) ->
  once s -> once s'.
Proof.
  intros He Hw [H1 H2 H3]. constructor; rewrite He; [exact H1 | | exact H3].
  intros c i H. apply H2. now apply Hw.
Qed.

Lemma step_once n t s s' : inv n s -> once s -> step n t s = Some s' -> once s'.
Proof.
  intros I O H. unfold step in H. rewrite (inv_alive n s I) in H.
  destruct t as [c|c i].
  - destruct (caller s c) as [| |j| | |] eqn:Ec.
    + destruct (mutex s); [discriminate|]. injection H as <-.
      now apply (once_same s).
    + injection H as <-. apply (once_same s); [apply wg_add_events | | exact O].
      simpl. now rewrite wg_add_worker.
    + destruct (j <? n)%nat; injection H as <-; apply (once_same s); try exact O;
        try reflexivity; try tauto.
      simpl. intros c' i' Hw. upd_cases; try exact Hw. discriminate.
    + destruct (counter s =? 0); [|discriminate]. injection H as <-.
      now apply (once_same s).
    + destruct (mutex s); injection H as <-; now apply (once_same s).
    + discriminate.
  - destruct O as [H1 H2 H3].
    destruct (worker s c i) eqn:Ew; try discriminate; injection H as <-.
    + constructor; simpl.
      * constructor; [|exact H1]. intros Hin. apply list_elem_of_In in Hin.
        apply (inv_begin n s I) in Hin.
        rewrite Ew in Hin. destruct Hin as [?|[?|?]]; discriminate.
      * intros c' i' Hw. upd_cases; try (right; now apply H2). now left.
      * exact H3.
    + assert (Hb : In (Begin c i) (events s)) by (apply H2; now rewrite Ew).
      constructor; simpl.
      * constructor; [|exact H1]. intros Hin. apply list_elem_of_In in Hin.
        apply (inv_end n s I) in Hin.
        rewrite Ew in Hin. destruct Hin as [?|?]; discriminate.
      * intros c' i' Hw. right. upd_cases; try (now apply H2). exact Hb.
      * split; assumption.
    + constructor; simpl; rewrite ?wg_add_events; try assumption.
      intros c' i' Hw. rewrite wg_add_worker in Hw.
      upd_cases; try (now apply H2). apply H2. now rewrite Ew.
Qed.

Lemma run_once n sched : forall s s', inv n s -> once s -> run n sched s = Some s' -> once s'.
Proof.
  induction sched as [|t r IH]; intros s s' I O H; simpl in H.
  - now injection H as <-.
  - destruct (step n t s) as [s1|] eqn:E; [|discriminate].
    apply (IH s1); [now apply (step_inv n t s) | now apply (step_once n t s) | exact H].
Qed.

Lemma reachable_once n s : reachable n s -> once s.
Proof.
  intros [sched H]. apply (run_once n sched init); [apply inv_init | apply once_init | exact H].
Qed.

(** X14: Under every schedule, for a logger with [n] backends: no write begins
    or returns twice for one call and one backend; a write that has
    returned had begun before; only the [n] backends are written to; a call
    that is past [wg.Wait()] has had each of its [n] writes begin and return;
    and nothing is written for a call that has not yet taken the mutex. *)
Theorem each_backend_written_once (n : nat) (s : state) :
  reachable n s ->
  NoDup (events s)
  /\ begun_before_end (events s)
  /\ (forall c i, In (Begin c i) (events s) \/ In (End c i) (events s) -> (i < n)%nat)
  /\ (forall c, caller s c = AtUnlock \/ caller s c = Returned ->
        forall i, (i < n)%nat -> In (Begin c i) (events s) /\ In (End c i) (events s))
  /\ (forall c, caller s c = AtLock ->
        forall i, ~ In (Begin c i) (events s) /\ ~ In (End c i) (events s)).
Proof.
  intros R. pose proof (reachable_inv n s R) as I.
  destruct (reachable_once n s R) as [H1 H2 H3].
  split; [exact H1|]. split; [exact H3|]. split; [|split].
  - intros c i [H|H]; apply (started_bound n s c i I).
    + apply (inv_begin n s I) in H. destruct H as [H|[H|H]]; rewrite H; discriminate.
    + apply (inv_end n s I) in H. destruct H as [H|H]; rewrite H; discriminate.
  - intros c Hc i Hi.
    assert (Hw : worker s c i = Exited).
    { pose proof (inv_caller n s I c) as H.
      destruct Hc as [Ec|Ec]; rewrite Ec in H; simpl in H.
      - destruct H as (_ & H & _). now apply H.
      - destruct H as (_ & H). now apply H. }
    split; [apply H2; now rewrite Hw | apply (inv_end n s I); now right].
  - intros c Ec i. pose proof (inv_caller n s I c) as H. rewrite Ec in H. simpl in H.
    split; intros Hin.
    + apply (inv_begin n s I) in Hin. rewrite H in Hin.
      destruct Hin as [?|[?|?]]; discriminate.
    + apply (inv_end n s I) in Hin. rewrite H in Hin. destruct Hin; discriminate.
Qed.

(** ** The counter of the wait group *)

Lemma pending_le f n : pending f n <= Z.of_nat n.
Proof. induction n as [|n IH]; simpl pending; [lia|]. destruct (f n); simpl; lia. Qed.

(** X15: Under every schedule the counter of the wait group stays between zero
    and the number of backends; it is zero whenever no call holds the
    mutex, and while a call starts its goroutines or waits for them it is
    the number of the goroutines of that call that have not yet called
    [wg.Done()]. *)
Theorem wait_group_counts_goroutines (n : nat) (s : state) :
  reachable n s ->
  0 <= counter s <= Z.of_nat n
  /\ (mutex s = false -> counter s = 0)
  /\ (forall c, caller s c = AtWait \/ (exists j, caller s c = AtGo j) ->
        counter s = pending (worker s c) n).
Proof.
  intros R. pose proof (reachable_inv n s R) as I.
  split; [|split; [apply (inv_free n s I)|]].
  - destruct (mutex s) eqn:Em.
    + apply (inv_mutex n s I) in Em as [h Hh].
      pose proof (inv_caller n s I h) as H.
      pose proof (pending_nonneg (worker s h) n). pose proof (pending_le (worker s h) n).
      destruct (caller s h) as [| |j| | |]; simpl in H, Hh; try discriminate.
      * destruct H as [_ ->]. lia.
      * destruct H as (_ & _ & _ & ->). lia.
      * destruct H as (_ & _ & ->). lia.
      * destruct H as (_ & _ & ->). lia.
    + rewrite (inv_free n s I Em). lia.
  - intros c Hc. pose proof (inv_caller n s I c) as H.
    destruct Hc as [Ec|[j Ec]]; rewrite Ec in H; simpl in H; tauto.
Qed.

(** ** Every call can return *)

Lemma todo_upd_ge f i p n : (n <= i)%nat -> todo (upd f i p) n = todo f n.
Proof.
  induction n as [|n IH]; intros H; simpl; [reflexivity|].
  rewrite IH by lia. rewrite upd_other by lia. reflexivity.
Qed.

Lemma todo_upd_lt f i p n :
  (i < n)%nat -> (todo (upd f i p) n + moves_left (f i) = todo f n + moves_left p)%nat.
Proof.
  induction n as [|n IH]; intros H; simpl; [lia|].
  destruct (Nat.eq_dec i n) as [->|Hne].
  - rewrite todo_upd_ge by lia. rewrite upd_same. lia.
  - specialize (IH ltac:(lia)). rewrite upd_other by lia. lia.
Qed.

(** The call that holds the mutex, or one of its goroutines, can move, and
    the move brings the call nearer to its return. *)
Lemma holder_step n s h :
  inv n s -> in_cs (caller s h) = true ->
  exists t s',
    step n t s = Some s'
    /\ (distance n s' h < distance n s h)%nat
    /\ (caller s' h = Returned \/ in_cs (caller s' h) = true)
    /\ forall c, c <> h -> caller s' c = caller s c.
Proof.
  intros I Hh. pose proof (inv_caller n s I h) as Hok.
  unfold step, distance. rewrite (inv_alive n s I).
  destruct (caller s h) as [| |j| | |] eqn:Eh; try discriminate; simpl in Hok.
  - exists (Caller h). rewrite Eh. eexists. split; [reflexivity|]. simpl.
    rewrite upd_same, wg_add_worker, wg_add_caller. simpl.
    split; [lia|]. split; [now right|]. intros c Hc. now rewrite upd_other.
  - exists (Caller h). rewrite Eh. destruct Hok as (Hj & Hge & _).
    destruct (Nat.ltb_spec j n) as [Hlt|Hnlt]; eexists; (split; [reflexivity|]); simpl;
      rewrite !upd_same.
    + pose proof (todo_upd_lt (worker s h) j Ready n Hlt) as Ht.
      rewrite (Hge j (Nat.le_refl j)) in Ht. simpl in *.
      split; [lia|]. split; [now right|]. intros c Hc. now rewrite upd_other.
    + simpl. split; [lia|]. split; [now right|]. intros c Hc. now rewrite upd_other.
  - destruct Hok as (Hge & Hlt & Hk).
    destruct (Z.eqb_spec (counter s) 0) as [Hz|Hnz].
    + exists (Caller h). rewrite Eh. destruct (Z.eqb_spec (counter s) 0); [|contradiction].
      eexists. split; [reflexivity|]. simpl. rewrite upd_same. simpl.
      split; [lia|]. split; [now right|]. intros c Hc. now rewrite upd_other.
    + pose proof (pending_nonneg (worker s h) n).
      destruct (pending_exists (worker s h) n) as (i & Hi & Hf); [lia|].
      exists (Worker h i). specialize (Hlt i Hi).
      pose proof (todo_upd_lt (worker s h) i) as Ht.
      destruct (worker s h i) eqn:Ew; try congruence;
        (eexists; split; [reflexivity|]); simpl; rewrite ?wg_add_worker, ?wg_add_caller;
        rewrite !upd_same, Eh; simpl.
      * specialize (Ht Writing n Hi). simpl in Ht.
        split; [lia|]. split; [now right | reflexivity].
      * specialize (Ht AtDone n Hi). simpl in Ht.
        split; [lia|]. split; [now right | reflexivity].
      * specialize (Ht Exited n Hi). simpl in Ht.
        split; [lia|]. split; [now right | reflexivity].
  - exists (Caller h). rewrite Eh.
    rewrite (holder_mutex n s h I) by now rewrite Eh.
    eexists. split; [reflexivity|]. simpl. rewrite upd_same. simpl.
    split; [lia|]. split; [now left|]. intros c Hc. now rewrite upd_other.
Qed.

Lemma holder_returns n m : forall s h,
  inv n s -> in_cs (caller s h) = true -> (distance n s h <= m)%nat ->
  exists sched s',
    run n sched s = Some s' /\ caller s' h = Returned
    /\ forall c, c <> h -> caller s' c = caller s c.
Proof.
  induction m as [|m IH]; intros s h I Hh Hm;
    destruct (holder_step n s h I Hh) as (t & s1 & E & Hd & Hc & Ho); [lia|].
  destruct Hc as [Hr|Hcs].
  - exists [t], s1. simpl. rewrite E. repeat split; assumption.
  - destruct (IH s1 h (step_inv n t s s1 I E) Hcs ltac:(lia)) as (sched & s' & Hrun & Hr & Ho').
    exists (t :: sched), s'. simpl. rewrite E. repeat split; try assumption.
    intros c Hc. rewrite Ho' by assumption. now apply Ho.
Qed.

Lemma waiting_returns n s c :
  inv n s -> caller s c = AtLock -> mutex s = false ->
  exists sched s', run n sched s = Some s' /\ caller s' c = Returned.
Proof.
  intros I Ec Em.
  assert (E : step n (Caller c) s = Some (set_caller c AtAdd (set_mutex true s))).
  { unfold step. now rewrite (inv_alive n s I), Ec, Em. }
  destruct (holder_returns n _ _ c (step_inv n _ _ _ I E)
              ltac:(simpl; now rewrite upd_same) (Nat.le_refl _))
    as (sched & s' & Hrun & Hr & _).
  exists (Caller c :: sched), s'. simpl. rewrite E. split; assumption.
Qed.

(** X16: From every state that a schedule can lead to, every call can still be
    brought to its return: no schedule leads the callers and the goroutines
    of a logger into a state where a call of [write] is stuck for good. *)
Theorem every_call_can_return (n : nat) (s : state) (c : nat) :
  reachable n s ->
  exists sched s', run n sched s = Some s' /\ caller s' c = Returned.
Proof.
  intros R. pose proof (reachable_inv n s R) as I.
  destruct (in_cs (caller s c)) eqn:Ecs.
  { destruct (holder_returns n _ s c I Ecs (Nat.le_refl _)) as (sched & s' & H1 & H2 & _).
    now exists sched, s'. }
  destruct (caller s c) as [| |j| | |] eqn:Ec; try discriminate.
  2: { exists [], s. split; [reflexivity | exact Ec]. }
  destruct (mutex s) eqn:Em; [|now apply (waiting_returns n s c)].
  apply (inv_mutex n s I) in Em as [h Hh].
  assert (Hne : c <> h) by (intros ->; rewrite Ec in Hh; discriminate).
  destruct (holder_returns n _ s h I Hh (Nat.le_refl _)) as (sched & s1 & H1 & H2 & Ho).
  pose proof (run_inv n sched s s1 I H1) as I1.
  assert (Em1 : mutex s1 = false).
  { destruct (mutex s1) eqn:E; [|reflexivity]. exfalso.
    apply (inv_mutex n s1 I1) in E as [c' Hc'].
    destruct (Nat.eq_dec c' h) as [->|Hd]; [rewrite H2 in Hc'; discriminate|].
    rewrite (Ho c' Hd), (others_outside n s h c' I Hh Hd) in Hc'. discriminate. }
  destruct (waiting_returns n s1 c I1) as (sched2 & s' & H3 & H4);
    [rewrite (Ho c Hne); exact Ec | exact Em1 |].
  exists (sched ++ sched2), s'. rewrite run_app, H1. split; assumption.
Qed.


(** ** The properties on a call in progress *)

Lemma half_way_reachable : reachable 3 (state_after 3 half_way).
Proof.
  exists half_way. unfold state_after.
  destruct (run 3 half_way init) eqn:E; [reflexivity|]. vm_compute in E. discriminate.
Qed.

(** One caller on three backends, half way through its writes. *)
Lemma each_backend_written_once_witness :
  events (state_after 3 half_way) = [End 0 0; Begin 0 1; Begin 0 0]%nat
  /\ NoDup (events (state_after 3 half_way))
  /\ begun_before_end (events (state_after 3 half_way)).
Proof.
  destruct (each_backend_written_once 3 (state_after 3 half_way) half_way_reachable)
    as (Hn & Ho & _).
  split; [vm_compute; reflexivity|]. split; assumption.
Defined.

(** Two of the three goroutines have not yet called [wg.Done()]. *)
Lemma wait_group_counts_goroutines_witness :
  counter (state_after 3 half_way) = 2
  /\ 0 <= counter (state_after 3 half_way) <= 3
  /\ counter (state_after 3 half_way) = pending (worker (state_after 3 half_way) 0%nat) 3.
Proof.
  destruct (wait_group_counts_goroutines 3 (state_after 3 half_way) half_way_reachable)
    as (Hb & _ & Hc).
  split; [vm_compute; reflexivity|]. split; [exact Hb|].
  apply Hc. left. vm_compute. reflexivity.
Defined.

(** A second caller, waiting for the mutex, can be brought to its return. *)
Lemma every_call_can_return_witness :
  caller (state_after 3 half_way) 1%nat = AtLock
  /\ exists sched s',
       run 3 sched (state_after 3 half_way) = Some s' /\ caller s' 1%nat = Returned.
Proof.
  split; [vm_compute; reflexivity|].
  apply (every_call_can_return 3 (state_after 3 half_way) 1 half_way_reachable).
Defined.

End FanoutMoreFacts.

(** * Properties of the earlier revisions *)

Lemma levelMap_names (name : string) :
  is_Some (levelMap !! name) <-> In name ["error"; "warning"; "notice"; "info"; "debug"].
Proof.
  split.
  - intros [k H]. unfold levelMap in H.
    repeat (apply lookup_insert_Some in H as [[<- _]|[_ H]]; [simpl; auto 10|]).
    rewrite lookup_empty in H. discriminate.
  - simpl. intros H. repeat (destruct H as [<-|H]; [vm_compute; eauto|]). contradiction.
Qed.

Lemma levelMap_range (name : string) (k : Z) : levelMap !! name = Some k -> 1 <= k <= 5.
Proof.
  intros H. assert (Hs : is_Some (levelMap !! name)) by (now exists k).
  apply levelMap_names in Hs. simpl in Hs.
  repeat (destruct Hs as [Hs|Hs]; [subst; vm_compute in H; injection H as <-; lia|]).
  contradiction.
Qed.

Lemma index_int_levelMap (name : string) (k : Z) :
  levelMap !! name = Some k -> index_int levelMap name = k.
Proof. unfold index_int. now intros ->. Qed.

Module Part000Facts.
Import Part000.

Section Part000Env.
Context `{EX : Externals} `{AP : AnsiPlain}.

Lemma open_output_eq logPath st :
  let dir := (path_Split logPath).1 in
  let flag := Z.lor (Z.lor O_APPEND O_CREATE) O_WRONLY in
  let st1 := add_event (EvMkdirAll dir 493 (os_MkdirAll (history st) dir 493))
               (set_colors_disabled true st) in
  let st2 := add_event (EvOpenFile logPath flag 420
                          (os_OpenFile (history st1) logPath flag 420)) st1 in
  open_output logPath st
  = if negb (logPath =? "")%string && negb (logPath =? "-")%string then
      match os_MkdirAll (history st) dir 493 with
      | Some e => Done (inr (OSError e), st1)
      | None =>
          match os_OpenFile (history st1) logPath flag 420 with
          | Some e => Done (inr (OSError e), st2)
          | None => Done (inl (Opened logPath (List.length (history st1))), st2)
          end
      end
    else Done (inl Stderr, st).
Proof.
  intros dir flag st1 st2. unfold open_output.
  destruct (negb (logPath =? "")%string && negb (logPath =? "-")%string); [|reflexivity].
  unfold bind, DisableColors, modify, call_MkdirAll. cbn [history set_colors_disabled].
  fold dir. destruct (os_MkdirAll (history st) dir 493) as [e|] eqn:Em; [reflexivity|].
  unfold call_OpenFile. fold flag.
  change (add_event (EvMkdirAll dir 493 None) (set_colors_disabled true st)) with st1.
  destruct (os_OpenFile (history st1) logPath flag 420) as [e|] eqn:Eo; reflexivity.
Qed.

Lemma open_output_loggers logPath st r st' :
  open_output logPath st = Done (r, st') -> loggers st' = loggers st.
Proof.
  rewrite open_output_eq. cbv zeta.
  destruct (negb (logPath =? "")%string && negb (logPath =? "-")%string).
  - destruct (os_MkdirAll _ _ _); [intros H; injection H as _ <-; reflexivity|].
    destruct (os_OpenFile _ _ _ _); intros H; injection H as _ <-; reflexivity.
  - intros H; injection H as _ <-; reflexivity.
Qed.

Lemma open_output_total logPath st : exists r st', open_output logPath st = Done (r, st').
Proof.
  rewrite open_output_eq. cbv zeta.
  destruct (negb (logPath =? "")%string && negb (logPath =? "-")%string); [|eauto].
  destruct (os_MkdirAll _ _ _); [eauto|]. destruct (os_OpenFile _ _ _ _); eauto.
Qed.

(** [NewLogger], step by step. *)
Lemma NewLogger_eq logPath lvl st :
  let l := fresh (dom (loggers st)) in
  let st0 := set_loggers (<[l := {| logger := None; level := index_int levelMap lvl;
                                    context := ""; out := None |}]> (loggers st)) st in
  NewLogger logPath lvl st
  = match levelMap !! lvl with
    | None => Done ((None, Some ErrInvalidLevel), st0)
    | Some _ =>
        match open_output logPath st0 with
        | Done (inr e, st1) => Done ((None, Some e), st1)
        | Done (inl f, st1) =>
            Done ((Some l, None),
                  set_loggers
                    (<[l := {| logger := Some (log_New f "" (Z.lor LstdFlags Lmicroseconds));
                               level := index_int levelMap lvl;
                               context := ""; out := Some f |}]> (loggers st1))
                    (set_levelLabels (make_labels st1) st1))
        | Panic msg => Panic msg
        | Blocked => Blocked
        end
    end.
Proof.
  intros l st0. unfold NewLogger.
  unfold bind at 1. unfold new_Logger. fold l.
  unfold bind at 1. unfold deref at 1. cbn [loggers set_loggers]. rewrite lookup_insert_eq.
  unfold bind at 1. unfold store at 1, modify. cbn [loggers set_loggers].
  rewrite insert_insert_eq. cbn [set_level logger context out].
  change (set_loggers _ (set_loggers _ st)) with st0.
  destruct (levelMap !! lvl) as [k|]; [|reflexivity].
  unfold bind at 1.
  destruct (open_output logPath st0) as [[[f|e] st1]|msg|] eqn:Eo; try reflexivity.
  pose proof (open_output_loggers _ _ _ _ Eo) as HL.
  unfold bind at 1. unfold deref at 1. rewrite HL. cbn [loggers set_loggers st0].
  rewrite lookup_insert_eq.
  unfold bind, store, modify, get_state, deref. cbn [loggers set_loggers set_levelLabels].
  rewrite lookup_insert_eq. cbn [set_out set_logger logger level context out].
  unfold ret. f_equal. f_equal.
  unfold set_loggers, set_levelLabels.
  cbn [loggers colors_disabled levelLabels history]. f_equal.
  rewrite HL. unfold st0. cbn [loggers set_loggers]. now rewrite !insert_insert_eq.
Qed.


Lemma file_path_spec (logPath : string) :
  negb (logPath =? "")%string && negb (logPath =? "-")%string = true
  <-> logPath <> "" /\ logPath <> "-".
Proof.
  destruct (String.eqb_spec logPath ""), (String.eqb_spec logPath "-"); simpl;
    intuition congruence.
Qed.

Lemma file_path_false (logPath : string) :
  negb (logPath =? "")%string && negb (logPath =? "-")%string = false
  <-> logPath = "" \/ logPath = "-".
Proof.
  destruct (String.eqb_spec logPath ""), (String.eqb_spec logPath "-"); simpl;
    intuition congruence.
Qed.

(** ** [NewLogger] *)

(** X17: [NewLogger] always returns.  It fails with [ErrInvalidLevel] exactly
    when the level is not one of the five names, the empty name included:
    the default level is no fallback.  It has then called nothing outside
    the package and has left the labels and the colours as they were. *)
Theorem NewLogger_level_names (logPath lvl : string) (st : State) :
  exists r st',
    NewLogger logPath lvl st = Done (r, st')
    /\ (r.2 = Some ErrInvalidLevel
        <-> ~ In lvl ["error"; "warning"; "notice"; "info"; "debug"])
    /\ (~ In lvl ["error"; "warning"; "notice"; "info"; "debug"] ->
        r.1 = None /\ history st' = history st
        /\ levelLabels st' = levelLabels st
        /\ colors_disabled st' = colors_disabled st).
Proof.
  rewrite NewLogger_eq. cbv zeta. pose proof (levelMap_names lvl) as Hn.
  destruct (levelMap !! lvl) as [k|].
  - assert (Hin : In lvl ["error"; "warning"; "notice"; "info"; "debug"])
      by (apply Hn; eauto).
    rewrite open_output_eq. cbv zeta.
    destruct (negb (logPath =? "")%string && negb (logPath =? "-")%string).
    + destruct (os_MkdirAll _ _ _);
        [eexists _, _; split; [reflexivity|]; cbn [fst snd];
         split; [split; [discriminate | intros H; now destruct (H Hin)]
                | intros H; now destruct (H Hin)]|].
      destruct (os_OpenFile _ _ _ _); eexists _, _; (split; [reflexivity|]); cbn [fst snd];
        (split; [split; [discriminate | intros H; now destruct (H Hin)]
                | intros H; now destruct (H Hin)]).
    + eexists _, _. split; [reflexivity|]. cbn [fst snd].
      split; [split; [discriminate | intros H; now destruct (H Hin)]
             | intros H; now destruct (H Hin)].
  - assert (Hin : ~ In lvl ["error"; "warning"; "notice"; "info"; "debug"]).
    { intros H. apply Hn in H. destruct H; discriminate. }
    eexists _, _. split; [reflexivity|]. cbn [fst snd].
    split; [tauto|]. intros _. repeat split.
Qed.

Lemma NewLogger_ready logPath lvl st l st' :
  NewLogger logPath lvl st = Done ((Some l, None), st') ->
  exists f, ready st' l (index_int levelMap lvl) "" f
            /\ is_Some (levelMap !! lvl)
            /\ levelLabels st' = make_labels st'.
Proof.
  rewrite NewLogger_eq. cbv zeta.
  destruct (levelMap !! lvl) as [k|]; [|discriminate].
  destruct (open_output logPath _) as [[[f|e] st1]|msg|]; try discriminate.
  intros H. injection H as <- <-. exists f. split; [apply lookup_insert_eq|].
  split; [eauto | reflexivity].
Qed.

(** X18: With a level of the five, [NewLogger] returns a logger at the rank of
    the name, with an empty context: on the standard error stream for the
    paths "" and "-", without a call outside the package; else on the file
    opened under the path, after [os.MkdirAll] on its directory, and with
    the colours disabled.  An error of either call is returned as it is,
    without a logger, and the colours are disabled all the same. *)
Theorem NewLogger_result (logPath lvl : string) (k : Z) (st : State) :
  levelMap !! lvl = Some k ->
  let l := fresh (dom (loggers st)) in
  let dir := (path_Split logPath).1 in
  let flag := Z.lor (Z.lor O_APPEND O_CREATE) O_WRONLY in
  (logPath = "" \/ logPath = "-" ->
   exists st',
     NewLogger logPath lvl st = Done ((Some l, None), st')
     /\ ready st' l k "" Stderr
     /\ history st' = history st
     /\ colors_disabled st' = colors_disabled st)
  /\ (logPath <> "" -> logPath <> "-" ->
      (forall e, os_MkdirAll (history st) dir 493 = Some e ->
         exists st',
           NewLogger logPath lvl st = Done ((None, Some (OSError e)), st')
           /\ history st' = history st ++ [EvMkdirAll dir 493 (Some e)]
           /\ colors_disabled st' = true)
      /\ (forall e, os_MkdirAll (history st) dir 493 = None ->
            os_OpenFile (history st ++ [EvMkdirAll dir 493 None]) logPath flag 420 = Some e ->
            exists st',
              NewLogger logPath lvl st = Done ((None, Some (OSError e)), st')
              /\ history st' = history st ++ [EvMkdirAll dir 493 None;
                                             EvOpenFile logPath flag 420 (Some e)]
              /\ colors_disabled st' = true)
      /\ (os_MkdirAll (history st) dir 493 = None ->
          os_OpenFile (history st ++ [EvMkdirAll dir 493 None]) logPath flag 420 = None ->
          exists st',
            NewLogger logPath lvl st = Done ((Some l, None), st')
            /\ ready st' l k "" (Opened logPath (S (List.length (history st))))
            /\ history st' = history st ++ [EvMkdirAll dir 493 None;
                                           EvOpenFile logPath flag 420 None]
            /\ colors_disabled st' = true)).
Proof.
  intros Hk l dir flag.
  pose proof (NewLogger_eq logPath lvl st) as E. cbv zeta in E. fold l in E.
  rewrite Hk, open_output_eq in E. cbv zeta in E. fold dir flag in E.
  rewrite (index_int_levelMap lvl k Hk) in E.
  cbn [history set_loggers set_colors_disabled add_event] in E.
  split.
  - intros Hp. apply file_path_false in Hp. rewrite Hp in E.
    eexists. split; [exact E|]. split; [apply lookup_insert_eq|]. split; reflexivity.
  - intros H1 H2. rewrite (proj2 (file_path_spec logPath) (conj H1 H2)) in E.
    split; [|split].
    + intros e He. rewrite He in E. eexists. split; [exact E|]. split; reflexivity.
    + intros e Hm Ho. rewrite Hm, Ho in E. eexists. split; [exact E|].
      split; [|reflexivity]. simpl. now rewrite <- app_assoc.
    + intros Hm Ho. rewrite Hm, Ho in E. eexists. split; [exact E|].
      split; [|split; [|reflexivity]].
      * unfold ready. cbn [loggers set_loggers set_levelLabels].
        rewrite lookup_insert_eq. rewrite length_app, Nat.add_comm. reflexivity.
      * simpl. now rewrite <- app_assoc.
Qed.


(** ** [print] and the leveled calls *)

Lemma print_discards l lg lvl format v st :
  loggers st !! l = Some lg -> level lg < lvl -> print l lvl format v st = Done (l, st).
Proof.
  intros Hl Hlt. unfold print, bind, deref. rewrite Hl.
  destruct (Z.ltb_spec (level lg) lvl); [reflexivity|lia].
Qed.

Lemma print_writes l k ctx f lvl format v st :
  ready st l k ctx f -> lvl <= k ->
  let t := time_Now (history st) in
  let w := log_New f "" (Z.lor LstdFlags Lmicroseconds) in
  let line := output_line w t (print_text (index_string (levelLabels st) lvl) ctx
                                 (fmt_Sprintf format v)) in
  let r := file_Write (history st ++ [EvNow t]) f line in
  print l lvl format v st
  = Done (l, add_event (EvWrite f line r) (add_event (EvNow t) st)).
Proof.
  intros Hl Hle. cbv zeta. unfold print, bind at 1, deref. rewrite Hl.
  cbn [level context logger].
  destruct (Z.ltb_spec k lvl); [lia|].
  unfold bind at 1, get_state. unfold print_text.
  destruct (negb (ctx =? "")%string); reflexivity.
Qed.

(** X19: A logger at rank [k] discards a message of a higher level: [print]
    returns the logger and the state is as before.  A message of a level up
    to [k] is handed to the output of the logger as one line: time stamp,
    label of the level, colon, then the context and a colon when there is a
    context, then the message. *)
Theorem print_threshold (l : nat) (k : Z) (ctx : string) (f : osFile) (lvl : Z)
    (format : string) (v : list any) (st : State) :
  ready st l k ctx f ->
  (k < lvl -> print l lvl format v st = Done (l, st))
  /\ (lvl <= k ->
      let t := time_Now (history st) in
      let text := (if negb (ctx =? "")%string
                   then (index_string (levelLabels st) lvl +:+ ": " +:+ ctx) +:+ ": " +:+
                        fmt_Sprintf format v
                   else index_string (levelLabels st) lvl +:+ ": " +:+ fmt_Sprintf format v) in
      let line := output_line (log_New f "" (Z.lor LstdFlags Lmicroseconds)) t text in
      exists r st',
        print l lvl format v st = Done (l, st')
        /\ history st' = history st ++ [EvNow t; EvWrite f line r]
        /\ loggers st' = loggers st /\ levelLabels st' = levelLabels st).
Proof.
  intros Hr. split.
  - intros Hlt. now apply (print_discards l _ lvl format v st Hr).
  - intros Hle t text line. eexists _, _.
    split; [apply (print_writes l k ctx f lvl format v st Hr Hle)|].
    split; [|split; reflexivity]. simpl. now rewrite <- app_assoc.
Qed.

(** X20: What the docstring of [NewLogger] promises: on the logger it returns
    for a level name, each of [Error], [Warning], [Notice], [Info] and
    [Debug] returns the logger; a call whose level is above the rank of the
    name leaves the state as it is, any other adds one line to the output
    and nothing else. *)
Theorem level_discards_higher (logPath name : string) (st : State) (l : nat)
    (st1 : State) (format : string) (v : list any) :
  NewLogger logPath name st = Done ((Some l, None), st1) ->
  exists f,
    ready st1 l (index_int levelMap name) "" f
    /\ forall m lvl,
         In (m, lvl) [(Error, levelError); (Warning, levelWarning); (Notice, levelNotice);
                      (Info, levelInfo); (Debug, levelDebug)] ->
         exists st2,
           m l format v st1 = Done (l, st2)
           /\ (index_int levelMap name < lvl -> st2 = st1)
           /\ (lvl <= index_int levelMap name ->
               exists t line r, history st2 = history st1 ++ [EvNow t; EvWrite f line r]
                                /\ ends_with_newline line = true).
Proof.
  intros HN.
  destruct (NewLogger_ready _ _ _ _ _ HN) as (f & Hr & _ & _).
  exists f. split; [exact Hr|]. intros m lvl Hin.
  assert (E : m l format v st1 = print l lvl format v st1).
  { simpl in Hin.
    repeat (destruct Hin as [Hin|Hin]; [injection Hin as <- <-; reflexivity|]).
    contradiction. }
  rewrite E.
  destruct (Z.lt_ge_cases (index_int levelMap name) lvl) as [Hlt|Hge].
  - exists st1. split; [now apply (print_discards l _ lvl format v st1 Hr)|].
    split; [reflexivity | lia].
  - eexists. split; [apply (print_writes l _ "" f lvl format v st1 Hr Hge)|].
    split; [lia|]. intros _. eexists _, _, _. split.
    + simpl. rewrite <- app_assoc. reflexivity.
    + apply output_line_newline.
Qed.

(** ** [Context], [Close] and the zero [Logger] *)

(** X21: [Context] returns a copy of the logger under a new address: same rank,
    same writer and output, the context given.  The original is as before,
    and [Close] on either of the two closes the one file they share. *)
Theorem Context_copies (l : nat) (k : Z) (c : string) (f : osFile) (ctx : string)
    (st : State) :
  ready st l k c f ->
  exists l' st',
    Context l ctx st = Done (l', st')
    /\ l' <> l
    /\ ready st' l' k ctx f /\ ready st' l k c f
    /\ history st' = history st /\ levelLabels st' = levelLabels st
    /\ Close l' st'
       = Done (file_Close (history st') f,
               add_event (EvClose f (file_Close (history st') f)) st')
    /\ Close l st' = Close l' st'.
Proof.
  intros Hr.
  assert (Hf : loggers st !! fresh (dom (loggers st)) = None)
    by (apply not_elem_of_dom, is_fresh).
  assert (Hne : fresh (dom (loggers st)) <> l).
  { intros E. rewrite E in Hf. unfold ready in Hr. rewrite Hr in Hf. discriminate. }
  eexists _, _. split.
  { unfold Context, bind, deref. rewrite Hr. reflexivity. }
  split; [exact Hne|].
  assert (H1 : ready (set_loggers (<[fresh (dom (loggers st)) :=
                         set_context ctx
                           {| logger := Some (log_New f "" (Z.lor LstdFlags Lmicroseconds));
                              level := k; context := c; out := Some f |}]> (loggers st)) st)
                 (fresh (dom (loggers st))) k ctx f) by apply lookup_insert_eq.
  assert (H2 : ready (set_loggers (<[fresh (dom (loggers st)) :=
                         set_context ctx
                           {| logger := Some (log_New f "" (Z.lor LstdFlags Lmicroseconds));
                              level := k; context := c; out := Some f |}]> (loggers st)) st)
                 l k c f).
  { unfold ready. simpl. rewrite lookup_insert_ne by exact Hne. exact Hr. }
  split; [exact H1|]. split; [exact H2|]. split; [reflexivity|]. split; [reflexivity|].
  unfold Close, bind, deref. rewrite H1, H2. split; reflexivity.
Qed.

(** X22: The zero [Logger] is silent and harmless: each of the five leveled
    calls returns it and does nothing, since every level is above its rank
    0, and [Close] returns nil without closing anything. *)
Theorem zero_Logger_discards (l : nat) (st : State) :
  loggers st !! l = Some {| logger := None; level := 0; context := ""; out := None |} ->
  (forall m lvl,
     In (m, lvl) [(Error, levelError); (Warning, levelWarning); (Notice, levelNotice);
                  (Info, levelInfo); (Debug, levelDebug)] ->
     forall format v, m l format v st = Done (l, st))
  /\ Close l st = Done (None, st).
Proof.
  intros Hl. split.
  - intros m lvl Hin format v. simpl in Hin.
    repeat (destruct Hin as [Hin|Hin];
            [injection Hin as <- <-;
             apply (print_discards l _ _ format v st Hl); vm_compute; reflexivity|]).
    contradiction.
  - unfold Close, bind, deref. now rewrite Hl.
Qed.

(** ** The colours *)

(** X23: The colours of [ansi] are disabled by the first [NewLogger] on a file
    path with a valid level, whether it succeeds or not, and no call of
    [NewLogger] enables them again; a logger constructed from then on, one
    on the standard error stream included, sets the labels that [ansi]
    produces with its colours disabled. *)
Theorem colours_stay_disabled (logPath lvl : string) (st : State)
    (r : option nat * option error) (st' : State) :
  NewLogger logPath lvl st = Done (r, st') ->
  (colors_disabled st = true -> colors_disabled st' = true)
  /\ (is_Some (levelMap !! lvl) -> logPath <> "" -> logPath <> "-" ->
      colors_disabled st' = true)
  /\ (colors_disabled st' = true -> is_Some r.1 ->
      levelLabels st'
      = <[levelError := ansi_Color_disabled "ERROR" "red"]>
        (<[levelWarning := ansi_Color_disabled "WARNING" "yellow"]>
        (<[levelNotice := ansi_Color_disabled "NOTICE" "magenta"]>
        (<[levelInfo := ansi_Color_disabled "INFO" "blue"]>
        (<[levelDebug := ansi_Color_disabled "DEBUG" "cyan"]> ∅))))).
Proof.
  rewrite NewLogger_eq. cbv zeta.
  destruct (levelMap !! lvl) as [k|] eqn:Ek.
  - rewrite open_output_eq. cbv zeta.
    destruct (negb (logPath =? "")%string && negb (logPath =? "-")%string) eqn:Ep.
    + destruct (os_MkdirAll _ _ _);
        [intros H; injection H as <- <-; cbn [fst];
         repeat split; try reflexivity; intros _ [? ?]; discriminate|].
      destruct (os_OpenFile _ _ _ _); intros H; injection H as <- <-; cbn [fst];
        repeat split; try reflexivity; intros _ [? ?]; discriminate.
    + apply file_path_false in Ep.
      intros H; injection H as <- <-. cbn [fst]. split; [tauto|]. split.
      * intros _ H1 H2. destruct Ep; contradiction.
      * intros Hc _. simpl in Hc. simpl. unfold make_labels, Color. simpl.
        now rewrite Hc.
  - intros H. injection H as <- <-. cbn [fst]. split; [tauto|]. split.
    + intros [? ?]; discriminate.
    + intros _ [? ?]; discriminate.
Qed.

End Part000Env.

(** ** The properties at concrete inputs *)

Lemma warning_console_ready : ready warning_console 0 2 "" Stderr.
Proof. vm_compute. reflexivity. Qed.

(** A console logger at "warning", and a directory that cannot be created. *)
Lemma NewLogger_result_witness :
  (exists st',
     NewLogger (EX := sample_EX) (AP := sample_AP) "-" "warning" initial_state
     = Done ((Some (fresh (dom (loggers initial_state))), None), st')
     /\ ready st' (fresh (dom (loggers initial_state))) 2 "" Stderr)
  /\ (exists st',
     NewLogger (EX := sample_EX) (AP := sample_AP) "/proc/app/app.log" "debug" initial_state
     = Done ((None, Some (OSError
                {| os_msg := "mkdir /proc/app/: no such file or directory" |})), st')
     /\ colors_disabled st' = true).
Proof.
  split.
  - destruct (NewLogger_result (EX := sample_EX) (AP := sample_AP) "-" "warning" 2
                initial_state) as [H _]; [vm_compute; reflexivity|].
    destruct (H (or_intror eq_refl)) as (st' & E & Hr & _).
    exists st'. split; assumption.
  - destruct (NewLogger_result (EX := sample_EX) (AP := sample_AP) "/proc/app/app.log"
                "debug" 5 initial_state) as [_ H]; [vm_compute; reflexivity|].
    destruct (H ltac:(discriminate) ltac:(discriminate)) as (Hm & _ & _).
    destruct (Hm {| os_msg := "mkdir /proc/app/: no such file or directory" |})
      as (st' & E & _ & Hc); [vm_compute; reflexivity|].
    exists st'. split; assumption.
Defined.

(** At "warning", [Debug] is discarded and [Error] is written. *)
Lemma print_threshold_witness :
  print (EX := sample_EX) 0 levelDebug "cache miss" [] warning_console
  = Done (0%nat, warning_console)
  /\ exists line r st',
       print (EX := sample_EX) 0 levelError "disk full" [] warning_console
       = Done (0%nat, st')
       /\ history st' = history warning_console ++ [EvNow sample_time; EvWrite Stderr line r].
Proof.
  destruct (print_threshold (EX := sample_EX) 0 2 "" Stderr levelDebug "cache miss" []
              warning_console warning_console_ready) as [H _].
  split; [apply H; vm_compute; reflexivity|].
  destruct (print_threshold (EX := sample_EX) 0 2 "" Stderr levelError "disk full" []
              warning_console warning_console_ready) as [_ H'].
  destruct H' as (r & st' & E & Hh & _); [vm_compute; discriminate|].
  eexists _, r, st'. split; [exact E | exact Hh].
Defined.

(** [NewLogger("-", "warning")] followed by [Notice]. *)
Lemma level_discards_higher_witness :
  Notice (EX := sample_EX) 0 "reloaded" [] warning_console = Done (0%nat, warning_console).
Proof.
  destruct (level_discards_higher (EX := sample_EX) (AP := sample_AP) "-" "warning"
              initial_state 0 warning_console "reloaded" [] ltac:(vm_compute; reflexivity))
    as (f & _ & H).
  destruct (H (Notice (EX := sample_EX)) levelNotice ltac:(simpl; tauto))
    as (st2 & E & Hd & _).
  rewrite (Hd ltac:(vm_compute; reflexivity)) in E. exact E.
Defined.

(** A copy of the console logger for one request. *)
Lemma Context_copies_witness :
  exists l' st',
    Context 0 "request 7" warning_console = Done (l', st')
    /\ l' <> 0%nat
    /\ ready st' l' 2 "request 7" Stderr /\ ready st' 0 2 "" Stderr.
Proof.
  destruct (Context_copies (EX := sample_EX) 0 2 "" Stderr "request 7" warning_console
              warning_console_ready) as (l' & st' & E & Hne & H1 & H2 & _).
  exists l', st'. repeat split; assumption.
Defined.

(** [Debug] and [Close] on a zero [Logger]. *)
Lemma zero_Logger_discards_witness :
  Debug (EX := sample_EX) 0 "cache miss" [] zero_Logger_at_0 = Done (0%nat, zero_Logger_at_0)
  /\ Close (EX := sample_EX) 0 zero_Logger_at_0 = Done (None, zero_Logger_at_0).
Proof.
  destruct (zero_Logger_discards (EX := sample_EX) 0 zero_Logger_at_0) as [H1 H2];
    [vm_compute; reflexivity|].
  split; [|exact H2].
  apply (H1 (Debug (EX := sample_EX)) levelDebug). simpl. tauto.
Defined.

(** A console logger constructed after a file logger has plain labels. *)
Lemma colours_stay_disabled_witness :
  exists l st',
    NewLogger (EX := sample_EX) (AP := sample_AP) "-" "info" info_file
    = Done ((Some l, None), st')
    /\ levelLabels st' !! levelError = Some "ERROR".
Proof.
  destruct (NewLogger (EX := sample_EX) (AP := sample_AP) "-" "info" info_file)
    as [[[[l|] e] st']|msg|] eqn:E; try (exfalso; vm_compute in E; discriminate).
  destruct (colours_stay_disabled (EX := sample_EX) (AP := sample_AP) "-" "info"
              info_file _ st' E) as (H1 & _ & H3).
  assert (e = None) as -> by (vm_compute in E; now injection E as _ <-).
  exists l, st'. split; [reflexivity|].
  rewrite H3; [reflexivity | apply H1; vm_compute; reflexivity | simpl; eauto].
Defined.

End Part000Facts.

Module Part001Facts.
Import Part001.

Section Part001Env.
Context `{EX : Externals} `{AP : AnsiPlain}.

(** The variables once [logger] and [levelLabels] have been assigned. *)
Lemma install_eq f st :
  install f st
  = Done (tt, set_levelLabels (make_labels st)
                (set_logger (Some (log_New f "" (Z.lor LstdFlags Lmicroseconds))) st)).
Proof. reflexivity. Qed.

(** [Init], step by step. *)
Lemma Init_eq logPath lvl st :
  let name := if (lvl =? "")%string then defaultLevel else lvl in
  let dir := (path_Split logPath).1 in
  let flag := Z.lor (Z.lor O_APPEND O_CREATE) O_WRONLY in
  let st0 := set_logLevel (index_int levelMap name) st in
  let st1 := add_event (EvMkdirAll dir 493 (os_MkdirAll (history st) dir 493))
               (set_levelSuffix ":" (set_colors_disabled true st0)) in
  let st2 := add_event (EvOpenFile logPath flag 420
                          (os_OpenFile (history st1) logPath flag 420)) st1 in
  let f := Opened logPath (List.length (history st1)) in
  let st3 := set_levelLabels (make_labels st2)
               (set_logger (Some (log_New f "" (Z.lor LstdFlags Lmicroseconds))) st2) in
  Init logPath lvl st
  = match levelMap !! name with
    | None => Done (Some ErrInvalidLevel, st0)
    | Some _ =>
        if negb (logPath =? "")%string && negb (logPath =? "-")%string then
          match os_MkdirAll (history st) dir 493 with
          | Some e => Done (Some (OSError e), st1)
          | None =>
              match os_OpenFile (history st1) logPath flag 420 with
              | Some e => Done (Some (Errorf ("unable to open log file: " +:+ os_msg e)), st2)
              | None => Done (None, add_event (EvClose f (file_Close (history st3) f)) st3)
              end
          end
        else
          Done (None, set_levelLabels (make_labels st0)
                        (set_logger (Some (log_New Stderr "" (Z.lor LstdFlags Lmicroseconds)))
                           st0))
    end.
Proof.
  cbv zeta. unfold Init.
  set (name := if (lvl =? "")%string then defaultLevel else lvl).
  unfold bind at 1. unfold modify at 1.
  destruct (levelMap !! name) as [k|]; [|reflexivity].
  destruct (negb (logPath =? "")%string && negb (logPath =? "-")%string); [|reflexivity].
  cbv [bind modify call_MkdirAll call_OpenFile install get_state osFile_Close ret].
  cbn [history set_levelSuffix set_colors_disabled set_logLevel].
  destruct (os_MkdirAll (history st) (path_Split logPath).1 493) as [e|] eqn:Em;
    [reflexivity|].
  cbn [history add_event set_levelSuffix set_colors_disabled set_logLevel].
  destruct (os_OpenFile _ logPath _ 420) as [e|] eqn:Eo; reflexivity.
Qed.

(** ** [Init] *)

(** X24: On a file path [Init] closes the log file before it returns: with a
    valid level, or none, and an operating system that creates the directory
    and opens the file, the last call of [Init] is the [Close] of the file it
    has just opened, and the package-level logger is left writing to that
    file.  The labels get the suffix ":" and the level is the rank of the
    name. *)
Theorem Init_closes_its_file (logPath lvl : string) (k : Z) (st : State) :
  logPath <> "" -> logPath <> "-" ->
  levelMap !! (if (lvl =? "")%string then defaultLevel else lvl) = Some k ->
  let dir := (path_Split logPath).1 in
  let flag := Z.lor (Z.lor O_APPEND O_CREATE) O_WRONLY in
  let f := Opened logPath (S (List.length (history st))) in
  os_MkdirAll (history st) dir 493 = None ->
  os_OpenFile (history st ++ [EvMkdirAll dir 493 None]) logPath flag 420 = None ->
  exists r st',
    Init logPath lvl st = Done (None, st')
    /\ history st' = history st ++ [EvMkdirAll dir 493 None;
                                   EvOpenFile logPath flag 420 None;
                                   EvClose f r]
    /\ logger st' = Some (log_New f "" (Z.lor LstdFlags Lmicroseconds))
    /\ logLevel st' = k /\ levelSuffix st' = ":" /\ colors_disabled st' = true.
Proof.
  intros H1 H2 Hk dir flag f Hm Ho.
  pose proof (Init_eq logPath lvl st) as E. cbv zeta in E. fold dir flag in E.
  rewrite Hk in E.
  replace (negb (logPath =? "")%string && negb (logPath =? "-")%string) with true in E
    by (destruct (String.eqb_spec logPath ""), (String.eqb_spec logPath "-");
        simpl; congruence).
  cbn [history set_logLevel set_levelSuffix set_colors_disabled add_event] in E.
  rewrite Hm, Ho in E.
  eexists _, _. split; [exact E|]. split; [|split; [|split; [|split]]].
  - simpl. rewrite <- !app_assoc. simpl. unfold f.
    rewrite length_app, Nat.add_comm. reflexivity.
  - simpl. unfold f. rewrite length_app, Nat.add_comm. reflexivity.
  - simpl. now apply index_int_levelMap.
  - reflexivity.
  - reflexivity.
Qed.

Lemma printLog_discards lvl ctx format v st :
  logLevel st < lvl -> printLog lvl ctx format v st = Done (tt, st).
Proof.
  intros H. unfold printLog, bind, get_state.
  destruct (Z.ltb_spec (logLevel st) lvl); [reflexivity | lia].
Qed.

(** X25: [Init] fails with [ErrInvalidLevel] exactly when the level is neither
    empty nor one of the five names; the empty level stands for "info".
    The failed call has set the level to zero all the same: from then on
    each of the five leveled calls returns without writing, whatever an
    earlier [Init] had set up.  It has called nothing outside the package. *)
Theorem Init_level_names (logPath lvl : string) (st : State) :
  Init logPath "" st = Init logPath "info" st
  /\ exists r st',
       Init logPath lvl st = Done (r, st')
       /\ (r = Some ErrInvalidLevel
           <-> lvl <> "" /\ ~ In lvl ["error"; "warning"; "notice"; "info"; "debug"])
       /\ (r = Some ErrInvalidLevel ->
           logLevel st' = 0 /\ logger st' = logger st /\ history st' = history st
           /\ forall m, In m [Error; Warning; Notice; Info; Debug] ->
                forall ctx format v, m ctx format v st' = Done (tt, st')).
Proof.
  split; [reflexivity|].
  rewrite Init_eq. cbv zeta.
  set (name := if (lvl =? "")%string then defaultLevel else lvl).
  pose proof (levelMap_names name) as Hn.
  assert (Hname : lvl <> "" /\ ~ In lvl ["error"; "warning"; "notice"; "info"; "debug"]
                  <-> ~ In name ["error"; "warning"; "notice"; "info"; "debug"]).
  { unfold name. destruct (String.eqb_spec lvl "") as [->|Hne].
    - split; [intros [H _]; now destruct H|]. intros H. exfalso. apply H. simpl. tauto.
    - tauto. }
  destruct (levelMap !! name) as [k|] eqn:Ek.
  - assert (Hin : In name ["error"; "warning"; "notice"; "info"; "debug"])
      by (apply Hn; eauto).
    assert (Hno : forall (e : option error) (P : Prop),
               e <> Some ErrInvalidLevel ->
               (e = Some ErrInvalidLevel
                <-> lvl <> "" /\ ~ In lvl ["error"; "warning"; "notice"; "info"; "debug"])
               /\ (e = Some ErrInvalidLevel -> P)).
    { intros e P He. split; [|intros H; contradiction].
      split; [intros H; contradiction|]. intros H. apply Hname in H. contradiction. }
    destruct (negb (logPath =? "")%string && negb (logPath =? "-")%string).
    + destruct (os_MkdirAll _ _ _);
        [eexists _, _; split; [reflexivity|]; apply Hno; discriminate|].
      destruct (os_OpenFile _ _ _ _); eexists _, _; (split; [reflexivity|]);
        apply Hno; discriminate.
    + eexists _, _. split; [reflexivity|]. apply Hno. discriminate.
  - eexists _, _. split; [reflexivity|]. split.
    + split; [intros _|reflexivity]. apply Hname. intros H. apply Hn in H.
      destruct H; discriminate.
    + intros _. unfold index_int. rewrite Ek. repeat split.
      intros m Hm ctx format v. simpl in Hm.
      repeat (destruct Hm as [<-|Hm];
              [apply printLog_discards; vm_compute; reflexivity|]).
      contradiction.
Qed.

(** ** [printLog] and the leveled calls *)

Lemma printLog_nil lvl ctx format v st :
  lvl <= logLevel st -> logger st = None ->
  printLog lvl ctx format v st = Panic "invalid memory address or nil pointer dereference".
Proof.
  intros Hle Hw. unfold printLog, bind at 1, get_state.
  destruct (Z.ltb_spec (logLevel st) lvl); [lia|]. now rewrite Hw.
Qed.

(** X26: [printLog] discards a message whose level is above [logLevel], without
    looking at the logger.  Any other message is handed to the logger as one
    line: time stamp, label of the level, suffix, a space, the context, a
    colon and the message, the colon also after an empty context; and when
    no [Init] has assigned the logger, the call panics. *)
Theorem printLog_threshold (lvl : Z) (ctx format : string) (v : list any) (st : State) :
  (logLevel st < lvl -> printLog lvl ctx format v st = Done (tt, st))
  /\ (lvl <= logLevel st ->
      forall w, logger st = Some w ->
        let t := time_Now (history st) in
        let line := output_line w t
                      (index_string (levelLabels st) lvl +:+ levelSuffix st +:+ " " +:+
                       ctx +:+ ": " +:+ fmt_Sprintf format v) in
        exists r st',
          printLog lvl ctx format v st = Done (tt, st')
          /\ history st' = history st ++ [EvNow t; EvWrite (lg_out w) line r]
          /\ logger st' = logger st /\ logLevel st' = logLevel st)
  /\ (lvl <= logLevel st -> logger st = None ->
      printLog lvl ctx format v st
      = Panic "invalid memory address or nil pointer dereference").
Proof.
  split; [apply printLog_discards|]. split.
  - intros Hle w Hw t line. unfold printLog, bind at 1, get_state.
    destruct (Z.ltb_spec (logLevel st) lvl); [lia|]. rewrite Hw.
    eexists _, _. split; [reflexivity|]. split; [|split; [exact Hw | reflexivity]].
    simpl. now rewrite <- app_assoc.
  - apply printLog_nil.
Qed.

(** X27: Before any [Init] the five leveled calls return without doing
    anything.  After an [Init] that has failed on the directory of the log
    file they do not: the level has been set, the logger has not, and
    [Error] panics on the nil logger. *)
Theorem failed_Init_leaves_nil_logger (logPath lvl : string) (k : Z) (e : oserror)
    (ctx format : string) (v : list any) :
  (forall m, In m [Error; Warning; Notice; Info; Debug] ->
     m ctx format v initial_state = Done (tt, initial_state))
  /\ (logPath <> "" -> logPath <> "-" ->
      levelMap !! (if (lvl =? "")%string then defaultLevel else lvl) = Some k ->
      os_MkdirAll [] (path_Split logPath).1 493 = Some e ->
      exists st',
        Init logPath lvl initial_state = Done (Some (OSError e), st')
        /\ Error ctx format v st'
           = Panic "invalid memory address or nil pointer dereference").
Proof.
  split.
  - intros m Hm. simpl in Hm.
    repeat (destruct Hm as [<-|Hm]; [apply printLog_discards; vm_compute; reflexivity|]).
    contradiction.
  - intros H1 H2 Hk Hm.
    pose proof (Init_eq logPath lvl initial_state) as E. cbv zeta in E.
    rewrite Hk in E.
    replace (negb (logPath =? "")%string && negb (logPath =? "-")%string) with true in E
      by (destruct (String.eqb_spec logPath ""), (String.eqb_spec logPath "-");
          simpl; congruence).
    cbn [history initial_state] in E. rewrite Hm in E.
    eexists. split; [exact E|].
    apply printLog_nil; [|reflexivity].
    simpl. rewrite (index_int_levelMap _ k Hk).
    pose proof (levelMap_range _ k Hk). unfold levelError. lia.
Qed.

End Part001Env.

(** ** The properties at concrete inputs *)

(** [Init("/var/log/app.log", "")]: the file is open, then closed. *)
Lemma Init_closes_its_file_witness :
  exists r st',
    Init (EX := sample_EX) (AP := sample_AP) "/var/log/app.log" "" initial_state
    = Done (None, st')
    /\ history st' = [EvMkdirAll "/var/log/" 493 None;
                      EvOpenFile "/var/log/app.log" 1089 420 None;
                      EvClose (Opened "/var/log/app.log" 1) r]
    /\ logger st' = Some (log_New (Opened "/var/log/app.log" 1) ""
                            (Z.lor LstdFlags Lmicroseconds))
    /\ logLevel st' = 4.
Proof.
  destruct (Init_closes_its_file (EX := sample_EX) (AP := sample_AP) "/var/log/app.log" ""
              4 initial_state) as (r & st' & E & Hh & Hl & Hk & _);
    try discriminate; try (vm_compute; reflexivity).
  exists r, st'. repeat split; assumption.
Defined.

(** At "warning", [Debug] is discarded and [Error] is written. *)
Lemma printLog_threshold_witness :
  Debug (EX := sample_EX) "cache" "miss" [] warning_Init = Done (tt, warning_Init)
  /\ exists line r st',
       Error (EX := sample_EX) "disk" "full" [] warning_Init = Done (tt, st')
       /\ history st' = history warning_Init ++ [EvNow sample_time; EvWrite Stderr line r].
Proof.
  split.
  - apply (proj1 (printLog_threshold (EX := sample_EX) levelDebug "cache" "miss" []
                    warning_Init)).
    vm_compute. reflexivity.
  - destruct (proj1 (proj2 (printLog_threshold (EX := sample_EX) levelError "disk" "full" []
                              warning_Init))
                ltac:(vm_compute; discriminate)
                (log_New Stderr "" (Z.lor LstdFlags Lmicroseconds))
                ltac:(vm_compute; reflexivity))
      as (r & st' & E & Hh & _).
    eexists _, r, st'. split; [exact E | exact Hh].
Defined.

(** [Init] under [/proc], then [Error]. *)
Lemma failed_Init_leaves_nil_logger_witness :
  Info (EX := sample_EX) "startup" "ready" [] initial_state = Done (tt, initial_state)
  /\ exists st',
       Init (EX := sample_EX) (AP := sample_AP) "/proc/app/app.log" "info" initial_state
       = Done (Some (OSError {| os_msg := "mkdir /proc/app/: no such file or directory" |}),
               st')
       /\ Error (EX := sample_EX) "startup" "ready" [] st'
          = Panic "invalid memory address or nil pointer dereference".
Proof.
  destruct (failed_Init_leaves_nil_logger (EX := sample_EX) (AP := sample_AP)
              "/proc/app/app.log" "info" 4
              {| os_msg := "mkdir /proc/app/: no such file or directory" |}
              "startup" "ready" []) as [H1 H2].
  split.
  - apply (H1 (Info (EX := sample_EX))). simpl. tauto.
  - apply H2; try discriminate; vm_compute; reflexivity.
Defined.

End Part001Facts.
